(** * ALIA-Eval: the paragraph extraction, alignment, consolidation and
    verification pipeline

    A shallow embedding of the three scripts

      - [01_extract_paragraphs.py]        (Extractor, Discovery, Aligner/Writer, batch driver)
      - [02_consolidate_parallel_texts.py] (Consolidator)
      - [03_verify_paragraph_counts.py]    (Verifier)

    Python [str] values that hold document text are lists of Unicode code
    points; file and directory names, language codes and dictionary keys are
    [string]s (their UTF-8 bytes, whose lexicographic order is the order of
    the code points).  The file system is a finite map from paths to nodes,
    and every stage runs in a small state-and-exception monad over it. *)

From Stdlib Require Import NArith Ascii String.
From stdpp Require Import gmap strings list fin_maps sorting.

Local Open Scope string_scope.
Local Open Scope nat_scope.
Local Open Scope list_scope.

(** ** Python strings *)

Module Py.

(** A [str] is its sequence of code points. *)
Abbreviation str := (list N).

(** Literals of the embedding: the code points of an ASCII string. *)
Definition lit (s : string) : str :=
  map N_of_ascii (list_ascii_of_string s).

Definition LF : N := 10.
Definition CR : N := 13.

(** [str.isspace] on one character: CPython's [_PyUnicode_IsWhitespace]
    (bidirectional types WS, B, S and category Zs). *)
Definition isspace (c : N) : bool :=
  ((9 <=? c) && (c <=? 13) || (28 <=? c) && (c <=? 32)
   || (c =? 133) || (c =? 160) || (c =? 5760)
   || (8192 <=? c) && (c <=? 8202)
   || (c =? 8232) || (c =? 8233) || (c =? 8239) || (c =? 8287)
   || (c =? 12288))%N.

Definition is_lf (c : N) : bool := (c =? LF)%N.

(** [s.lstrip(chars)], [s.rstrip(chars)] with the stripped class given as
    a predicate. *)
Fixpoint lstrip_by (f : N → bool) (s : str) : str :=
  match s with
  | [] => []
  | c :: r => if f c then lstrip_by f r else s
  end.

Definition rstrip_by (f : N → bool) (s : str) : str :=
  reverse (lstrip_by f (reverse s)).

(** [s.strip()] *)
Definition strip (s : str) : str := rstrip_by isspace (lstrip_by isspace s).

(** [s.rstrip('\n')] *)
Definition rstrip_nl (s : str) : str := rstrip_by is_lf s.

(** Truth value of a [str]: non-empty. *)
Definition truthy (s : str) : bool :=
  match s with [] => false | _ :: _ => true end.

(** [sep.join(parts)] *)
Fixpoint join (sep : str) (parts : list str) : str :=
  match parts with
  | [] => []
  | p :: rest =>
      match rest with
      | [] => p
      | _ :: _ => p ++ sep ++ join sep rest
      end
  end.

(** [s.split('\n')]: the pieces between line feeds, always at least one. *)
Fixpoint split_nl (s : str) : list str :=
  match s with
  | [] => [[]]
  | c :: r =>
      if is_lf c then [] :: split_nl r
      else match split_nl r with
           | l :: ls => (c :: l) :: ls
           | [] => [[c]]
           end
  end.

(** Iterating a text file: the lines with their terminating line feed, the
    last one without it when the text does not end in a line feed. *)
Fixpoint iter_lines (s : str) : list str :=
  match s with
  | [] => []
  | c :: r =>
      if is_lf c then [c] :: iter_lines r
      else match iter_lines r with
           | l :: ls => (c :: l) :: ls
           | [] => [[c]]
           end
  end.

(** Text-mode reading with [newline=None]: CR LF and a lone CR become LF. *)
Fixpoint universal_newlines (s : str) : str :=
  match s with
  | [] => []
  | c :: r =>
      if (c =? CR)%N then
        LF :: match r with
              | d :: r' => if is_lf d then universal_newlines r'
                           else universal_newlines r
              | [] => []
              end
      else c :: universal_newlines r
  end.

(** [c.lower()] on the ASCII capitals.  The only use is the test
    ["image" in s.lower()]; no other case mapping yields a run of the
    ASCII letters of that word. *)
Definition lower_char (c : N) : N :=
  if ((65 <=? c) && (c <=? 90))%N then (c + 32)%N else c.

Definition lower (s : str) : str := map lower_char s.

Fixpoint startswith (s pre : str) : bool :=
  match pre, s with
  | [], _ => true
  | p :: pre', c :: s' => (c =? p)%N && startswith s' pre'
  | _ :: _, [] => false
  end.

(** [sub in s] *)
Fixpoint contains (sub s : str) : bool :=
  startswith s sub ||
  match s with
  | [] => false
  | _ :: r => contains sub r
  end.

End Py.

(** ** The document object model read by the Extractor *)

(** What [python-docx] exposes of a parsed package: the target references of
    the relationships of the main part, the body tables, the sections with
    the paragraphs of their header and footer, and the body paragraphs
    (each as its [text]). *)
Record section := {
  header_paragraphs : list Py.str;
  footer_paragraphs : list Py.str
}.

Record document := {
  rels : list Py.str;
  tables : list (list (list Py.str));
  sections : list section;
  paragraphs : list Py.str
}.

(** The [issues] dictionary, with its four fixed keys. *)
Record issues := {
  images : nat;
  n_tables : nat;
  headers : nat;
  footers : nat
}.

Module DocxParagraphExtractor.

(** [extract_paragraphs]: the counts first, then the loop over
    [doc.paragraphs] appending every stripped text that is not empty. *)
Definition extract_paragraphs (doc : document) : list Py.str * issues :=
  let issues0 := {|
    images := length (filter (λ target_ref,
                        Is_true (Py.contains (Py.lit "image") (Py.lower target_ref)))
                        (rels doc));
    n_tables := length (tables doc);
    headers := match sections doc with
               | s0 :: _ => length (header_paragraphs s0)
               | [] => 0
               end;
    footers := match sections doc with
               | s0 :: _ => length (footer_paragraphs s0)
               | [] => 0
               end |} in
  let paras :=
    foldl (λ acc para,
             let text := Py.strip para in
             if Py.truthy text then acc ++ [text] else acc)
          [] (paragraphs doc) in
  (paras, issues0).

End DocxParagraphExtractor.

(** ** The file system *)

(** A path is its list of components below the directory of the scripts
    (the root [[]], which is a directory); [p / name] appends one component.
    Every name joined to a path in the scripts is a single component: a
    fixed literal, the name of a directory entry, or a name derived from
    one by removing a suffix. *)
Abbreviation path := (list string).

Definition path_join (p : path) (name : string) : path := p ++ [name].
Infix "/:" := path_join (at level 40, left associativity).

(** A node of the tree: a directory, a text file (its UTF-8 decoding) or a
    package that [python-docx] parses to the given document.  A package is
    not valid UTF-8 text and a text file is not a package. *)
Inductive fnode :=
| DirN
| TextN (content : Py.str)
| DocxN (doc : document).

(** The exceptions the scripts can meet, each with the path or message it
    carries ([str(e)] is a function of these). *)
Inductive exn :=
| PackageNotFoundError (p : path)
| UnicodeDecodeError (p : path)
| FileNotFoundError (p : path)
| IsADirectoryError (p : path)
| NotADirectoryError (p : path)
| FileExistsError (p : path)
| ValueError (msg : string).

(** The lines printed to standard output that report a result, one
    constructor per [print] (or group of adjacent prints), in the order of
    the prints.  Banners, blank lines, the listing of the discovered sets
    and the symbols in front of the count lines are left out. *)
Inductive event :=
(* 01_extract_paragraphs.py *)
| EvProcessing (lang_code : string) (doc_path : path)
| EvExtracted (lang_code : string) (n : nat) (found : issues)
| EvCount (lang_code : string) (count : nat)
| EvCountsDiffer (min_count max_count : nat)
| EvDiscarded (lang_code : string) (n : nat) (discarded_path : path)
| EvAllSame (min_count : nat)
| EvSaved (lang_code : string) (output_path : path) (n : nat)
| EvAllOutput (min_count : nat)
| EvFound (total_docs n_folders : nat)
| EvHeader (doc_counter total_docs : nat) (folder_name doc_name : string)
| EvErrorProcessing (doc_name : string) (e : exn)
| EvComplete (total_docs successful failed : nat)
(* 02_consolidate_parallel_texts.py *)
| EvFolder (name : string)
| EvWarnMismatch (doc_name : string) (counts : gmap string nat)
| EvDocDone (doc_name : string) (paragraph_count : nat)
| EvStatistics (document_count total_paragraphs : nat)
| EvFileLines (lang_code : string) (line_count : nat)
| EvAlignmentVerified (n : option nat)
| EvLineCountMismatch (line_counts : gmap string nat)
(* 03_verify_paragraph_counts.py *)
| EvVerifyFolder (folder_name : string)
| EvVerifyDoc (doc_name : string)
| EvLangCount (lang : string) (count : nat)
| EvAllLanguagesHave (unique_counts : gset nat)
| EvMismatch (unique_counts : gset nat)
| EvSummary (total_docs : nat) (all_ok : bool).

Record world := {
  files : gmap path fnode;
  stdout : list event
}.

(** ** The monad of the scripts: state and exceptions *)

Definition io (A : Type) : Type := world → (exn + A) * world.

Definition ret {A} (x : A) : io A := λ w, (inr x, w).

Definition bind {A B} (m : io A) (k : A → io B) : io B :=
  λ w, match m w with
       | (inr x, w') => k x w'
       | (inl e, w') => (inl e, w')
       end.

Definition raise {A} (e : exn) : io A := λ w, (inl e, w).

(** [try: m  except Exception as e: handler e] *)
Definition try_except {A} (m : io A) (handler : exn → io A) : io A :=
  λ w, match m w with
       | (inr x, w') => (inr x, w')
       | (inl e, w') => handler e w'
       end.

Declare Scope io_scope.
Delimit Scope io_scope with io.
Notation "x <- m ;; k" := (bind m (λ x, k))
  (at level 20, m at level 99, k at level 200, right associativity) : io_scope.
Notation "' pat <- m ;; k" := (bind m (λ x, match x with pat => k end))
  (at level 20, pat pattern, m at level 99, k at level 200,
   right associativity) : io_scope.
Notation "m ;; k" := (bind m (λ _, k))
  (at level 100, k at level 200, right associativity) : io_scope.
Local Open Scope io_scope.

(** [for x in xs: body x] *)
Fixpoint for_ {A} (xs : list A) (body : A → io unit) : io unit :=
  match xs with
  | [] => ret tt
  | x :: rest => body x ;; for_ rest body
  end.

(** A loop that updates local variables [s]. *)
Fixpoint fold_io {A S} (xs : list A) (s : S) (body : S → A → io S) : io S :=
  match xs with
  | [] => ret s
  | x :: rest => s' <- body s x ;; fold_io rest s' body
  end.

Definition print (ev : event) : io unit :=
  λ w, (inr tt, {| files := files w; stdout := stdout w ++ [ev] |}).

Definition get_files : io (gmap path fnode) := λ w, (inr (files w), w).

(** *** Queries *)

Definition is_dir (fs : gmap path fnode) (p : path) : bool :=
  match p with
  | [] => true
  | _ :: _ => match fs !! p with Some DirN => true | _ => false end
  end.

Definition is_file (fs : gmap path fnode) (p : path) : bool :=
  match p with
  | [] => false
  | _ :: _ => match fs !! p with
              | Some (TextN _) | Some (DocxN _) => true
              | _ => false
              end
  end.

Definition path_exists (fs : gmap path fnode) (p : path) : bool :=
  is_dir fs p || is_file fs p.

(** The name of [p] when [p] is an entry of directory [d]. *)
Definition child_name (d p : path) : option string :=
  match last p with
  | Some name => if decide (p = d /: name) then Some name else None
  | None => None
  end.

(** The names of the entries of [d], in the order the system lists them
    (which the scripts never rely on without sorting). *)
Definition listdir (fs : gmap path fnode) (d : path) : list string :=
  omap (λ kv, child_name d kv.1) (map_to_list fs).

(** [sorted(...)] on names and on paths of one directory. *)
Definition sorted (names : list string) : list string :=
  merge_sort String.le names.

(** [sorted(d.items())]: by key, the keys of a dictionary being distinct. *)
Definition sorted_items {V} (d : gmap string V) : list (string * V) :=
  merge_sort (λ a b, String.le a.1 b.1) (map_to_list d).

(** [p.iterdir()] *)
Definition iterdir (p : path) : io (list string) :=
  λ w, if is_dir (files w) p then (inr (listdir (files w) p), w)
       else if is_file (files w) p then (inl (NotADirectoryError p), w)
       else (inl (FileNotFoundError p), w).

Fixpoint strip_suffix (suffix s : string) : option string :=
  if String.eqb s suffix then Some ""
  else match s with
       | String c rest => String c <$> strip_suffix suffix rest
       | EmptyString => None
       end.

Definition endswith (s suffix : string) : bool :=
  bool_decide (is_Some (strip_suffix suffix s)).

(** [p.glob("*" + ext)]: the entries of [p] whose name ends in [ext]; nothing
    when [p] is not a directory. *)
Definition glob_ext (fs : gmap path fnode) (p : path) (ext : string) : list string :=
  if is_dir fs p then filter (λ name, Is_true (endswith name ext)) (listdir fs p)
  else [].

(** *** Reading *)

(** [open(p, 'r', encoding='utf-8')] read whole, [Path.read_text]: text mode
    with universal newlines. *)
Definition read_text (p : path) : io Py.str :=
  λ w, match p, files w !! p with
       | [], _ => (inl (IsADirectoryError p), w)
       | _, Some (TextN c) => (inr (Py.universal_newlines c), w)
       | _, Some DirN => (inl (IsADirectoryError p), w)
       | _, Some (DocxN _) => (inl (UnicodeDecodeError p), w)
       | _, None => (inl (FileNotFoundError p), w)
       end.

(** [Document(p)] *)
Definition Document (p : path) : io document :=
  λ w, match p, files w !! p with
       | _ :: _, Some (DocxN d) => (inr d, w)
       | _, _ => (inl (PackageNotFoundError p), w)
       end.

(** *** Writing (POSIX: a line feed is written as itself) *)

Definition parent (p : path) : path := take (length p - 1) p.

(** The non-empty prefixes of [p], shortest first. *)
Definition prefixes (p : path) : list path :=
  (λ n, take (S n) p) <$> seq 0 (length p).

Definition set_files (f : gmap path fnode → gmap path fnode) (w : world) : world :=
  {| files := f (files w); stdout := stdout w |}.

(** [p.mkdir(parents=True, exist_ok=True)], [os.makedirs(p, exist_ok=True)]:
    fails when [p] or one of its ancestors is a file, and otherwise makes
    every missing directory on the way. *)
Definition mkdir_parents (p : path) : io unit :=
  λ w, match list_find (λ q, Is_true (is_file (files w) q)) (prefixes p) with
       | Some (_, q) =>
           (inl (if decide (q = p) then FileExistsError p else NotADirectoryError p), w)
       | None =>
           (inr tt, set_files (λ fs, foldl (λ fs q, <[q := DirN]> fs) fs (prefixes p)) w)
       end.

(** [open(p, 'w', encoding='utf-8')] followed by writing [content] whole:
    [Path.write_text].  The file is created or replaced.  (The text is
    taken to be encodable in UTF-8, as every text that comes from a
    package or from a text file is.) *)
Definition write_text (p : path) (content : Py.str) : io unit :=
  λ w, if is_dir (files w) p then (inl (IsADirectoryError p), w)
       else if is_dir (files w) (parent p)
       then (inr tt, set_files (insert p (TextN content)) w)
       else if is_file (files w) (parent p) then (inl (NotADirectoryError p), w)
       else (inl (FileNotFoundError p), w).

(** [f.write(s)] on the stream opened on [p]: the text is appended.  (The
    text is taken to reach the file at once; buffering is not modelled.) *)
Definition stream_write (p : path) (s : Py.str) : io unit :=
  λ w, match files w !! p with
       | Some (TextN c) => (inr tt, set_files (insert p (TextN (c ++ s))) w)
       | _ => (inl (ValueError "I/O operation on closed file"), w)
       end.

(** ** Stage 1: [01_extract_paragraphs.py] *)

(** [f"{lang_code}.txt"] *)
Definition txt (lang_code : string) : string := lang_code +:+ ".txt".

(** The separator ['\n\n'] of the per-document files. *)
Definition para_sep : Py.str := [Py.LF; Py.LF].

(** [min(xs)] and [max(xs)]: a [ValueError] on an empty sequence. *)
Definition min_of (xs : list nat) : option nat :=
  match xs with
  | [] => None
  | x :: rest => Some (foldl Nat.min x rest)
  end.

Definition max_of (xs : list nat) : option nat :=
  match xs with
  | [] => None
  | x :: rest => Some (foldl Nat.max x rest)
  end.

Definition py_min (xs : list nat) : io nat :=
  match min_of xs with
  | Some m => ret m
  | None => raise (ValueError "min() arg is an empty sequence")
  end.

Definition py_max (xs : list nat) : io nat :=
  match max_of xs with
  | Some m => ret m
  | None => raise (ValueError "max() arg is an empty sequence")
  end.

(** [d.values()] *)
Definition values {V} (d : gmap string V) : list V := (map_to_list d).*2.

(** Lines 70-97: every language version is opened and extracted, in the
    order of the sorted language codes. *)
Definition extract_all (doc_paths : gmap string path) : io (gmap string (list Py.str)) :=
  fold_io (sorted_items doc_paths) ∅
    (λ all_paragraphs item,
       print (EvProcessing item.1 item.2) ;;
       doc <- Document item.2 ;;
       let extracted := DocxParagraphExtractor.extract_paragraphs doc in
       print (EvExtracted item.1 (length extracted.1) extracted.2) ;;
       ret (<[item.1 := extracted.1]> all_paragraphs)).

(** Lines 129-137: the tail of every version longer than [min_count] goes to
    the discard folder of the document, which is made on demand. *)
Definition save_discarded (discarded_folder : path) (min_count : nat)
    (all_paragraphs : gmap string (list Py.str)) : io unit :=
  for_ (sorted_items all_paragraphs)
    (λ item,
       if decide (min_count < length item.2) then
         mkdir_parents discarded_folder ;;
         let discarded_path := discarded_folder /: txt item.1 in
         write_text discarded_path (Py.join para_sep (drop min_count item.2)) ;;
         print (EvDiscarded item.1 (length item.2 - min_count) discarded_path)
       else ret tt).

(** Lines 151-159: one output file per language, paragraphs joined by a
    blank line. *)
Definition save_parallel (output_folder : path)
    (all_paragraphs : gmap string (list Py.str)) : io unit :=
  mkdir_parents output_folder ;;
  for_ (sorted_items all_paragraphs)
    (λ item,
       let output_path := output_folder /: txt item.1 in
       write_text output_path (Py.join para_sep item.2) ;;
       print (EvSaved item.1 output_path (length item.2))).

(** Lines 99-162 of [process_document_set], the Aligner/Writer: from the
    extracted paragraph sequences to the files. *)
Definition align_and_write (all_paragraphs : gmap string (list Py.str))
    (output_base discarded_base : path) (folder_name doc_name : string) : io unit :=
  let counts := length <$> all_paragraphs in
  min_count <- py_min (values counts) ;;
  max_count <- py_max (values counts) ;;
  for_ (sorted_items counts) (λ item, print (EvCount item.1 item.2)) ;;
  (if decide (min_count ≠ max_count) then
     print (EvCountsDiffer min_count max_count) ;;
     save_discarded (discarded_base /: doc_name) min_count all_paragraphs
   else print (EvAllSame min_count)) ;;
  let all_paragraphs := take min_count <$> all_paragraphs in
  save_parallel (output_base /: folder_name /: doc_name) all_paragraphs ;;
  print (EvAllOutput min_count).

Definition process_document_set (doc_paths : gmap string path)
    (output_base discarded_base : path) (folder_name doc_name : string) : io unit :=
  all_paragraphs <- extract_all doc_paths ;;
  align_and_write all_paragraphs output_base discarded_base folder_name doc_name.

(** *** Discovery *)

Definition folders : list string :=
  ["Presidente"; "Consejo de Ministros"; "Gobierno XV"; "Actualidad"].

(** [language_patterns], in the order of the dictionary.  Every pattern has
    the shape [[_-](a1|...|an)\.docx$]; the entry holds [a1 ... an]. *)
Definition language_patterns : list (string * list string) :=
  [ ("castellano", ["castellano"]);
    ("ca_ES", ["ca-ES"; "ca_ES"]);
    ("vl_ES", ["ca-ES-valencia"; "va_ES"; "vl_ES"]);
    ("gl_ES", ["gl-ES"; "gl_ES"; "ga_ES"]);
    ("eu_ES", ["eu-ES"; "eu_ES"]) ].

(** The pattern matches at the start of [s]: a separator, one alternative,
    the extension, and the end.  (On the names that [glob('*.docx')] yields,
    [$] can only match at the very end.) *)
Definition match_here (alts : list string) (s : string) : bool :=
  match s with
  | String c rest =>
      (Ascii.eqb c "_" || Ascii.eqb c "-")
      && existsb (λ a, String.eqb rest (a +:+ ".docx")) alts
  | EmptyString => false
  end.

(** [re.search(pattern, s)]: the leftmost position where the pattern
    matches; the result is the text before the match.  As the match runs to
    the end, that text is also [re.sub(pattern, '', s)]. *)
Fixpoint re_search (alts : list string) (s : string) : option string :=
  if match_here alts s then Some ""
  else match s with
       | String c rest => String c <$> re_search alts rest
       | EmptyString => None
       end.

(** Lines 201-208: the first pattern that matches gives the language and the
    base name. *)
Fixpoint classify_with (patterns : list (string * list string)) (name : string)
    : option (string * string) :=
  match patterns with
  | [] => None
  | (lang_code, alts) :: rest =>
      match re_search alts name with
      | Some base_name => Some (lang_code, base_name)
      | None => classify_with rest name
      end
  end.

Definition classify : string → option (string * string) :=
  classify_with language_patterns.

(** Lines 194-213: the files of one folder grouped by base name. *)
Definition group_step (folder_path : path) (file_groups : gmap string (gmap string path))
    (name : string) : gmap string (gmap string path) :=
  if String.prefix "~" name then file_groups
  else match classify name with
       | Some (lang_found, base_name) =>
           if decide (base_name = "") then file_groups
           else <[base_name :=
                    <[lang_found := folder_path /: name]>
                      (default ∅ (file_groups !! base_name))]> file_groups
       | None => file_groups
       end.

Definition group_files (folder_path : path) (names : list string)
    : gmap string (gmap string path) :=
  foldl (group_step folder_path) ∅ names.

(** Lines 215-219: only the groups with five languages are kept. *)
Definition complete_sets (file_groups : gmap string (gmap string path))
    : gmap string (gmap string path) :=
  filter (λ kv, size kv.2 = 5) file_groups.

Definition discover_folder (fs : gmap path fnode) (folder_path : path)
    : gmap string (gmap string path) :=
  complete_sets (group_files folder_path (glob_ext fs folder_path ".docx")).

Definition discover_document_sets (fs : gmap path fnode) (base_path : path)
    : gmap string (gmap string (gmap string path)) :=
  foldl (λ all_sets folder_name,
           let folder_path := base_path /: folder_name in
           if path_exists fs folder_path then
             let found := discover_folder fs folder_path in
             if decide (found = ∅) then all_sets
             else <[folder_name := found]> all_sets
           else all_sets)
        ∅ folders.

(** *** The batch driver *)

(** Lines 264-275: one document set, inside [try] / [except Exception]. *)
Definition process_guarded (output_base discarded_base : path) (folder_name : string)
    (st : nat * nat * nat) (doc : string * gmap string path) : io (nat * nat * nat) :=
  let '(doc_counter, successful, failed) := st in
  let doc_counter := doc_counter + 1 in
  try_except
    (process_document_set doc.2 output_base discarded_base folder_name doc.1 ;;
     ret (doc_counter, successful + 1, failed))
    (λ e,
       print (EvErrorProcessing doc.1 e) ;;
       ret (doc_counter, successful, failed + 1)).

(** Lines 255-275: folders in sorted order, documents in sorted order. *)
Definition process_all (all_sets : gmap string (gmap string (gmap string path)))
    (output_base discarded_base : path) (total_docs : nat) : io (nat * nat * nat) :=
  fold_io (sorted_items all_sets) (0, 0, 0)
    (λ st folder,
       fold_io (sorted_items folder.2) st
         (λ st doc,
            print (EvHeader (S st.1.1) total_docs folder.1 doc.1) ;;
            process_guarded output_base discarded_base folder.1 st doc)).

Definition main (base_path output_base discarded_base : path) : io (nat * nat * nat) :=
  fs <- get_files ;;
  let all_sets := discover_document_sets fs base_path in
  let total_docs := sum_list (size <$> values all_sets) in
  print (EvFound total_docs (size all_sets)) ;;
  st <- process_all all_sets output_base discarded_base total_docs ;;
  print (EvComplete total_docs st.1.2 st.2) ;;
  ret st.

(** The paths of the script: [Path(__file__).parent] is the root. *)
Definition original_texts : path := ["original_texts"].
Definition extracted_paragraphs : path := ["extracted_paragraphs"].
Definition discarded_texts : path := extracted_paragraphs /: "discarded_texts".

Definition main_script : io (nat * nat * nat) :=
  main original_texts extracted_paragraphs discarded_texts.

(** ** Stage 2: [02_consolidate_parallel_texts.py] *)

Definition LANG_MAPPING : list (string * string) :=
  [ ("castellano", "es"); ("ca_ES", "ca"); ("va_ES", "va");
    ("ga_ES", "ga"); ("eu_ES", "eu") ].

(** [d.get(key)] on a dictionary literal. *)
Fixpoint dict_get {V} (d : list (string * V)) (key : string) : option V :=
  match d with
  | [] => None
  | (k, v) :: rest => if decide (k = key) then Some v else dict_get rest key
  end.

(** [LANG_MAPPING.get(key)] *)
Definition LANG_MAPPING_get (key : string) : option string :=
  dict_get LANG_MAPPING key.

(** [LANG_MAPPING.values()] *)
Definition LANG_MAPPING_values : list string := LANG_MAPPING.*2.

(** [lang_file.stem] of a name that ends in [.txt]: the name without that
    suffix, unless nothing would be left. *)
Definition stem (name : string) : string :=
  match strip_suffix ".txt" name with
  | Some EmptyString => name
  | Some s => s
  | None => name
  end.

Definition nonblank (line : Py.str) : bool := Py.truthy (Py.strip line).

(** Lines 64-65: [[line.rstrip('\n') for line in f if line.strip()]] *)
Definition read_paragraphs (lang_file : path) : io (list Py.str) :=
  content <- read_text lang_file ;;
  ret (Py.rstrip_nl <$> filter (λ line, Is_true (nonblank line)) (Py.iter_lines content)).

(** Lines 56-68: the language files of one document, in the order [glob]
    yields them; the state is [(doc_paragraphs, paragraph_count)]. *)
Definition read_document (doc_dir : path) (txt_names : list string)
    : io (gmap string (list Py.str) * nat) :=
  fold_io txt_names (∅, 0)
    (λ st name,
       match LANG_MAPPING_get (stem name) with
       | Some lang_code =>
           paragraphs <- read_paragraphs (doc_dir /: name) ;;
           ret (<[lang_code := paragraphs]> st.1,
                if decide (st.2 = 0) then length paragraphs else st.2)
       | None => ret st
       end).

(** [set(counts.values())] *)
Definition distinct_counts (counts : gmap string nat) : gset nat :=
  list_to_set (values counts).

(** Lines 70-79: the counts are compared and, when they differ, every list
    is cut to the least of them. *)
Definition align_document (doc_name : string) (st : gmap string (list Py.str) * nat)
    : io (gmap string (list Py.str) * nat) :=
  let counts := length <$> st.1 in
  if decide (1 < size (distinct_counts counts)) then
    print (EvWarnMismatch doc_name counts) ;;
    min_count <- py_min (values counts) ;;
    ret (take min_count <$> st.1, min_count)
  else ret st.

(** Lines 82-89: the lines of the document go to the master streams. *)
Definition write_document (output_dir : path) (doc_name : string)
    (st : gmap string (list Py.str) * nat) (total_paragraphs : nat) : io nat :=
  if decide (st.1 ≠ ∅ ∧ 0 < st.2) then
    for_ LANG_MAPPING_values
      (λ lang_code,
         match st.1 !! lang_code with
         | Some paragraphs =>
             for_ paragraphs
               (λ paragraph,
                  stream_write (output_dir /: txt lang_code) (paragraph ++ [Py.LF]))
         | None => ret tt
         end) ;;
    print (EvDocDone doc_name st.2) ;;
    ret (total_paragraphs + st.2)
  else ret total_paragraphs.

(** Lines 52-89: one document directory. *)
Definition consolidate_document (output_dir doc_dir : path) (doc_name : string)
    (txt_names : list string) (total_paragraphs : nat) : io nat :=
  st <- read_document doc_dir txt_names ;;
  st <- align_document doc_name st ;;
  write_document output_dir doc_name st total_paragraphs.

(** Lines 48-89: the documents of one folder, in sorted order; the state is
    [(total_paragraphs, document_count)]. *)
Definition consolidate_folder (output_dir folder : path) (st : nat * nat)
    : io (nat * nat) :=
  entries <- iterdir folder ;;
  fold_io (sorted entries) st
    (λ st doc_name,
       fs <- get_files ;;
       let doc_dir := folder /: doc_name in
       if is_dir fs doc_dir then
         total <- consolidate_document output_dir doc_dir doc_name
                    (glob_ext fs doc_dir ".txt") st.1 ;;
         ret (total, S st.2)
       else ret st).

(** [sum(1 for line in open(p) if line.strip())] *)
Definition count_lines (p : path) : io nat :=
  content <- read_text p ;;
  ret (length (filter (λ line, Is_true (nonblank line)) (Py.iter_lines content))).

(** Lines 104-124: the closing report and the check of the line counts. *)
Definition report_line_counts (output_dir : path) : io unit :=
  for_ (sorted LANG_MAPPING_values)
    (λ lang_code,
       fs <- get_files ;;
       if path_exists fs (output_dir /: txt lang_code) then
         line_count <- count_lines (output_dir /: txt lang_code) ;;
         print (EvFileLines lang_code line_count)
       else ret tt) ;;
  line_counts <- fold_io LANG_MAPPING_values (∅ : gmap string nat)
    (λ line_counts lang_code,
       fs <- get_files ;;
       if path_exists fs (output_dir /: txt lang_code) then
         line_count <- count_lines (output_dir /: txt lang_code) ;;
         ret (<[lang_code := line_count]> line_counts)
       else ret line_counts) ;;
  if decide (size (distinct_counts line_counts) = 1) then
    print (EvAlignmentVerified (head (values line_counts)))
  else print (EvLineCountMismatch line_counts).

Definition consolidate_parallel_texts (extracted_dir output_dir : path) : io unit :=
  mkdir_parents output_dir ;;
  for_ LANG_MAPPING_values
    (λ lang_code, write_text (output_dir /: txt lang_code) []) ;;
  entries <- iterdir extracted_dir ;;
  st <- fold_io (sorted entries) (0, 0)
    (λ st folder_name,
       fs <- get_files ;;
       let folder := extracted_dir /: folder_name in
       if negb (is_dir fs folder) || String.prefix "." folder_name
          || bool_decide (folder_name = "discarded_texts")
       then ret st
       else print (EvFolder folder_name) ;;
            consolidate_folder output_dir folder st) ;;
  print (EvStatistics st.2 st.1) ;;
  report_line_counts output_dir.

(** The script names its two directories by absolute paths, both directly
    under one directory [eval_ALIA].  The root of the model is that
    directory, where the scripts of stages 1 and 3 lie when the three
    stages work on one tree. *)
Definition evaluation_data_paragraphs : path := ["evaluation_data_paragraphs"].

Definition consolidate_script : io unit :=
  consolidate_parallel_texts extracted_paragraphs evaluation_data_paragraphs.

(** ** Stage 3: [03_verify_paragraph_counts.py] *)

Definition verify_folders : list string :=
  ["Actualidad"; "Consejo de Ministros"; "Gobierno XV"; "Presidente"].

Definition languages : list string :=
  ["castellano"; "ca_ES"; "vl_ES"; "gl_ES"; "eu_ES"].

(** [count_paragraphs]: the non-empty lines, after stripping. *)
Definition count_paragraphs (file_path : path) : io nat :=
  content <- read_text file_path ;;
  let lines := Py.strip <$> filter (λ line, Is_true (nonblank line)) (Py.split_nl content) in
  ret (length lines).

(** Lines 49-54: the counts of the language files that exist. *)
Definition collect_counts (doc_dir : path) : io (gmap string nat) :=
  fold_io languages (∅ : gmap string nat)
    (λ counts lang,
       fs <- get_files ;;
       let lang_file := doc_dir /: txt lang in
       if path_exists fs lang_file then
         n <- count_paragraphs lang_file ;;
         print (EvLangCount lang n) ;;
         ret (<[lang := n]> counts)
       else ret counts).

(** Lines 44-62: one document; the result says whether it passed. *)
Definition verify_document (doc_dir : path) (doc_name : string) : io bool :=
  print (EvVerifyDoc doc_name) ;;
  counts <- collect_counts doc_dir ;;
  let unique_counts := distinct_counts counts in
  if decide (size unique_counts = 1) then
    print (EvAllLanguagesHave unique_counts) ;; ret true
  else
    print (EvMismatch unique_counts) ;; ret false.

(** Lines 32-62: one folder; the state is [(all_ok, total_docs)]. *)
Definition verify_folder (base_path : path) (st : bool * nat) (folder_name : string)
    : io (bool * nat) :=
  fs <- get_files ;;
  let folder_path := base_path /: folder_name in
  if path_exists fs folder_path then
    print (EvVerifyFolder folder_name) ;;
    entries <- iterdir folder_path ;;
    let doc_dirs := sorted (filter (λ d, Is_true (is_dir fs (folder_path /: d))) entries) in
    fold_io doc_dirs st
      (λ st doc_name,
         passed <- verify_document (folder_path /: doc_name) doc_name ;;
         ret (if passed then st.1 else false, S st.2))
  else ret st.

Definition verify_all_documents (base_path : path) : io bool :=
  st <- fold_io verify_folders (true, 0) (verify_folder base_path) ;;
  print (EvSummary st.2 st.1) ;;
  ret st.1.

Definition verify_script : io bool := verify_all_documents extracted_paragraphs.

(** * Vocabulary of the properties *)

(** ** Extractor *)

Definition all_space (s : Py.str) : Prop := Forall (λ c, Py.isspace c = true) s.

Definition no_space_at_ends (s : Py.str) : Prop :=
  (∀ c, head s = Some c → Py.isspace c = false)
  ∧ (∀ c, last s = Some c → Py.isspace c = false).

(** [t] is [s] with its leading and trailing whitespace removed. *)
Definition stripped_of (s t : Py.str) : Prop :=
  ∃ l r, s = l ++ t ++ r ∧ all_space l ∧ all_space r ∧ no_space_at_ends t.

(** The paragraph sequence in the words of the contract: the body texts in
    order, each stripped, the empty ones dropped. *)
Definition stripped_body (doc : document) : list Py.str :=
  filter (λ t, t ≠ []) (Py.strip <$> paragraphs doc).

(** The relationships that reference image content. *)
Definition image_rels (doc : document) : list Py.str :=
  filter (λ target_ref,
            Is_true (Py.contains (Py.lit "image") (Py.lower target_ref)))
         (rels doc).

(** The header and footer paragraphs of the whole document: those of every
    section. *)
Definition document_header_paragraphs (doc : document) : list Py.str :=
  concat (header_paragraphs <$> sections doc).

Definition document_footer_paragraphs (doc : document) : list Py.str :=
  concat (footer_paragraphs <$> sections doc).

(** Those of the first section only; none without a section. *)
Definition first_section_headers (doc : document) : list Py.str :=
  from_option header_paragraphs [] (head (sections doc)).

Definition first_section_footers (doc : document) : list Py.str :=
  from_option footer_paragraphs [] (head (sections doc)).

(** A document of two sections, each with a header and a footer of its own. *)
Definition two_section_document : document := {|
  rels := [Py.lit "media/image1.png"; Py.lit "styles.xml"];
  tables := [];
  sections := [
    {| header_paragraphs := [Py.lit "Part one"];
       footer_paragraphs := [Py.lit "page"] |};
    {| header_paragraphs := [Py.lit "Part two"; Py.lit "Annex"];
       footer_paragraphs := [Py.lit "page"; Py.lit "draft"] |} ];
  paragraphs := [Py.lit "  Body text "; Py.lit "   "; Py.lit "End"]
|}.

(** ** Discovery *)

(** The five language codes of stage 1. *)
Definition stage1_languages : list string := language_patterns.*1.

(** The names of a listing that Discovery assigns to [base_name]: not a
    temporary file, and classified under that base name. *)
Definition matched_files (names : list string) (base_name : string) : list string :=
  filter (λ name, String.prefix "~" name = false
                  ∧ snd <$> classify name = Some base_name) names.

(** The language files discovered for a document of a folder, if any. *)
Definition discovered (fs : gmap path fnode) (base_path : path)
    (folder_name base_name : string) : option (gmap string path) :=
  discover_document_sets fs base_path !! folder_name ≫= λ doc_sets, doc_sets !! base_name.

(** A folder with two of the five language versions of [doc]. *)
Definition partial_inputs : gmap path fnode :=
  list_to_map [
    (original_texts, DirN);
    (original_texts /: "Presidente", DirN);
    (original_texts /: "Presidente" /: "doc_castellano.docx",
      DocxN {| rels := []; tables := []; sections := [];
               paragraphs := [Py.lit "Hola"] |});
    (original_texts /: "Presidente" /: "doc_ca-ES.docx",
      DocxN {| rels := []; tables := []; sections := [];
               paragraphs := [Py.lit "Hola"] |}) ].

(** What the grouping loop has collected after a listing: every entry comes
    from a classified file of the listing, and a group has at most as many
    languages as the listing has files matched to its base name. *)
Definition groups_from (folder_path : path) (names : list string)
    (file_groups : gmap string (gmap string path)) : Prop :=
  ∀ base_name lang_files, file_groups !! base_name = Some lang_files →
    size lang_files ≤ length (matched_files names base_name)
    ∧ ∀ lang p, lang_files !! lang = Some p →
        ∃ name, name ∈ names ∧ String.prefix "~" name = false
                ∧ classify name = Some (lang, base_name)
                ∧ p = folder_path /: name.

(** ** The monad *)

(** A computation that leaves every file as it was, also when it raises. *)
Definition read_only {A} (m : io A) : Prop := ∀ w, files (m w).2 = files w.

(** ** Verifier *)

(** The number of non-blank lines of a text file, as [count_paragraphs]
    reads it. *)
Definition text_count (content : Py.str) : nat :=
  length (filter (λ line, Is_true (nonblank line))
            (Py.split_nl (Py.universal_newlines content))).

(** The count of the file of [lang] in a document directory, when that file
    is there. *)
Definition lang_count (fs : gmap path fnode) (doc_dir : path) (lang : string)
    : option nat :=
  match fs !! (doc_dir /: txt lang) with
  | Some (TextN content) => Some (text_count content)
  | _ => None
  end.

(** The entry of a language is a text file or is missing. *)
Definition text_or_absent (fs : gmap path fnode) (p : path) : Prop :=
  fs !! p = None ∨ ∃ content, fs !! p = Some (TextN content).

(** All five language files are there, with one and the same count. *)
Definition five_counts_equal (fs : gmap path fnode) (doc_dir : path) : Prop :=
  ∃ n, ∀ lang, lang ∈ languages → lang_count fs doc_dir lang = Some n.

(** At least one language file is there, and those that are there have one
    and the same count. *)
Definition present_counts_agree (fs : gmap path fnode) (doc_dir : path) : Prop :=
  ∃ n, (∃ lang, lang ∈ languages ∧ lang_count fs doc_dir lang = Some n)
       ∧ ∀ lang k, lang ∈ languages → lang_count fs doc_dir lang = Some k → k = n.

(** The counts dictionary of a document: the languages whose file is there. *)
Definition present_counts (fs : gmap path fnode) (doc_dir : path)
    (langs : list string) : gmap string nat :=
  list_to_map (omap (λ lang, pair lang <$> lang_count fs doc_dir lang) langs).

Definition doc_passes (fs : gmap path fnode) (doc_dir : path) : bool :=
  bool_decide (size (distinct_counts (present_counts fs doc_dir languages)) = 1).

(** The document directories the Verifier visits: the subdirectories of the
    four folders. *)
Definition is_document (fs : gmap path fnode) (base_path doc_dir : path) : Prop :=
  ∃ folder_name doc_name,
    folder_name ∈ verify_folders
    ∧ path_exists fs (base_path /: folder_name) = true
    ∧ is_dir fs (base_path /: folder_name /: doc_name) = true
    ∧ doc_dir = base_path /: folder_name /: doc_name.

(** What the Verifier needs to run to its end: each of the four folders
    that exists is a directory, and in every document directory the entry
    of each language is a text file or is missing. *)
Definition verifiable (fs : gmap path fnode) (base_path : path) : Prop :=
  (∀ folder_name, folder_name ∈ verify_folders →
     path_exists fs (base_path /: folder_name) = true →
     is_dir fs (base_path /: folder_name) = true)
  ∧ ∀ doc_dir lang, is_document fs base_path doc_dir → lang ∈ languages →
      text_or_absent fs (doc_dir /: txt lang).

(** The tree is complete: each of the four folders that exists is a
    directory, and every document directory holds the five language files
    as text files. *)
Definition complete_tree (fs : gmap path fnode) (base_path : path) : Prop :=
  (∀ folder_name, folder_name ∈ verify_folders →
     path_exists fs (base_path /: folder_name) = true →
     is_dir fs (base_path /: folder_name) = true)
  ∧ ∀ doc_dir lang, is_document fs base_path doc_dir → lang ∈ languages →
      is_Some (lang_count fs doc_dir lang).

(** Decision procedures for [verifiable] and [complete_tree] on a given
    tree. *)
Definition check_documents (ok : gmap path fnode → path → bool)
    (fs : gmap path fnode) (base_path : path) : bool :=
  forallb
    (λ folder_name,
       let folder_path := base_path /: folder_name in
       negb (path_exists fs folder_path)
       || is_dir fs folder_path
          && forallb
               (λ doc_name,
                  negb (is_dir fs (folder_path /: doc_name))
                  || forallb (λ lang, ok fs (folder_path /: doc_name /: txt lang))
                       languages)
               (listdir fs folder_path))
    verify_folders.

Definition text_or_absent_b (fs : gmap path fnode) (p : path) : bool :=
  match fs !! p with
  | None | Some (TextN _) => true
  | _ => false
  end.

Definition text_b (fs : gmap path fnode) (p : path) : bool :=
  match fs !! p with
  | Some (TextN _) => true
  | _ => false
  end.

(** ** The scenario of the specification

    Two documents of one folder: [acto] with three paragraphs in every
    language, [nota] with four in Castilian and three in the others. *)

Definition docx (paras : list string) : fnode :=
  DocxN {| rels := []; tables := []; sections := [];
           paragraphs := Py.lit <$> paras |}.

Definition scenario_inputs : gmap path fnode :=
  let folder := original_texts /: "Presidente" in
  list_to_map [
    (original_texts, DirN);
    (folder, DirN);
    (folder /: "acto_castellano.docx", docx ["Uno"; "Dos"; "Tres"]);
    (folder /: "acto_ca-ES.docx", docx ["Un"; "Dos"; "Tres"]);
    (folder /: "acto_ca-ES-valencia.docx", docx ["U"; "Dos"; "Tres"]);
    (folder /: "acto_gl-ES.docx", docx ["Un"; "Dous"; "Tres"]);
    (folder /: "acto_eu-ES.docx", docx ["Bat"; "Bi"; "Hiru"]);
    (folder /: "nota_castellano.docx", docx ["Uno"; " Dos "; "  "; "Tres"; "Cuatro"]);
    (folder /: "nota_ca-ES.docx", docx ["Un"; "Dos"; "Tres"]);
    (folder /: "nota_ca-ES-valencia.docx", docx ["U"; "Dos"; "Tres"]);
    (folder /: "nota_gl-ES.docx", docx ["Un"; "Dous"; "Tres"]);
    (folder /: "nota_eu-ES.docx", docx ["Bat"; "Bi"; "Hiru"]) ].

Definition scenario_world : world := {| files := scenario_inputs; stdout := [] |}.

(** The world after stage 1 has run on the scenario. *)
Definition aligned_world : world := (main_script scenario_world).2.

(** A tree with a document directory that holds two of the language files,
    with equal counts, and one that holds none of them. *)
Definition partial_tree : gmap path fnode :=
  let folder := extracted_paragraphs /: "Actualidad" in
  list_to_map [
    (extracted_paragraphs, DirN);
    (folder, DirN);
    (folder /: "aviso", DirN);
    (folder /: "aviso" /: "castellano.txt", TextN (Py.lit "Uno" ++ para_sep ++ Py.lit "Dos"));
    (folder /: "aviso" /: "eu_ES.txt", TextN (Py.lit "Bat" ++ para_sep ++ Py.lit "Bi"));
    (folder /: "vacio", DirN);
    (folder /: "vacio" /: "notes.md", TextN (Py.lit "nothing here")) ].

Definition partial_world : world := {| files := partial_tree; stdout := [] |}.

(** ** The batch drivers *)

(** A computation that only adds to standard output. *)
Definition appends_output {A} (m : io A) : Prop :=
  ∀ w, ∃ out, stdout (m w).2 = stdout w ++ out.

(** The number of document sets of a discovery result ([total_docs]). *)
Definition n_docs (all_sets : gmap string (gmap string (gmap string path))) : nat :=
  sum_list (size <$> values all_sets).

(** An aligned tree with two documents; in the first, the entry
    [castellano.txt] is a directory, which cannot be read as a file. *)
Definition broken_tree : gmap path fnode :=
  let folder := extracted_paragraphs /: "Presidente" in
  list_to_map [
    (extracted_paragraphs, DirN);
    (folder, DirN);
    (folder /: "acto", DirN);
    (folder /: "acto" /: "castellano.txt", DirN);
    (folder /: "acto" /: "ca_ES.txt", TextN (Py.lit "Un"));
    (folder /: "nota", DirN);
    (folder /: "nota" /: "castellano.txt", TextN (Py.lit "Uno"));
    (folder /: "nota" /: "ca_ES.txt", TextN (Py.lit "Un"));
    (folder /: "nota" /: "vl_ES.txt", TextN (Py.lit "U"));
    (folder /: "nota" /: "gl_ES.txt", TextN (Py.lit "Un"));
    (folder /: "nota" /: "eu_ES.txt", TextN (Py.lit "Bat")) ].

Definition broken_world : world := {| files := broken_tree; stdout := [] |}.

(** Inputs of stage 1 with two complete document sets, the first of which
    has a language version that is not a package. *)
Definition unparseable_inputs : gmap path fnode :=
  let folder := original_texts /: "Presidente" in
  list_to_map [
    (original_texts, DirN);
    (folder, DirN);
    (folder /: "acto_castellano.docx", TextN (Py.lit "not a package"));
    (folder /: "acto_ca-ES.docx", docx ["Un"]);
    (folder /: "acto_ca-ES-valencia.docx", docx ["U"]);
    (folder /: "acto_gl-ES.docx", docx ["Un"]);
    (folder /: "acto_eu-ES.docx", docx ["Bat"]);
    (folder /: "nota_castellano.docx", docx ["Uno"]);
    (folder /: "nota_ca-ES.docx", docx ["Un"]);
    (folder /: "nota_ca-ES-valencia.docx", docx ["U"]);
    (folder /: "nota_gl-ES.docx", docx ["Un"]);
    (folder /: "nota_eu-ES.docx", docx ["Bat"]) ].

Definition unparseable_world : world :=
  {| files := unparseable_inputs; stdout := [] |}.

(** ** Aligner/Writer *)

(** The steps the Aligner/Writer takes on the file system and on standard
    output, as data. *)
Inductive action :=
| AMkdir (p : path)
| AWrite (p : path) (content : Py.str)
| APrint (ev : event).

Definition run_action (a : action) : io unit :=
  match a with
  | AMkdir p => mkdir_parents p
  | AWrite p content => write_text p content
  | APrint ev => print ev
  end.

Definition run_actions (plan : list action) : io unit := for_ plan run_action.

Definition discard_actions (discarded_folder : path) (min_count : nat)
    (item : string * list Py.str) : list action :=
  if decide (min_count < length item.2) then
    [ AMkdir discarded_folder;
      AWrite (discarded_folder /: txt item.1) (Py.join para_sep (drop min_count item.2));
      APrint (EvDiscarded item.1 (length item.2 - min_count)
                (discarded_folder /: txt item.1)) ]
  else [].

Definition save_actions (output_folder : path) (item : string * list Py.str)
    : list action :=
  [ AWrite (output_folder /: txt item.1) (Py.join para_sep item.2);
    APrint (EvSaved item.1 (output_folder /: txt item.1) (length item.2)) ].

(** The steps of [align_and_write] once the least and the greatest count are
    known. *)
Definition align_plan (all_paragraphs : gmap string (list Py.str))
    (output_base discarded_base : path) (folder_name doc_name : string)
    (min_count max_count : nat) : list action :=
  ((λ item, APrint (EvCount item.1 item.2)) <$> sorted_items (length <$> all_paragraphs))
  ++ (if decide (min_count ≠ max_count) then
        APrint (EvCountsDiffer min_count max_count)
        :: (sorted_items all_paragraphs ≫= discard_actions (discarded_base /: doc_name) min_count)
      else [APrint (EvAllSame min_count)])
  ++ (AMkdir (output_base /: folder_name /: doc_name)
      :: (sorted_items (take min_count <$> all_paragraphs)
            ≫= save_actions (output_base /: folder_name /: doc_name)))
  ++ [APrint (EvAllOutput min_count)].

(** What a step leaves in the tree, and what a plan leaves: the later step
    wins. *)
Definition action_effect (a : action) : gmap path fnode :=
  match a with
  | AMkdir p => foldl (λ fs q, <[q := DirN]> fs) ∅ (prefixes p)
  | AWrite p content => {[ p := TextN content ]}
  | APrint _ => ∅
  end.

Fixpoint plan_effect (plan : list action) : gmap path fnode :=
  match plan with
  | [] => ∅
  | a :: rest => plan_effect rest ∪ action_effect a
  end.

(** The directories a plan makes and the files it writes. *)
Definition plan_dirs (plan : list action) : list path :=
  plan ≫= λ a, match a with AMkdir p => prefixes p | _ => [] end.

Definition plan_targets (plan : list action) : list path :=
  plan ≫= λ a, match a with AWrite p _ => [p] | _ => [] end.

(** Every file of the plan is written into the root or into a directory
    that the plan has made before. *)
Fixpoint ready_from (made : list path) (plan : list action) : Prop :=
  match plan with
  | [] => True
  | AMkdir p :: rest => ready_from (prefixes p ++ made) rest
  | AWrite p _ :: rest => (parent p = [] ∨ parent p ∈ made) ∧ ready_from made rest
  | APrint _ :: rest => ready_from made rest
  end.

(** The tree lets the plan run: nothing that the plan needs as a directory
    is a file, and nothing that it writes is a directory. *)
Definition admits (fs : gmap path fnode) (plan : list action) : Prop :=
  Forall (λ q, is_file fs q = false) (plan_dirs plan)
  ∧ Forall (λ t, is_dir fs t = false) (plan_targets plan).

(** The same for the Aligner/Writer with the layout of the driver, where the
    discard area is [output_base / 'discarded_texts']: on the way to the two
    folders of the document there is no file, and none of the language
    files to write is a directory. *)
Definition writable (fs : gmap path fnode) (output_base : path)
    (folder_name doc_name : string) (langs : list string) : Prop :=
  Forall (λ q, is_file fs q = false)
    (prefixes (output_base /: folder_name /: doc_name)
     ++ prefixes (output_base /: "discarded_texts" /: doc_name))
  ∧ Forall (λ lang,
              is_dir fs (output_base /: folder_name /: doc_name /: txt lang) = false
              ∧ is_dir fs (output_base /: "discarded_texts" /: doc_name /: txt lang)
                = false) langs.

(** The least of the counts of a document set. *)
Definition least_count (all_paragraphs : gmap string (list Py.str)) : option nat :=
  min_of (values (length <$> all_paragraphs)).

Definition greatest_count (all_paragraphs : gmap string (list Py.str)) : option nat :=
  max_of (values (length <$> all_paragraphs)).

(** The five paragraph sequences of [nota] in the scenario, as extracted. *)
Definition nota_paragraphs : gmap string (list Py.str) :=
  list_to_map [
    ("castellano", Py.lit <$> ["Uno"; "Dos"; "Tres"; "Cuatro"]);
    ("ca_ES", Py.lit <$> ["Un"; "Dos"; "Tres"]);
    ("vl_ES", Py.lit <$> ["U"; "Dos"; "Tres"]);
    ("gl_ES", Py.lit <$> ["Un"; "Dous"; "Tres"]);
    ("eu_ES", Py.lit <$> ["Bat"; "Bi"; "Hiru"]) ].


(** An empty output area. *)
Definition fresh_world : world := {| files := ∅; stdout := [] |}.

(** ** Consolidator *)

(** The paragraphs the Consolidator reads from a text file: its non-blank
    lines, without the line feed. *)
Definition text_paragraphs (content : Py.str) : list Py.str :=
  Py.rstrip_nl <$> filter (λ line, Is_true (nonblank line))
                     (Py.iter_lines (Py.universal_newlines content)).

(** The text of a list of paragraphs written one per line. *)
Definition as_lines (paragraphs : list Py.str) : Py.str :=
  paragraphs ≫= λ paragraph, paragraph ++ [Py.LF].

(** The counts of the lists of a document differ. *)
Definition counts_differ (doc_paragraphs : gmap string (list Py.str)) : Prop :=
  ∃ lang1 ps1 lang2 ps2,
    doc_paragraphs !! lang1 = Some ps1 ∧ doc_paragraphs !! lang2 = Some ps2
    ∧ length ps1 ≠ length ps2.

(** The world in which the Consolidator meets the first document of the
    scenario, were the language files named by the keys of [LANG_MAPPING]:
    the five master streams are open and empty. *)
Definition consolidator_world : world := {|
  files :=
    let doc := extracted_paragraphs /: "Presidente" /: "nota" in
    list_to_map [
      (extracted_paragraphs, DirN);
      (extracted_paragraphs /: "Presidente", DirN);
      (doc, DirN);
      (doc /: "castellano.txt",
        TextN (Py.join para_sep (Py.lit <$> ["Uno"; "Dos"; "Tres"; "Cuatro"])));
      (doc /: "ca_ES.txt", TextN (Py.join para_sep (Py.lit <$> ["Un"; "Dos"; "Tres"])));
      (doc /: "va_ES.txt", TextN (Py.join para_sep (Py.lit <$> ["U"; "Dos"; "Tres"])));
      (doc /: "ga_ES.txt", TextN (Py.join para_sep (Py.lit <$> ["Un"; "Dous"; "Tres"])));
      (doc /: "eu_ES.txt", TextN (Py.join para_sep (Py.lit <$> ["Bat"; "Bi"; "Hiru"])));
      (evaluation_data_paragraphs, DirN);
      (evaluation_data_paragraphs /: "es.txt", TextN []);
      (evaluation_data_paragraphs /: "ca.txt", TextN []);
      (evaluation_data_paragraphs /: "va.txt", TextN []);
      (evaluation_data_paragraphs /: "ga.txt", TextN []);
      (evaluation_data_paragraphs /: "eu.txt", TextN []) ];
  stdout := []
|}.

(** ** Text files across the stages *)

(** A paragraph that takes one line of a text file: it is not blank and it
    holds neither a line feed nor a carriage return. *)
Definition one_line (p : Py.str) : Prop :=
  nonblank p = true ∧ Forall (λ c, c ≠ Py.LF ∧ c ≠ Py.CR) p.

(** The same as a test. *)
Definition one_line_b (p : Py.str) : bool :=
  nonblank p && forallb (λ c, negb (c =? Py.LF)%N && negb (c =? Py.CR)%N) p.

(** A small output area with one directory. *)
Definition notes_world : world :=
  {| files := {[ ["notes"] := DirN ]}; stdout := [] |}.

(** The lines a text file is iterated in, from the pieces between its line
    feeds: every piece but the last ends a line, the last one is a line
    when it is not empty. *)
Fixpoint lines_of_pieces (pieces : list Py.str) : list Py.str :=
  match pieces with
  | [] => []
  | l :: rest =>
      match rest with
      | [] => match l with [] => [] | _ :: _ => [l] end
      | _ :: _ => (l ++ [Py.LF]) :: lines_of_pieces rest
      end
  end.

(** [no_space_at_ends] as a test. *)
Definition no_space_at_ends_b (s : Py.str) : bool :=
  from_option (λ c, negb (Py.isspace c)) true (head s)
  && from_option (λ c, negb (Py.isspace c)) true (last s).

(** ** File names of Discovery *)

(** The spellings by which a file name tells the language [lang_code]: the
    alternatives of its pattern. *)
Definition spellings (lang_code : string) : list string :=
  default [] (dict_get language_patterns lang_code).

(** The name of a language version: base name, separator, spelling of the
    language and extension. *)
Definition version_name (base_name : string) (sep : ascii) (spelling : string)
    : string :=
  base_name +:+ String sep (spelling +:+ ".docx").

(** The endings of the names of language versions, each with its language
    code. *)
Definition version_endings : list (string * list ascii) :=
  ["_"; "-"]%char ≫= λ sep,
  language_patterns ≫= λ pattern,
  (λ spelling, (pattern.1, sep :: list_ascii_of_string (spelling +:+ ".docx")))
    <$> pattern.2.

(** What the grouping loop has not missed after a listing: every file of
    the listing that is not temporary and is classified under a base name
    has its language in the group of that base name; and no group has the
    empty base name. *)
Definition groups_cover (names : list string)
    (file_groups : gmap string (gmap string path)) : Prop :=
  file_groups !! "" = None
  ∧ ∀ name lang_code base_name,
      name ∈ names → String.prefix "~" name = false →
      classify name = Some (lang_code, base_name) → base_name ≠ "" →
      ∃ lang_files, file_groups !! base_name = Some lang_files
                    ∧ is_Some (lang_files !! lang_code).

(** Five language versions of [doc], one of them under a second spelling
    too, and a temporary file. *)
Definition spelled_inputs : gmap path fnode :=
  let folder := original_texts /: "Actualidad" in
  list_to_map [
    (original_texts, DirN);
    (folder, DirN);
    (folder /: "doc_castellano.docx", docx ["Hola"]);
    (folder /: "doc-ca_ES.docx", docx ["Hola"]);
    (folder /: "doc_va_ES.docx", docx ["Hola"]);
    (folder /: "doc_ga_ES.docx", docx ["Ola"]);
    (folder /: "doc_gl-ES.docx", docx ["Ola"]);
    (folder /: "doc-eu-ES.docx", docx ["Kaixo"]);
    (folder /: "~doc_castellano.docx", docx ["Hola"]) ].

(** ** What the stages leave alone *)

(** A computation that changes no entry of the tree outside [P], also when
    it raises. *)
Definition changes_only {A} (P : path → Prop) (m : io A) : Prop :=
  ∀ w q, ¬ P q → files (m w).2 !! q = files w !! q.

(** The entries under [base] and the directories on the way to it. *)
Definition towards_or_under (base : path) (q : path) : Prop :=
  q ∈ prefixes base ∨ base `prefix_of` q.

(** The master files of the Consolidator and the directories on the way to
    them. *)
Definition master_area (output_dir : path) (q : path) : Prop :=
  q ∈ prefixes output_dir
  ∨ ∃ lang_code, lang_code ∈ LANG_MAPPING_values ∧ q = output_dir /: txt lang_code.

(** ** Running the Consolidator again *)

(** The result of a computation and the tree it leaves depend on the tree
    alone, not on what was printed before. *)
Definition files_fun {A} (m : io A) : Prop :=
  ∀ w1 w2, files w1 = files w2 →
    (m w1).1 = (m w2).1 ∧ files (m w1).2 = files (m w2).2.

(** A computation that at most replaces the content of text files among
    those at the paths [M], also when it raises. *)
Definition retouches {A} (M : list path) (m : io A) : Prop :=
  ∀ w q, files (m w).2 !! q = files w !! q
         ∨ (q ∈ M ∧ ∃ c c', files w !! q = Some (TextN c)
                            ∧ files (m w).2 !! q = Some (TextN c')).

(** The paths of the master files. *)
Definition master_paths (output_dir : path) : list path :=
  (λ lang_code, output_dir /: txt lang_code) <$> LANG_MAPPING_values.

(** Lines 29-31 of the Consolidator: the master files are opened for
    writing, which empties them. *)
Definition open_masters (output_dir : path) (lang_codes : list string) : io unit :=
  for_ lang_codes (λ lang_code, write_text (output_dir /: txt lang_code) []).

(** ** Between the stages *)

(** Every paragraph of a document set takes one line. *)
Definition one_line_set_b (all_paragraphs : gmap string (list Py.str)) : bool :=
  forallb (λ item, forallb one_line_b item.2) (map_to_list all_paragraphs).

(** The document set [acto] of the inputs whose Castilian version is not a
    package. *)
Definition unparseable_set : gmap string path :=
  default ∅ (discovered unparseable_inputs original_texts "Presidente" "acto").

(** ** Edge cases of the writers *)


(** A tree with master files of an earlier consolidation and no aligned
    tree. *)
Definition stale_masters_world : world := {|
  files :=
    list_to_map [
      (evaluation_data_paragraphs, DirN);
      (evaluation_data_paragraphs /: "es.txt", TextN (as_lines (Py.lit <$> ["Uno"; "Dos"])));
      (evaluation_data_paragraphs /: "eu.txt", TextN (as_lines (Py.lit <$> ["Bat"; "Bi"]))) ];
  stdout := []
|}.



(** ** The sources of a master file *)

(** No entry of the tree has the name [name]. *)
Definition no_entry_named (fs : gmap path fnode) (name : string) : Prop :=
  ∀ p, fs !! (p /: name) = None.

(** The same as a test on the paths of the tree. *)
Definition no_entry_named_b (fs : gmap path fnode) (name : string) : bool :=
  forallb (λ entry, negb (bool_decide (last entry.1 = Some name))) (map_to_list fs).

(** ** A document set through stage 1 *)

(** The document that [python-docx] opens at a path, when a package is
    there. *)
Definition package_at (fs : gmap path fnode) (p : path) : option document :=
  match p, fs !! p with
  | _ :: _, Some (DocxN doc) => Some doc
  | _, _ => None
  end.

(** The paragraph sequences of the versions of a document set that are
    packages. *)
Definition extracted_set (fs : gmap path fnode) (doc_paths : gmap string path)
    : gmap string (list Py.str) :=
  omap (λ p, (λ doc, (DocxParagraphExtractor.extract_paragraphs doc).1)
               <$> package_at fs p) doc_paths.

(** The document set [nota] as Discovery finds it in the scenario. *)
Definition nota_set : gmap string path :=
  default ∅ (discovered scenario_inputs original_texts "Presidente" "nota").

(** ** From stage 1 to stage 3 *)

(** The shape that stage 1 keeps in its output tree, in a run that began
    with the tree [fs0]: the directories on the way to [output_base], the
    folders in it and the document folders in them are no files; the
    entries of the document folders are no directories; every document
    folder of one of the four folders holds the five language files with
    one and the same count; and every package of the tree is a package of
    [fs0]. *)
Record aligned_tree (fs0 fs : gmap path fnode) (output_base : path) : Prop := {
  way_clear : ∀ q, q ∈ prefixes output_base → is_file fs q = false;
  folders_clear : ∀ x, is_file fs (output_base /: x) = false;
  documents_clear : ∀ x y, is_file fs (output_base /: x /: y) = false;
  files_clear : ∀ x y z, is_dir fs (output_base /: x /: y /: z) = false;
  documents_aligned :
    ∀ folder_name doc_name, folder_name ∈ verify_folders →
      is_dir fs (output_base /: folder_name /: doc_name) = true →
      five_counts_equal fs (output_base /: folder_name /: doc_name);
  packages_kept :
    ∀ p doc, package_at fs p = Some doc → package_at fs0 p = Some doc
}.

(** The tree has no entry at or under [base]. *)
Definition nothing_under (fs : gmap path fnode) (base : path) : Prop :=
  ∀ q, base `prefix_of` q → fs !! q = None.

Definition nothing_under_b (fs : gmap path fnode) (base : path) : bool :=
  forallb (λ entry, negb (bool_decide (base `prefix_of` entry.1))) (map_to_list fs).

(** Every paragraph that the Extractor returns for a package of the tree
    takes one line. *)
Definition one_line_packages (fs : gmap path fnode) : Prop :=
  ∀ p doc, package_at fs p = Some doc → Forall one_line (stripped_body doc).

Definition one_line_packages_b (fs : gmap path fnode) : bool :=
  forallb (λ entry, match entry.2 with
                    | DocxN doc => forallb one_line_b (stripped_body doc)
                    | _ => true
                    end) (map_to_list fs).

(** * Properties *)

(** ** Python strings *)

Lemma lstrip_by_split f s :
  ∃ l, s = l ++ Py.lstrip_by f s
       ∧ Forall (λ c, f c = true) l
       ∧ ∀ c, head (Py.lstrip_by f s) = Some c → f c = false.
Proof.
  induction s as [|c s IH]; simpl.
  - exists []. split_and!; [done|constructor|done].
  - destruct (f c) eqn:Hc.
    + destruct IH as (l & Hs & Hl & Hh).
      exists (c :: l). split_and!; [simpl; by rewrite <- Hs|by constructor|done].
    + exists []. split_and!; [done|constructor|].
      simpl. intros ? [= <-]. done.
Qed.

Lemma rstrip_by_split f s :
  ∃ r, s = Py.rstrip_by f s ++ r
       ∧ Forall (λ c, f c = true) r
       ∧ ∀ c, last (Py.rstrip_by f s) = Some c → f c = false.
Proof.
  unfold Py.rstrip_by.
  destruct (lstrip_by_split f (reverse s)) as (l & Hs & Hl & Hh).
  exists (reverse l). split_and!.
  - rewrite <- reverse_app, <- Hs. by rewrite reverse_involutive.
  - by apply Forall_reverse.
  - intros c. rewrite last_reverse. apply Hh.
Qed.

(** [strip] removes exactly the whitespace at both ends. *)
Lemma strip_stripped_of s : stripped_of s (Py.strip s).
Proof.
  unfold stripped_of, Py.strip.
  destruct (lstrip_by_split Py.isspace s) as (l & Hs & Hl & Hh).
  destruct (rstrip_by_split Py.isspace (Py.lstrip_by Py.isspace s))
    as (r & Hs' & Hr & Hla).
  exists l, r. split_and!; [|done|done|split; [|done]].
  - by rewrite <- Hs'.
  - intros c Hc. apply Hh. rewrite Hs'.
    by destruct (Py.rstrip_by _ _).
Qed.

Lemma truthy_nonempty (s : Py.str) : Py.truthy s = true ↔ s ≠ [].
Proof. by destruct s. Qed.

(** ** Extractor *)

Lemma extract_loop (acc : list Py.str) (paras : list Py.str) :
  foldl (λ acc para,
           let text := Py.strip para in
           if Py.truthy text then acc ++ [text] else acc) acc paras
  = acc ++ filter (λ t, t ≠ []) (Py.strip <$> paras).
Proof.
  revert acc. induction paras as [|p paras IH]; intros acc; simpl.
  - by rewrite app_nil_r.
  - rewrite IH. destruct (Py.strip p) as [|c t] eqn:Hp; simpl.
    + by rewrite filter_cons_False by (intros H; by apply H).
    + rewrite filter_cons_True by done. by rewrite <- app_assoc.
Qed.

(** C4, as stated, fails on the header and footer counts: the Extractor
    looks at the first section only, so for a document whose second section
    has a header and a footer of its own it reports 1 and 1 where the
    document has 3 header and 3 footer paragraphs. *)
Lemma extract_counts_first_section_only :
  let found := (DocxParagraphExtractor.extract_paragraphs two_section_document).2 in
  headers found = 1 ∧ length (document_header_paragraphs two_section_document) = 3
  ∧ footers found = 1 ∧ length (document_footer_paragraphs two_section_document) = 3.
Proof. by vm_compute. Qed.

(** C4, amended: for every document the Extractor returns (a) the body
    texts in order, each with the whitespace at its ends removed, the empty
    ones dropped, and (b) the number of relationships whose target mentions
    an image, the number of tables, and the numbers of header and of footer
    paragraphs of the first section (0 without a section); the paragraph
    sequence depends on the body paragraphs alone, so nothing of the counted
    parts enters it. *)
Theorem extract_paragraphs_contract (doc : document) :
  let result := DocxParagraphExtractor.extract_paragraphs doc in
  result.1 = stripped_body doc
  ∧ Forall2 stripped_of
      (filter (λ p, Py.strip p ≠ []) (paragraphs doc)) result.1
  ∧ images result.2 = length (image_rels doc)
  ∧ n_tables result.2 = length (tables doc)
  ∧ headers result.2 = length (first_section_headers doc)
  ∧ footers result.2 = length (first_section_footers doc)
  ∧ ∀ doc', paragraphs doc' = paragraphs doc →
      (DocxParagraphExtractor.extract_paragraphs doc').1 = result.1.
Proof.
  unfold DocxParagraphExtractor.extract_paragraphs; simpl.
  rewrite extract_loop; simpl.
  split_and!.
  - done.
  - induction (paragraphs doc) as [|p ps IH]; simpl; [constructor|].
    destruct (decide (Py.strip p = [])) as [Hp|Hp].
    + rewrite filter_cons_False by (by intros H).
      rewrite Hp. by rewrite filter_cons_False by (by intros H).
    + rewrite !filter_cons_True by done.
      constructor; [apply strip_stripped_of|done].
  - done.
  - done.
  - unfold first_section_headers. by destruct (sections doc).
  - unfold first_section_footers. by destruct (sections doc).
  - intros doc' Hd. rewrite extract_loop. by rewrite Hd.
Qed.

(** ** Discovery *)

Lemma classify_with_lang patterns name lang base_name :
  classify_with patterns name = Some (lang, base_name) → lang ∈ patterns.*1.
Proof.
  induction patterns as [|[l alts] patterns IH]; simpl; [done|].
  destruct (re_search alts name).
  - intros [= <- _]. by left.
  - intros H. right. by apply IH.
Qed.

Lemma matched_files_snoc names name base_name :
  length (matched_files names base_name)
  ≤ length (matched_files (names ++ [name]) base_name).
Proof.
  unfold matched_files. rewrite filter_app, length_app. lia.
Qed.

Lemma groups_from_weaken folder_path names name file_groups :
  groups_from folder_path names file_groups →
  groups_from folder_path (names ++ [name]) file_groups.
Proof.
  intros H b lf Hb. destruct (H b lf Hb) as [Hs Hl]. split.
  - pose proof (matched_files_snoc names name b). lia.
  - intros lang p Hp. destruct (Hl lang p Hp) as (n & Hn & ?).
    exists n. split; [|done]. apply elem_of_app. by left.
Qed.

Lemma group_step_from folder_path names name file_groups :
  groups_from folder_path names file_groups →
  groups_from folder_path (names ++ [name]) (group_step folder_path file_groups name).
Proof.
  intros H. unfold group_step.
  destruct (String.prefix "~" name) eqn:Htmp; [by apply groups_from_weaken|].
  destruct (classify name) as [[lang_found base_name]|] eqn:Hc;
    [|by apply groups_from_weaken].
  destruct (decide (base_name = "")); [by apply groups_from_weaken|].
  intros b lf Hb.
  destruct (decide (base_name = b)) as [->|Hne].
  - rewrite lookup_insert_eq in Hb. injection Hb as <-.
    assert (Hold : size (default ∅ (file_groups !! b))
                   ≤ length (matched_files names b)
                   ∧ ∀ lang p, default ∅ (file_groups !! b) !! lang = Some p →
                       ∃ name, name ∈ names ∧ String.prefix "~" name = false
                               ∧ classify name = Some (lang, b)
                               ∧ p = folder_path /: name).
    { destruct (file_groups !! b) as [lf0|] eqn:Hlf0; simpl.
      - by apply H.
      - split; [rewrite map_size_empty; lia|]. intros ??. by rewrite lookup_empty. }
    destruct Hold as [Hs Hl]. split.
    + unfold matched_files in *. rewrite filter_app, length_app.
      rewrite filter_cons_True by (by rewrite Hc). simpl.
      rewrite map_size_insert. destruct (_ !! lang_found); simpl; lia.
    + intros lang p. rewrite lookup_insert. case_decide as Hlang.
      * intros [= <-]. subst lang. exists name. split_and!; try done.
        apply elem_of_app. right. by apply list_elem_of_singleton.
      * intros Hp. destruct (Hl lang p Hp) as (n0 & Hn & ?).
        exists n0. split; [|done]. apply elem_of_app. by left.
  - rewrite lookup_insert_ne in Hb by done.
    apply (groups_from_weaken _ _ name) in H. by apply H.
Qed.

Lemma group_files_from folder_path names :
  groups_from folder_path names (group_files folder_path names).
Proof.
  unfold group_files. induction names as [|name names IH] using rev_ind; simpl.
  - intros b lf. by rewrite lookup_empty.
  - rewrite foldl_snoc. by apply group_step_from.
Qed.

Lemma discover_document_sets_lookup fs base_path folder_name doc_sets :
  discover_document_sets fs base_path !! folder_name = Some doc_sets →
  doc_sets = discover_folder fs (base_path /: folder_name).
Proof.
  unfold discover_document_sets.
  induction folders as [|f fl IH] using rev_ind; simpl.
  - by rewrite lookup_empty.
  - rewrite foldl_snoc.
    destruct (path_exists fs (base_path /: f)); [|done].
    case_decide; [done|].
    rewrite lookup_insert. case_decide; [|done].
    intros [= <-]. by subst.
Qed.

Lemma five_languages : size (list_to_set stage1_languages : gset string) = 5.
Proof. by vm_compute. Qed.

(** C5: a base name is in the result of Discovery only with a file for each
    of the five language codes, every one a classified file of the folder;
    a base name with fewer than five matched files (so 1 to 4 of them) is
    absent from the result. *)
Theorem discovery_keeps_complete_sets_only fs base_path folder_name base_name :
  let names := glob_ext fs (base_path /: folder_name) ".docx" in
  (∀ lang_files,
     discovered fs base_path folder_name base_name = Some lang_files →
     ∀ lang, lang ∈ stage1_languages →
       ∃ name, name ∈ names ∧ classify name = Some (lang, base_name)
               ∧ lang_files !! lang = Some (base_path /: folder_name /: name))
  ∧ (length (matched_files names base_name) < 5 →
     discovered fs base_path folder_name base_name = None).
Proof.
  intros names.
  assert (Hgroup : ∀ lang_files,
    discovered fs base_path folder_name base_name = Some lang_files →
    group_files (base_path /: folder_name) names !! base_name = Some lang_files
    ∧ size lang_files = 5).
  { intros lf. unfold discovered.
    destruct (discover_document_sets fs base_path !! folder_name)
      as [doc_sets|] eqn:Hds; simpl; [|done].
    apply discover_document_sets_lookup in Hds. subst doc_sets.
    unfold discover_folder, complete_sets.
    rewrite map_lookup_filter_Some. by simpl. }
  split.
  - intros lf Hlf lang Hlang.
    destruct (Hgroup lf Hlf) as [Hg Hsize].
    destruct (group_files_from (base_path /: folder_name) names _ _ Hg) as [_ Hfrom].
    assert (Hdom : dom lf = list_to_set stage1_languages).
    { apply set_subseteq_size_eq.
      - intros l [p Hp]%elem_of_dom.
        destruct (Hfrom l p Hp) as (n & _ & _ & Hc & _).
        apply elem_of_list_to_set. by eapply classify_with_lang.
      - rewrite five_languages, size_dom. lia. }
    assert (Hin : lang ∈ dom lf) by (rewrite Hdom; by apply elem_of_list_to_set).
    apply elem_of_dom in Hin as [p Hp].
    destruct (Hfrom lang p Hp) as (n & Hn & _ & Hc & ->).
    by exists n.
  - intros Hfew.
    destruct (discovered fs base_path folder_name base_name) as [lf|] eqn:Hlf; [|done].
    destruct (Hgroup lf eq_refl) as [Hg Hsize].
    destruct (group_files_from (base_path /: folder_name) names _ _ Hg) as [Hle _].
    fold names in Hle. lia.
Qed.

(** The example of C5: with [doc_castellano.docx] and [doc_ca-ES.docx] alone
    no document set [doc] is discovered. *)
Lemma discovery_partial_set_dropped :
  length (matched_files
            (glob_ext partial_inputs (original_texts /: "Presidente") ".docx") "doc") = 2
  ∧ discovered partial_inputs original_texts "Presidente" "doc" = None.
Proof.
  split; [by vm_compute|].
  apply (discovery_keeps_complete_sets_only partial_inputs original_texts
           "Presidente" "doc").
  vm_compute. lia.
Defined.

Lemma discovery_partial_inputs_empty :
  discover_document_sets partial_inputs original_texts = ∅.
Proof. by vm_compute. Qed.

(** ** The monad *)

Lemma bind_inr {A B} (m : io A) (k : A → io B) w x w' :
  m w = (inr x, w') → bind m k w = k x w'.
Proof. unfold bind. by intros ->. Qed.

Lemma bind_inl {A B} (m : io A) (k : A → io B) w e w' :
  m w = (inl e, w') → bind m k w = (inl e, w').
Proof. unfold bind. by intros ->. Qed.

Lemma bind_inr_inv {A B} (m : io A) (k : A → io B) w y w2 :
  bind m k w = (inr y, w2) → ∃ x w1, m w = (inr x, w1) ∧ k x w1 = (inr y, w2).
Proof.
  unfold bind. destruct (m w) as [[e|x] w1]; [done|]. intros H. by exists x, w1.
Qed.

Lemma fold_io_cons {A S} (x : A) (xs : list A) (s : S) body w :
  fold_io (x :: xs) s body w
  = match body s x w with
    | (inr s', w') => fold_io xs s' body w'
    | (inl e, w') => (inl e, w')
    end.
Proof. done. Qed.

Lemma for_cons {A} (x : A) (xs : list A) body w :
  for_ (x :: xs) body w
  = match body x w with
    | (inr _, w') => for_ xs body w'
    | (inl e, w') => (inl e, w')
    end.
Proof. done. Qed.

Lemma print_bind {A} ev (m : io A) w :
  (print ev ;; m) w = m {| files := files w; stdout := stdout w ++ [ev] |}.
Proof. done. Qed.

Lemma get_files_bind {A} (k : gmap path fnode → io A) w :
  (fs <- get_files ;; k fs) w = k (files w) w.
Proof. done. Qed.

Lemma ret_bind {A B} (x : A) (k : A → io B) w : (y <- ret x ;; k y) w = k x w.
Proof. done. Qed.

Lemma bind_cong {A B} (m m' : io A) (k k' : A → io B) w :
  m w = m' w → (∀ x w1, k x w1 = k' x w1) → bind m k w = bind m' k' w.
Proof.
  intros Hm Hk. unfold bind. rewrite Hm. destruct (m' w) as [[e|x] w1]; [done|apply Hk].
Qed.

Lemma bind_assoc {A B C} (m : io A) (k : A → io B) (k' : B → io C) w :
  bind (bind m k) k' w = bind m (λ x, bind (k x) k') w.
Proof.
  unfold bind. destruct (m w) as [[e|x] w1]; [done|]. done.
Qed.

Lemma bind_ret_r {A} (m : io A) w : bind m ret w = m w.
Proof. unfold bind, ret. by destruct (m w) as [[e|x] w1]. Qed.

Lemma read_only_ret {A} (x : A) : read_only (ret x).
Proof. done. Qed.

Lemma read_only_raise {A} e : read_only (raise (A := A) e).
Proof. done. Qed.

Lemma read_only_print ev : read_only (print ev).
Proof. done. Qed.

Lemma read_only_get_files : read_only get_files.
Proof. done. Qed.

Lemma read_only_bind {A B} (m : io A) (k : A → io B) :
  read_only m → (∀ x, read_only (k x)) → read_only (bind m k).
Proof.
  intros Hm Hk w. unfold bind. specialize (Hm w).
  destruct (m w) as [[e|x] w1]; simpl in *; [done|].
  by rewrite Hk.
Qed.

Lemma read_only_iterdir p : read_only (iterdir p).
Proof. intros w. unfold iterdir. by repeat case_match. Qed.

Lemma read_only_read_text p : read_only (read_text p).
Proof. intros w. unfold read_text. by repeat case_match. Qed.

Lemma read_only_fold_io {A S} (xs : list A) (s : S) body :
  (∀ s x, read_only (body s x)) → read_only (fold_io xs s body).
Proof.
  intros Hbody. revert s. induction xs as [|x xs IH]; intros s; simpl.
  - apply read_only_ret.
  - apply read_only_bind; [apply Hbody|]. intros s'. apply IH.
Qed.

Lemma read_only_for {A} (xs : list A) body :
  (∀ x, read_only (body x)) → read_only (for_ xs body).
Proof.
  intros Hbody. induction xs as [|x xs IH]; simpl.
  - apply read_only_ret.
  - apply read_only_bind; [apply Hbody|]. intros _. apply IH.
Qed.

Lemma read_only_if {A} (b : bool) (m1 m2 : io A) :
  read_only m1 → read_only m2 → read_only (if b then m1 else m2).
Proof. by destruct b. Qed.

Lemma read_only_decide {A} P `{Decision P} (m1 m2 : io A) :
  read_only m1 → read_only m2 → read_only (if decide P then m1 else m2).
Proof. by case_decide. Qed.

(** ** Listings *)

Lemma child_name_Some d p name : child_name d p = Some name ↔ p = d /: name.
Proof.
  unfold child_name, path_join. split.
  - destruct (last p) as [n|]; [|done]. case_decide; [|done]. by intros [= <-].
  - intros ->. rewrite last_snoc. by rewrite decide_True.
Qed.

Lemma elem_of_listdir fs d name :
  name ∈ listdir fs d ↔ is_Some (fs !! (d /: name)).
Proof.
  unfold listdir. rewrite list_elem_of_omap. split.
  - intros ([p n] & Hin & Hc). simpl in Hc.
    apply child_name_Some in Hc as ->.
    apply elem_of_map_to_list in Hin. by eexists.
  - intros [n Hn]. exists (d /: name, n). split.
    + by apply elem_of_map_to_list.
    + by apply child_name_Some.
Qed.

Lemma elem_of_sorted names name : name ∈ sorted names ↔ name ∈ names.
Proof. unfold sorted. by rewrite merge_sort_Permutation. Qed.

Lemma path_join_nonempty (d : path) name : d /: name ≠ [].
Proof. unfold path_join. by destruct d. Qed.

Lemma path_join_inj (d d' : path) name name' :
  d /: name = d' /: name' → d = d' ∧ name = name'.
Proof. unfold path_join. intros H. by apply app_inj_2 in H as [-> [= ->]]. Qed.

Lemma is_dir_Some fs d name :
  is_dir fs (d /: name) = true ↔ fs !! (d /: name) = Some DirN.
Proof.
  unfold is_dir. pose proof (path_join_nonempty d name).
  destruct (d /: name) eqn:E; [done|]. rewrite <- E.
  destruct (fs !! (d /: name)) as [[]|]; naive_solver.
Qed.

Lemma path_exists_Some fs d name :
  path_exists fs (d /: name) = true ↔ is_Some (fs !! (d /: name)).
Proof.
  unfold path_exists, is_dir, is_file. pose proof (path_join_nonempty d name).
  destruct (d /: name) eqn:E; [done|]. rewrite <- E.
  destruct (fs !! (d /: name)) as [[]|]; simpl; split; try done; try by eexists.
Qed.

(** ** Verifier *)

Lemma count_paragraphs_text p content w :
  p ≠ [] → files w !! p = Some (TextN content) →
  count_paragraphs p w = (inr (text_count content), w).
Proof.
  intros Hp Hf. unfold count_paragraphs, bind, read_text.
  destruct p; [done|]. rewrite Hf. unfold ret, text_count.
  by rewrite length_fmap.
Qed.

Lemma distinct_counts_elem (counts : gmap string nat) n :
  n ∈ distinct_counts counts ↔ ∃ lang, counts !! lang = Some n.
Proof.
  unfold distinct_counts, values. rewrite elem_of_list_to_set, list_elem_of_fmap.
  split.
  - intros ([lang k] & -> & Hin). apply elem_of_map_to_list in Hin. by exists lang.
  - intros [lang Hl]. exists (lang, n). split; [done|]. by apply elem_of_map_to_list.
Qed.

Lemma present_counts_lookup fs doc_dir langs lang :
  present_counts fs doc_dir langs !! lang
  = if decide (lang ∈ langs) then lang_count fs doc_dir lang else None.
Proof.
  unfold present_counts. induction langs as [|l langs IH]; simpl.
  - by rewrite lookup_empty.
  - destruct (decide (l = lang)) as [->|Hne].
    + rewrite decide_True by (by left).
      destruct (lang_count fs doc_dir lang) as [n|] eqn:Hc; simpl.
      * by rewrite lookup_insert_eq.
      * etrans; [exact IH|]. by case_decide.
    + destruct (lang_count fs doc_dir l) as [n|]; simpl.
      * rewrite lookup_insert_ne by done. etrans; [exact IH|].
        destruct (decide (lang ∈ langs)).
        -- by rewrite decide_True by (by right).
        -- by rewrite decide_False by (intros [?|?]%elem_of_cons; done).
      * etrans; [exact IH|].
        destruct (decide (lang ∈ langs)).
        -- by rewrite decide_True by (by right).
        -- by rewrite decide_False by (intros [?|?]%elem_of_cons; done).
Qed.

(** The loop over the languages computes the counts of the files that are
    there, and touches no file. *)
Lemma collect_counts_run doc_dir langs seen (acc : gmap string nat) w :
  (∀ lang, lang ∈ langs → text_or_absent (files w) (doc_dir /: txt lang)) →
  acc = present_counts (files w) doc_dir seen →
  ∃ w', fold_io langs acc
          (λ counts lang,
             fs <- get_files ;;
             let lang_file := doc_dir /: txt lang in
             if path_exists fs lang_file then
               n <- count_paragraphs lang_file ;;
               print (EvLangCount lang n) ;;
               ret (<[lang := n]> counts)
             else ret counts) w
        = (inr (present_counts (files w) doc_dir (seen ++ langs)), w')
        ∧ files w' = files w.
Proof.
  revert seen acc w. induction langs as [|lang langs IH]; intros seen acc w Hok ->.
  - simpl. rewrite app_nil_r. by exists w.
  - assert (Hstep : ∃ w1,
      (fs <- get_files ;;
       let lang_file := doc_dir /: txt lang in
       if path_exists fs lang_file then
         n <- count_paragraphs lang_file ;;
         print (EvLangCount lang n) ;;
         ret (<[lang := n]> (present_counts (files w) doc_dir seen))
       else ret (present_counts (files w) doc_dir seen)) w
      = (inr (present_counts (files w) doc_dir (seen ++ [lang])), w1)
      ∧ files w1 = files w).
    { unfold bind at 1, get_files. simpl.
      assert (Hsnoc : ∀ o, lang_count (files w) doc_dir lang = o →
        present_counts (files w) doc_dir (seen ++ [lang])
        = match o with
          | Some n => <[lang := n]> (present_counts (files w) doc_dir seen)
          | None => present_counts (files w) doc_dir seen
          end).
      { intros o Ho. apply map_eq. intros l.
        rewrite present_counts_lookup.
        destruct o as [n|].
        - rewrite lookup_insert, present_counts_lookup.
          destruct (decide (lang = l)) as [->|Hne].
          + by rewrite decide_True by (apply elem_of_app; right; by left).
          + destruct (decide (l ∈ seen)).
            * by rewrite decide_True by (apply elem_of_app; by left).
            * by rewrite decide_False
                by (intros [?|?%list_elem_of_singleton]%elem_of_app; done).
        - rewrite present_counts_lookup.
          destruct (decide (lang = l)) as [->|Hne].
          + rewrite decide_True by (apply elem_of_app; right; by left).
            rewrite Ho. by case_decide.
          + destruct (decide (l ∈ seen)).
            * by rewrite decide_True by (apply elem_of_app; by left).
            * by rewrite decide_False
                by (intros [?|?%list_elem_of_singleton]%elem_of_app; done). }
      destruct (Hok lang) as [Hnone|[content Htxt]]; [by left| |].
      - assert (path_exists (files w) (doc_dir /: txt lang) = false) as ->.
        { apply not_true_iff_false. rewrite path_exists_Some, Hnone.
          by intros [? ?]. }
        exists w. split; [|done].
        rewrite (Hsnoc None); [done|]. unfold lang_count. by rewrite Hnone.
      - assert (path_exists (files w) (doc_dir /: txt lang) = true) as ->.
        { rewrite path_exists_Some, Htxt. by eexists. }
        rewrite (bind_inr _ _ w (text_count content) w)
          by (apply count_paragraphs_text; [apply path_join_nonempty|done]).
        unfold bind, print, ret. simpl.
        exists {| files := files w;
                  stdout := stdout w ++ [EvLangCount lang (text_count content)] |}.
        split; [|done].
        rewrite (Hsnoc (Some (text_count content))); [done|].
        unfold lang_count. by rewrite Htxt. }
    destruct Hstep as (w1 & Hrun & Hfiles).
    simpl. erewrite bind_inr by exact Hrun.
    destruct (IH (seen ++ [lang]) (present_counts (files w) doc_dir (seen ++ [lang])) w1)
      as (w' & Hrest & Hfiles').
    + intros l Hl. rewrite Hfiles. apply Hok. by right.
    + by rewrite Hfiles.
    + rewrite Hfiles in Hrest. rewrite <- app_assoc in Hrest. simpl in Hrest.
      exists w'. split; [done|]. by rewrite Hfiles'.
Qed.

Lemma verify_document_run doc_dir doc_name w :
  (∀ lang, lang ∈ languages → text_or_absent (files w) (doc_dir /: txt lang)) →
  ∃ w', verify_document doc_dir doc_name w = (inr (doc_passes (files w) doc_dir), w')
        ∧ files w' = files w
        ∧ last (stdout w')
          = Some (let unique_counts :=
                    distinct_counts (present_counts (files w) doc_dir languages) in
                  if doc_passes (files w) doc_dir
                  then EvAllLanguagesHave unique_counts
                  else EvMismatch unique_counts).
Proof.
  intros Hok. unfold verify_document, collect_counts.
  unfold bind at 1, print at 1. simpl.
  set (w0 := {| files := files w; stdout := stdout w ++ [EvVerifyDoc doc_name] |}).
  destruct (collect_counts_run doc_dir languages [] ∅ w0) as (w1 & Hrun & Hfiles);
    [done|done|].
  rewrite (bind_inr _ _ _ _ _ Hrun). simpl in Hfiles |- *.
  unfold doc_passes. case_bool_decide as Hsize.
  - rewrite decide_True by done. unfold bind, print, ret. simpl.
    eexists. split; [done|]. split; [done|]. simpl. by rewrite last_snoc.
  - rewrite decide_False by done. unfold bind, print, ret. simpl.
    eexists. split; [done|]. split; [done|]. simpl. by rewrite last_snoc.
Qed.

Lemma doc_passes_agree fs doc_dir :
  doc_passes fs doc_dir = true ↔ present_counts_agree fs doc_dir.
Proof.
  unfold doc_passes, present_counts_agree. rewrite bool_decide_eq_true.
  assert (Hel : ∀ n, n ∈ distinct_counts (present_counts fs doc_dir languages)
                     ↔ ∃ lang, lang ∈ languages ∧ lang_count fs doc_dir lang = Some n).
  { intros n. rewrite distinct_counts_elem. split.
    - intros [lang Hl]. rewrite present_counts_lookup in Hl.
      case_decide; [|done]. by exists lang.
    - intros (lang & Hin & Hl). exists lang. rewrite present_counts_lookup.
      by rewrite decide_True. }
  split.
  - intros Hsize. destruct (size_1_elem_of _ Hsize) as [n Hn].
    exists n. split.
    + apply Hel. rewrite Hn. by apply elem_of_singleton.
    + intros lang k Hin Hk.
      assert (k ∈ distinct_counts (present_counts fs doc_dir languages)) as Hkin
        by (apply Hel; by exists lang).
      rewrite Hn in Hkin. by apply elem_of_singleton in Hkin.
  - intros (n & Hex & Hall).
    assert (distinct_counts (present_counts fs doc_dir languages) ≡ {[n]}) as ->.
    { intros k. rewrite Hel, elem_of_singleton. split.
      - intros (lang & Hin & Hk). by eapply Hall.
      - by intros ->. }
    apply size_singleton.
Qed.

Lemma present_agree_five fs doc_dir :
  (∀ lang, lang ∈ languages → is_Some (lang_count fs doc_dir lang)) →
  present_counts_agree fs doc_dir ↔ five_counts_equal fs doc_dir.
Proof.
  intros Hall. unfold present_counts_agree, five_counts_equal. split.
  - intros (n & _ & Hn). exists n. intros lang Hin.
    destruct (Hall lang Hin) as [k Hk]. rewrite Hk. f_equal. by eapply Hn.
  - intros (n & Hn). exists n. split.
    + exists "castellano". split; [by left|]. apply Hn. by left.
    + intros lang k Hin Hk. rewrite Hn in Hk by done. by injection Hk.
Qed.

(** The loop over the documents of one folder. *)
Lemma verify_docs_run folder_path doc_names (st : bool * nat) w :
  (∀ doc_name lang, doc_name ∈ doc_names → lang ∈ languages →
     text_or_absent (files w) (folder_path /: doc_name /: txt lang)) →
  ∃ all_ok w',
    fold_io doc_names st
      (λ st doc_name,
         passed <- verify_document (folder_path /: doc_name) doc_name ;;
         ret (if passed then st.1 else false, S st.2)) w
    = (inr (all_ok, st.2 + length doc_names), w')
    ∧ files w' = files w
    ∧ (all_ok = true ↔
       st.1 = true ∧ ∀ doc_name, doc_name ∈ doc_names →
                       doc_passes (files w) (folder_path /: doc_name) = true).
Proof.
  revert st w. induction doc_names as [|d ds IH]; intros [ok n] w Hok; simpl.
  - exists ok, w. rewrite Nat.add_0_r. split_and!; [done|done|].
    split; [|by intros [? _]]. intros ->. split; [done|]. by intros ? ?%elem_of_nil.
  - destruct (verify_document_run (folder_path /: d) d w) as (w1 & Hrun & Hf1 & _).
    { intros lang Hl. apply Hok; [by left|done]. }
    destruct (IH (if doc_passes (files w) (folder_path /: d) then ok else false, S n) w1)
      as (ok' & w' & Hrest & Hf' & Hiff).
    { intros dn lang Hd Hl. rewrite Hf1. apply Hok; [by right|done]. }
    erewrite bind_inr; [|by erewrite bind_inr by exact Hrun].
    simpl in Hrest |- *. rewrite Hrest.
    exists ok', w'. split_and!.
    + do 2 f_equal. f_equal. lia.
    + by rewrite Hf'.
    + rewrite Hiff. simpl. rewrite Hf1. split.
      * intros [Hd Hall]. destruct (doc_passes (files w) (folder_path /: d)) eqn:E;
          [|done]. split; [done|]. intros dn [->|Hin]%elem_of_cons; [done|by apply Hall].
      * intros [-> Hall]. split.
        -- rewrite Hall; [done|by left].
        -- intros dn Hin. apply Hall. by right.
Qed.

Lemma verify_folder_run base_path (st : bool * nat) folder_name w :
  let folder_path := base_path /: folder_name in
  (path_exists (files w) folder_path = true → is_dir (files w) folder_path = true) →
  (∀ doc_name lang, path_exists (files w) folder_path = true →
     is_dir (files w) (folder_path /: doc_name) = true → lang ∈ languages →
     text_or_absent (files w) (folder_path /: doc_name /: txt lang)) →
  ∃ all_ok n w',
    verify_folder base_path st folder_name w = (inr (all_ok, n), w')
    ∧ files w' = files w
    ∧ (all_ok = true ↔
       st.1 = true
       ∧ (path_exists (files w) folder_path = true →
          ∀ doc_name, is_dir (files w) (folder_path /: doc_name) = true →
            doc_passes (files w) (folder_path /: doc_name) = true)).
Proof.
  intros folder_path Hdir Hok. unfold verify_folder.
  unfold bind at 1, get_files. simpl. fold folder_path.
  destruct (path_exists (files w) folder_path) eqn:Hex.
  - unfold bind at 1, print at 1. simpl.
    unfold bind at 1, iterdir at 1. simpl. rewrite (Hdir eq_refl).
    set (w0 := {| files := files w; stdout := stdout w ++ [EvVerifyFolder folder_name] |}).
    set (doc_dirs := sorted _).
    assert (Hdocs : ∀ d, d ∈ doc_dirs ↔ is_dir (files w) (folder_path /: d) = true).
    { intros d. unfold doc_dirs. rewrite elem_of_sorted, list_elem_of_filter.
      rewrite elem_of_listdir, Is_true_true. split; [by intros [? _]|].
      intros Hd. split; [done|]. apply is_dir_Some in Hd. by eexists. }
    destruct (verify_docs_run folder_path doc_dirs st w0) as (ok & w' & Hrun & Hf & Hiff).
    { intros d lang Hd Hl. apply Hok; [done| |done]. by apply Hdocs. }
    exists ok, (st.2 + length doc_dirs), w'. split_and!; [done|done|].
    rewrite Hiff. simpl. split.
    + intros [? Hall]. split; [done|]. intros _ d Hd. apply Hall. by apply Hdocs.
    + intros [? Hall]. split; [done|]. intros d Hd. apply Hall; [done|]. by apply Hdocs.
  - destruct st as [ok n]. exists ok, n, w. split_and!; [done|done|]. simpl.
    split; [|by intros [? _]]. by intros ->.
Qed.

Lemma verify_folders_run base_path folder_names (st : bool * nat) w :
  (∀ fn, fn ∈ folder_names → path_exists (files w) (base_path /: fn) = true →
     is_dir (files w) (base_path /: fn) = true) →
  (∀ fn doc_name lang, fn ∈ folder_names →
     path_exists (files w) (base_path /: fn) = true →
     is_dir (files w) (base_path /: fn /: doc_name) = true → lang ∈ languages →
     text_or_absent (files w) (base_path /: fn /: doc_name /: txt lang)) →
  ∃ all_ok n w',
    fold_io folder_names st (verify_folder base_path) w = (inr (all_ok, n), w')
    ∧ files w' = files w
    ∧ (all_ok = true ↔
       st.1 = true
       ∧ ∀ fn doc_name, fn ∈ folder_names →
           path_exists (files w) (base_path /: fn) = true →
           is_dir (files w) (base_path /: fn /: doc_name) = true →
           doc_passes (files w) (base_path /: fn /: doc_name) = true).
Proof.
  revert st w. induction folder_names as [|f rest IH]; intros st w Hdir Hok; simpl.
  - destruct st as [ok n]. exists ok, n, w. split_and!; [done|done|]. simpl.
    split; [|by intros [? _]]. intros ->. split; [done|]. by intros ?? ?%elem_of_nil.
  - destruct (verify_folder_run base_path st f w) as (ok1 & n1 & w1 & Hrun & Hf1 & Hiff1).
    { apply Hdir. by left. }
    { intros d lang. apply Hok. by left. }
    rewrite (bind_inr _ _ _ _ _ Hrun).
    destruct (IH (ok1, n1) w1) as (ok & n & w' & Hrest & Hf & Hiff).
    { intros fn Hin. rewrite Hf1. apply Hdir. by right. }
    { intros fn d lang Hin. rewrite Hf1. apply Hok. by right. }
    exists ok, n, w'. split_and!; [done|by rewrite Hf|].
    rewrite Hiff, Hf1. simpl. rewrite Hiff1. split.
    + intros [[? H1] Hall]. split; [done|].
      intros fn d [->|Hin]%elem_of_cons; [intros; by apply H1|by apply Hall].
    + intros [? Hall]. split; [split; [done|]|].
      * intros ? d. apply Hall; [by left|done].
      * intros fn d Hin. apply Hall. by right.
Qed.

Lemma verify_all_documents_run base_path w :
  verifiable (files w) base_path →
  ∃ all_ok w',
    verify_all_documents base_path w = (inr all_ok, w')
    ∧ files w' = files w
    ∧ (all_ok = true ↔
       ∀ doc_dir, is_document (files w) base_path doc_dir →
                  present_counts_agree (files w) doc_dir).
Proof.
  intros [Hdir Hok]. unfold verify_all_documents.
  destruct (verify_folders_run base_path verify_folders (true, 0) w)
    as (ok & n & w' & Hrun & Hf & Hiff).
  { done. }
  { intros fn d lang Hin Hex Hd Hl. apply Hok; [|done]. by exists fn, d. }
  rewrite (bind_inr _ _ _ _ _ Hrun). unfold bind, print, ret. simpl.
  eexists ok, _. split_and!; [done|done|].
  rewrite Hiff. simpl. split.
  - intros [_ Hall] doc_dir (fn & d & Hin & Hex & Hd & ->).
    apply doc_passes_agree. by apply Hall.
  - intros Hall. split; [done|]. intros fn d Hin Hex Hd.
    apply doc_passes_agree. apply Hall. by exists fn, d.
Qed.

Lemma read_only_count_paragraphs p : read_only (count_paragraphs p).
Proof.
  apply read_only_bind; [apply read_only_read_text|]. intros. apply read_only_ret.
Qed.

Lemma read_only_verify_document doc_dir doc_name :
  read_only (verify_document doc_dir doc_name).
Proof.
  apply read_only_bind; [apply read_only_print|]. intros _.
  apply read_only_bind.
  - apply read_only_fold_io. intros counts lang.
    apply read_only_bind; [apply read_only_get_files|]. intros fs.
    apply read_only_if; [|apply read_only_ret].
    apply read_only_bind; [apply read_only_count_paragraphs|]. intros n.
    apply read_only_bind; [apply read_only_print|]. intros _. apply read_only_ret.
  - intros counts. apply read_only_decide.
    + apply read_only_bind; [apply read_only_print|]. intros _. apply read_only_ret.
    + apply read_only_bind; [apply read_only_print|]. intros _. apply read_only_ret.
Qed.

(** The Verifier leaves every file as it was, whatever it meets. *)
Lemma read_only_verify_all_documents base_path :
  read_only (verify_all_documents base_path).
Proof.
  apply read_only_bind.
  - apply read_only_fold_io. intros st folder_name.
    apply read_only_bind; [apply read_only_get_files|]. intros fs.
    apply read_only_if; [|apply read_only_ret].
    apply read_only_bind; [apply read_only_print|]. intros _.
    apply read_only_bind; [apply read_only_iterdir|]. intros entries.
    apply read_only_fold_io. intros st' doc_name.
    apply read_only_bind; [apply read_only_verify_document|]. intros passed.
    apply read_only_ret.
  - intros st. apply read_only_bind; [apply read_only_print|]. intros _.
    apply read_only_ret.
Qed.

Lemma check_documents_sound (ok : gmap path fnode → path → bool) fs base_path :
  check_documents ok fs base_path = true →
  (∀ folder_name, folder_name ∈ verify_folders →
     path_exists fs (base_path /: folder_name) = true →
     is_dir fs (base_path /: folder_name) = true)
  ∧ ∀ doc_dir lang, is_document fs base_path doc_dir → lang ∈ languages →
      ok fs (doc_dir /: txt lang) = true.
Proof.
  unfold check_documents. intros H%Is_true_true%forallb_True.
  rewrite Forall_forall in H.
  assert (Hfolder : ∀ fn, fn ∈ verify_folders →
            path_exists fs (base_path /: fn) = true →
            is_dir fs (base_path /: fn) = true
            ∧ ∀ dn lang, is_dir fs (base_path /: fn /: dn) = true →
                lang ∈ languages → ok fs (base_path /: fn /: dn /: txt lang) = true).
  { intros fn Hin Hex. specialize (H fn Hin). cbv beta zeta in H. rewrite Hex in H.
    apply orb_True in H as [Hf|H]; [exfalso; exact Hf|].
    apply andb_prop_elim in H as [Hd Hdocs]. split; [by apply Is_true_true|].
    intros dn lang Hdn Hl.
    apply forallb_True in Hdocs. rewrite Forall_forall in Hdocs.
    assert (dn ∈ listdir fs (base_path /: fn)) as Hdnin.
    { apply elem_of_listdir. apply is_dir_Some in Hdn. by eexists. }
    specialize (Hdocs dn Hdnin). cbv beta in Hdocs. rewrite Hdn in Hdocs.
    apply orb_True in Hdocs as [Hf|Hdocs]; [exfalso; exact Hf|].
    apply forallb_True in Hdocs. rewrite Forall_forall in Hdocs.
    apply Is_true_true. by apply Hdocs. }
  split.
  - intros fn Hin Hex. by apply Hfolder.
  - intros doc_dir lang (fn & dn & Hin & Hex & Hd & ->) Hl. by apply Hfolder.
Qed.

Lemma verifiable_check fs base_path :
  check_documents text_or_absent_b fs base_path = true → verifiable fs base_path.
Proof.
  intros [Hd Hok]%check_documents_sound. split; [done|].
  intros doc_dir lang Hdoc Hl. specialize (Hok doc_dir lang Hdoc Hl).
  unfold text_or_absent_b, text_or_absent in *.
  destruct (fs !! (doc_dir /: txt lang)) as [[]|]; try done.
  - right. by eexists.
  - by left.
Qed.

Lemma complete_tree_check fs base_path :
  check_documents text_b fs base_path = true → complete_tree fs base_path.
Proof.
  intros [Hd Hok]%check_documents_sound. split; [done|].
  intros doc_dir lang Hdoc Hl. specialize (Hok doc_dir lang Hdoc Hl).
  unfold text_b, lang_count in *.
  by destruct (fs !! (doc_dir /: txt lang)) as [[]|].
Qed.

Lemma complete_tree_verifiable fs base_path :
  complete_tree fs base_path → verifiable fs base_path.
Proof.
  intros [Hd Hok]. split; [done|]. intros doc_dir lang Hdoc Hl.
  destruct (Hok doc_dir lang Hdoc Hl) as [n Hn]. unfold lang_count in Hn.
  destruct (fs !! (doc_dir /: txt lang)) as [[]|] eqn:E; try done.
  right. by eexists.
Qed.

(** C6: on a tree where every document directory holds the five language
    files, the Verifier runs to its end; it reports a document as passing
    exactly when the five counts of non-blank lines are equal, its result is
    true exactly when every document passes, and it leaves every file as it
    was (that last part on any tree whatever). *)
Theorem verifier_contract base_path w :
  complete_tree (files w) base_path →
  ∃ all_ok w',
    verify_all_documents base_path w = (inr all_ok, w')
    ∧ (all_ok = true ↔
       ∀ doc_dir, is_document (files w) base_path doc_dir →
                  five_counts_equal (files w) doc_dir)
    ∧ (∀ doc_dir doc_name w0,
         files w0 = files w → is_document (files w) base_path doc_dir →
         ∃ passed w0',
           verify_document doc_dir doc_name w0 = (inr passed, w0')
           ∧ (passed = true ↔ five_counts_equal (files w) doc_dir)
           ∧ ∃ unique_counts,
               last (stdout w0')
               = Some (if passed then EvAllLanguagesHave unique_counts
                       else EvMismatch unique_counts))
    ∧ read_only (verify_all_documents base_path).
Proof.
  intros Hc. pose proof (complete_tree_verifiable _ _ Hc) as Hv.
  destruct (verify_all_documents_run base_path w Hv) as (ok & w' & Hrun & _ & Hiff).
  exists ok, w'. split_and!; [done| | |apply read_only_verify_all_documents].
  - rewrite Hiff. split; intros Hall doc_dir Hdoc.
    + apply present_agree_five; [intros; by apply Hc|by apply Hall].
    + apply present_agree_five; [intros; by apply Hc|by apply Hall].
  - intros doc_dir doc_name w0 Hw0 Hdoc.
    destruct (verify_document_run doc_dir doc_name w0) as (w0' & Hd & _ & Hlast).
    { intros lang Hl. rewrite Hw0. by apply Hv. }
    rewrite Hw0 in Hd, Hlast.
    exists (doc_passes (files w) doc_dir), w0'. split_and!; [done| |by eexists].
    rewrite doc_passes_agree. apply present_agree_five. intros; by apply Hc.
Qed.

(** The witness of C6: the tree that stage 1 leaves for the scenario. *)
Lemma verifier_contract_scenario :
  complete_tree (files aligned_world) extracted_paragraphs
  ∧ ∃ all_ok w',
      verify_all_documents extracted_paragraphs aligned_world = (inr all_ok, w')
      ∧ (all_ok = true ↔
         ∀ doc_dir, is_document (files aligned_world) extracted_paragraphs doc_dir →
                    five_counts_equal (files aligned_world) doc_dir)
      ∧ (∀ doc_dir doc_name w0,
           files w0 = files aligned_world →
           is_document (files aligned_world) extracted_paragraphs doc_dir →
           ∃ passed w0',
             verify_document doc_dir doc_name w0 = (inr passed, w0')
             ∧ (passed = true ↔ five_counts_equal (files aligned_world) doc_dir)
             ∧ ∃ unique_counts,
                 last (stdout w0')
                 = Some (if passed then EvAllLanguagesHave unique_counts
                         else EvMismatch unique_counts))
      ∧ read_only (verify_all_documents extracted_paragraphs).
Proof.
  assert (Hc : complete_tree (files aligned_world) extracted_paragraphs)
    by (apply complete_tree_check; vm_compute; reflexivity).
  split; [exact Hc|].
  exact (verifier_contract extracted_paragraphs aligned_world Hc).
Defined.

(** On the scenario the Verifier reports both documents as passing. *)
Lemma verifier_scenario_passes :
  (verify_script aligned_world).1 = inr true.
Proof. by vm_compute. Qed.

(** C10: the Verifier counts the language files that are there.  A document
    passes exactly when at least one of them is there and those that are
    there have one and the same count of non-blank lines, so a directory
    with 1 to 4 files of equal counts passes; a directory with none of the
    five files is reported as a mismatch, and then the result of the run is
    false. *)
Theorem verifier_partial_documents base_path w :
  verifiable (files w) base_path →
  (∀ doc_dir doc_name w0,
     files w0 = files w → is_document (files w) base_path doc_dir →
     ∃ passed w0',
       verify_document doc_dir doc_name w0 = (inr passed, w0')
       ∧ (passed = true ↔ present_counts_agree (files w) doc_dir)
       ∧ ((∀ lang, lang ∈ languages → lang_count (files w) doc_dir lang = None) →
          passed = false ∧ last (stdout w0') = Some (EvMismatch ∅)))
  ∧ ∃ all_ok w',
      verify_all_documents base_path w = (inr all_ok, w')
      ∧ (all_ok = true ↔
         ∀ doc_dir, is_document (files w) base_path doc_dir →
                    present_counts_agree (files w) doc_dir)
      ∧ ((∃ doc_dir, is_document (files w) base_path doc_dir
                     ∧ ∀ lang, lang ∈ languages →
                         lang_count (files w) doc_dir lang = None) →
         all_ok = false).
Proof.
  intros Hv.
  assert (Hnone : ∀ doc_dir,
    (∀ lang, lang ∈ languages → lang_count (files w) doc_dir lang = None) →
    ¬ present_counts_agree (files w) doc_dir).
  { intros doc_dir Hn (n & (lang & Hin & Hl) & _). by rewrite Hn in Hl. }
  split.
  - intros doc_dir doc_name w0 Hw0 Hdoc.
    destruct (verify_document_run doc_dir doc_name w0) as (w0' & Hd & _ & Hlast).
    { intros lang Hl. rewrite Hw0. by apply Hv. }
    rewrite Hw0 in Hd, Hlast.
    exists (doc_passes (files w) doc_dir), w0'. split_and!; [done|apply doc_passes_agree|].
    intros Hn.
    assert (doc_passes (files w) doc_dir = false) as Hfalse.
    { apply not_true_iff_false. rewrite doc_passes_agree. by apply Hnone. }
    split; [done|]. rewrite Hlast, Hfalse. simpl. do 2 f_equal.
    assert (present_counts (files w) doc_dir languages = ∅) as ->.
    { apply map_eq. intros lang. rewrite present_counts_lookup, lookup_empty.
      case_decide; [by apply Hn|done]. }
    done.
  - destruct (verify_all_documents_run base_path w Hv) as (ok & w' & Hrun & _ & Hiff).
    exists ok, w'. split_and!; [done|done|].
    intros (doc_dir & Hdoc & Hn). apply not_true_iff_false. rewrite Hiff.
    intros Hall. by apply (Hnone doc_dir Hn), Hall.
Qed.

(** The witness of C10: a document with two language files of equal counts
    passes; with the empty document beside it the run fails. *)
Lemma verifier_partial_documents_example :
  verifiable partial_tree extracted_paragraphs
  ∧ (verify_document (extracted_paragraphs /: "Actualidad" /: "aviso") "aviso"
       partial_world).1 = inr true
  ∧ (verify_document (extracted_paragraphs /: "Actualidad" /: "vacio") "vacio"
       partial_world).1 = inr false
  ∧ ∃ w', verify_all_documents extracted_paragraphs partial_world = (inr false, w').
Proof.
  assert (Hv : verifiable (files partial_world) extracted_paragraphs)
    by (apply verifiable_check; vm_compute; reflexivity).
  split; [exact Hv|].
  split; [by vm_compute|]. split; [by vm_compute|].
  assert (Hempty : ∃ doc_dir,
            is_document (files partial_world) extracted_paragraphs doc_dir
            ∧ ∀ lang, lang ∈ languages →
                lang_count (files partial_world) doc_dir lang = None).
  { exists (extracted_paragraphs /: "Actualidad" /: "vacio"). split.
    - exists "Actualidad", "vacio".
      split_and!; [by left|by vm_compute|by vm_compute|done].
    - intros lang Hl. unfold languages in Hl.
      repeat (apply elem_of_cons in Hl as [->|Hl]; [by vm_compute|]).
      by apply elem_of_nil in Hl. }
  destruct (verifier_partial_documents extracted_paragraphs partial_world Hv)
    as (_ & ok & w' & Hrun & _ & Hfalse).
  exists w'. rewrite Hrun. f_equal. f_equal. exact (Hfalse Hempty).
Defined.

(** ** The batch drivers *)

Lemma appends_ret {A} (x : A) : appends_output (ret x).
Proof. intros w. exists []. by rewrite app_nil_r. Qed.

Lemma appends_raise {A} e : appends_output (raise (A := A) e).
Proof. intros w. exists []. by rewrite app_nil_r. Qed.

Lemma appends_print ev : appends_output (print ev).
Proof. intros w. by exists [ev]. Qed.

Lemma appends_bind {A B} (m : io A) (k : A → io B) :
  appends_output m → (∀ x, appends_output (k x)) → appends_output (bind m k).
Proof.
  intros Hm Hk w. unfold bind. destruct (Hm w) as [out Hout].
  destruct (m w) as [[e|x] w1]; simpl in *; [by exists out|].
  destruct (Hk x w1) as [out' Hout']. exists (out ++ out').
  by rewrite Hout', Hout, app_assoc.
Qed.

Lemma appends_try_except {A} (m : io A) handler :
  appends_output m → (∀ e, appends_output (handler e)) →
  appends_output (try_except m handler).
Proof.
  intros Hm Hh w. unfold try_except. destruct (Hm w) as [out Hout].
  destruct (m w) as [[e|x] w1]; simpl in *; [|by exists out].
  destruct (Hh e w1) as [out' Hout']. exists (out ++ out').
  by rewrite Hout', Hout, app_assoc.
Qed.

Lemma appends_fold_io {A S} (xs : list A) (s : S) body :
  (∀ s x, appends_output (body s x)) → appends_output (fold_io xs s body).
Proof.
  intros Hbody. revert s. induction xs as [|x xs IH]; intros s; simpl.
  - apply appends_ret.
  - apply appends_bind; [apply Hbody|]. intros s'. apply IH.
Qed.

Lemma appends_for {A} (xs : list A) body :
  (∀ x, appends_output (body x)) → appends_output (for_ xs body).
Proof.
  intros Hbody. induction xs as [|x xs IH]; simpl.
  - apply appends_ret.
  - apply appends_bind; [apply Hbody|]. intros _. apply IH.
Qed.

Lemma appends_same_stdout {A} (m : io A) :
  (∀ w, stdout (m w).2 = stdout w) → appends_output m.
Proof. intros H w. exists []. by rewrite app_nil_r. Qed.

Lemma appends_Document p : appends_output (Document p).
Proof. apply appends_same_stdout. intros w. unfold Document. by repeat case_match. Qed.

Lemma appends_mkdir_parents p : appends_output (mkdir_parents p).
Proof.
  apply appends_same_stdout. intros w. unfold mkdir_parents. by repeat case_match.
Qed.

Lemma appends_write_text p c : appends_output (write_text p c).
Proof.
  apply appends_same_stdout. intros w. unfold write_text. by repeat case_match.
Qed.

Lemma appends_py_min xs : appends_output (py_min xs).
Proof. unfold py_min. destruct (min_of xs); [apply appends_ret|apply appends_raise]. Qed.

Lemma appends_py_max xs : appends_output (py_max xs).
Proof. unfold py_max. destruct (max_of xs); [apply appends_ret|apply appends_raise]. Qed.

Lemma appends_process_document_set doc_paths output_base discarded_base folder_name doc_name :
  appends_output
    (process_document_set doc_paths output_base discarded_base folder_name doc_name).
Proof.
  apply appends_bind.
  - apply appends_fold_io. intros acc item.
    apply appends_bind; [apply appends_print|]. intros _.
    apply appends_bind; [apply appends_Document|]. intros doc.
    apply appends_bind; [apply appends_print|]. intros _. apply appends_ret.
  - intros all_paragraphs. unfold align_and_write.
    apply appends_bind; [apply appends_py_min|]. intros min_count.
    apply appends_bind; [apply appends_py_max|]. intros max_count.
    apply appends_bind.
    { apply appends_for. intros. apply appends_print. }
    intros _. apply appends_bind.
    { case_decide; [|apply appends_print].
      apply appends_bind; [apply appends_print|]. intros _.
      apply appends_for. intros item. case_decide; [|apply appends_ret].
      apply appends_bind; [apply appends_mkdir_parents|]. intros _.
      apply appends_bind; [apply appends_write_text|]. intros _. apply appends_print. }
    intros _. apply appends_bind; [|intros; apply appends_print].
    apply appends_bind; [apply appends_mkdir_parents|]. intros _.
    apply appends_for. intros item.
    apply appends_bind; [apply appends_write_text|]. intros _. apply appends_print.
Qed.

(** One document set under [try] / [except]: the driver goes on either way;
    an error is printed with the name of the document and counted. *)
Lemma process_guarded_run output_base discarded_base folder_name
    (st : nat * nat * nat) (doc : string * gmap string path) w :
  process_guarded output_base discarded_base folder_name st doc w
  = match process_document_set doc.2 output_base discarded_base folder_name doc.1 w with
    | (inr _, w') => (inr (st.1.1 + 1, st.1.2 + 1, st.2), w')
    | (inl e, w') =>
        (inr (st.1.1 + 1, st.1.2, st.2 + 1),
         {| files := files w'; stdout := stdout w' ++ [EvErrorProcessing doc.1 e] |})
    end.
Proof.
  destruct st as [[n s] f]. unfold process_guarded, try_except, bind. simpl.
  by destruct (process_document_set _ _ _ _ _ w) as [[e|[]] w'].
Qed.

Lemma appends_process_guarded output_base discarded_base folder_name st doc :
  appends_output (process_guarded output_base discarded_base folder_name st doc).
Proof.
  destruct st as [[n s] f]. apply appends_try_except.
  - apply appends_bind; [apply appends_process_document_set|]. intros. apply appends_ret.
  - intros e. apply appends_bind; [apply appends_print|]. intros. apply appends_ret.
Qed.

(** The loop over the documents of one folder never raises. *)
Lemma process_folder_run output_base discarded_base total_docs folder_name
    (docs : list (string * gmap string path)) (st : nat * nat * nat) w :
  ∃ successful failed w',
    fold_io docs st
      (λ st doc,
         print (EvHeader (S st.1.1) total_docs folder_name doc.1) ;;
         process_guarded output_base discarded_base folder_name st doc) w
    = (inr (st.1.1 + length docs, successful, failed), w')
    ∧ successful + failed = st.1.2 + st.2 + length docs
    ∧ (∃ out, stdout w' = stdout w ++ out)
    ∧ ∀ doc, doc ∈ docs → ∃ k, EvHeader k total_docs folder_name doc.1 ∈ stdout w'.
Proof.
  revert st w. induction docs as [|doc docs IH]; intros [[n s] f] w.
  - simpl. exists s, f, w.
    split_and!; [by rewrite Nat.add_0_r|lia| |by intros ? ?%elem_of_nil].
    exists []. by rewrite app_nil_r.
  - rewrite fold_io_cons, print_bind. simpl fst.
    set (w0 := {| files := files w;
                  stdout := stdout w ++ [EvHeader (S n) total_docs folder_name doc.1] |}).
    rewrite process_guarded_run. simpl fst. simpl snd.
    destruct (appends_process_document_set doc.2 output_base discarded_base
                folder_name doc.1 w0) as [out Hout].
    destruct (process_document_set _ _ _ _ _ w0) as [[e|[]] w1]; simpl in Hout.
    + destruct (IH (n + 1, s, f + 1)
                  {| files := files w1;
                     stdout := stdout w1 ++ [EvErrorProcessing doc.1 e] |})
        as (s' & f' & w' & Hrun & Hsum & [out' Hout'] & Hhead).
      simpl in *. rewrite Hrun. exists s', f', w'.
      split_and!;
        [by replace (n + S (length docs)) with (n + 1 + length docs) by lia|lia| |].
      * eexists. rewrite Hout', Hout. simpl. by rewrite <- !app_assoc.
      * intros d [->|Hd]%elem_of_cons; [|by apply Hhead].
        exists (S n). rewrite Hout', Hout. simpl.
        rewrite !elem_of_app, list_elem_of_singleton. by left; left; left; right.
    + destruct (IH (n + 1, s + 1, f) w1)
        as (s' & f' & w' & Hrun & Hsum & [out' Hout'] & Hhead).
      simpl in *. rewrite Hrun. exists s', f', w'.
      split_and!;
        [by replace (n + S (length docs)) with (n + 1 + length docs) by lia|lia| |].
      * eexists. rewrite Hout', Hout. simpl. by rewrite <- !app_assoc.
      * intros d [->|Hd]%elem_of_cons; [|by apply Hhead].
        exists (S n). rewrite Hout', Hout. simpl.
        rewrite !elem_of_app, list_elem_of_singleton. by left; left; right.
Qed.

Lemma sorted_items_perm {V} (d : gmap string V) : sorted_items d ≡ₚ map_to_list d.
Proof. unfold sorted_items. apply merge_sort_Permutation. Qed.

Lemma length_sorted_items {V} (d : gmap string V) : length (sorted_items d) = size d.
Proof. by rewrite sorted_items_perm, length_map_to_list. Qed.

Lemma elem_of_sorted_items {V} (d : gmap string V) k v :
  (k, v) ∈ sorted_items d ↔ d !! k = Some v.
Proof. by rewrite sorted_items_perm, elem_of_map_to_list. Qed.

Lemma n_docs_sorted all_sets :
  n_docs all_sets = sum_list_with (λ folder, size folder.2) (sorted_items all_sets).
Proof.
  rewrite sorted_items_perm. unfold n_docs, values.
  induction (map_to_list all_sets) as [|kv l IH]; simpl; [done|].
  f_equal. exact IH.
Qed.

(** The loop over the folders never raises. *)
Lemma process_folders_run output_base discarded_base total_docs
    (folder_list : list (string * gmap string (gmap string path)))
    (st : nat * nat * nat) w :
  ∃ successful failed w',
    fold_io folder_list st
      (λ st folder,
         fold_io (sorted_items folder.2) st
           (λ st doc,
              print (EvHeader (S st.1.1) total_docs folder.1 doc.1) ;;
              process_guarded output_base discarded_base folder.1 st doc)) w
    = (inr (st.1.1 + sum_list_with (λ folder, size folder.2) folder_list,
            successful, failed), w')
    ∧ successful + failed
      = st.1.2 + st.2 + sum_list_with (λ folder, size folder.2) folder_list
    ∧ (∃ out, stdout w' = stdout w ++ out)
    ∧ ∀ folder doc, folder ∈ folder_list → doc ∈ sorted_items folder.2 →
        ∃ k, EvHeader k total_docs folder.1 doc.1 ∈ stdout w'.
Proof.
  revert st w. induction folder_list as [|folder rest IH]; intros [[n s] f] w.
  - simpl. exists s, f, w.
    split_and!; [by rewrite Nat.add_0_r|lia| |by intros ?? ?%elem_of_nil].
    exists []. by rewrite app_nil_r.
  - rewrite fold_io_cons.
    destruct (process_folder_run output_base discarded_base total_docs folder.1
                (sorted_items folder.2) (n, s, f) w)
      as (s1 & f1 & w1 & Hrun & Hsum & [out Hout] & Hhead).
    cbv beta. rewrite Hrun. simpl fst in *. simpl snd in *.
    destruct (IH (n + length (sorted_items folder.2), s1, f1) w1)
      as (s' & f' & w' & Hrest & Hsum' & [out' Hout'] & Hhead').
    simpl fst in *. simpl snd in *. rewrite Hrest.
    rewrite length_sorted_items in *. simpl sum_list_with.
    exists s', f', w'. split_and!.
    + by rewrite Nat.add_assoc.
    + lia.
    + exists (out ++ out'). by rewrite Hout', Hout, app_assoc.
    + intros fd d [->|Hin]%elem_of_cons Hd; [|by eapply Hhead'].
      destruct (Hhead d Hd) as [k Hk]. exists k.
      rewrite Hout'. apply elem_of_app. by left.
Qed.

(** C8 as stated fails: stages 2 and 3 have no handler around a document.
    A directory in the place of a language file stops the Consolidator with
    the exception; nothing is printed or counted for it, the document after
    it is never reached and its lines never get to the master files.  The
    Verifier stops in the same way. *)
Lemma batch_error_aborts_consolidator :
  let run := consolidate_script broken_world in
  run.1 = inl (IsADirectoryError
                 (extracted_paragraphs /: "Presidente" /: "acto" /: "castellano.txt"))
  ∧ stdout run.2 = [EvFolder "Presidente"]
  ∧ files run.2 !! (evaluation_data_paragraphs /: "es.txt") = Some (TextN [])
  ∧ (verify_script broken_world).1
    = inl (IsADirectoryError
             (extracted_paragraphs /: "Presidente" /: "acto" /: "castellano.txt")).
Proof. by vm_compute. Qed.

(** C8, amended: in the batch loop of stage 1 an error raised while a
    document set is processed is caught, printed with the name of the
    document and the error, and counted as failed; the loop never raises,
    attempts every document set, and ends with as many successes and
    failures together as there are document sets.  (Stages 2 and 3 have no
    such handler.) *)
Theorem batch_errors_are_caught output_base discarded_base :
  (∀ folder_name st doc w,
     process_guarded output_base discarded_base folder_name st doc w
     = match process_document_set doc.2 output_base discarded_base
               folder_name doc.1 w with
       | (inr _, w') => (inr (st.1.1 + 1, st.1.2 + 1, st.2), w')
       | (inl e, w') =>
           (inr (st.1.1 + 1, st.1.2, st.2 + 1),
            {| files := files w';
               stdout := stdout w' ++ [EvErrorProcessing doc.1 e] |})
       end)
  ∧ (∀ all_sets total_docs w,
       ∃ successful failed w',
         process_all all_sets output_base discarded_base total_docs w
         = (inr (n_docs all_sets, successful, failed), w')
         ∧ successful + failed = n_docs all_sets
         ∧ ∀ folder_name doc_sets doc_name doc_paths,
             all_sets !! folder_name = Some doc_sets →
             doc_sets !! doc_name = Some doc_paths →
             ∃ k, EvHeader k total_docs folder_name doc_name ∈ stdout w')
  ∧ ∀ base_path w,
      ∃ successful failed w',
        main base_path output_base discarded_base w
        = (inr (n_docs (discover_document_sets (files w) base_path),
                successful, failed), w')
        ∧ last (stdout w')
          = Some (EvComplete (n_docs (discover_document_sets (files w) base_path))
                    successful failed).
Proof.
  assert (Hall : ∀ all_sets total_docs w,
       ∃ successful failed w',
         process_all all_sets output_base discarded_base total_docs w
         = (inr (n_docs all_sets, successful, failed), w')
         ∧ successful + failed = n_docs all_sets
         ∧ ∀ folder_name doc_sets doc_name doc_paths,
             all_sets !! folder_name = Some doc_sets →
             doc_sets !! doc_name = Some doc_paths →
             ∃ k, EvHeader k total_docs folder_name doc_name ∈ stdout w').
  { intros all_sets total_docs w. unfold process_all.
    destruct (process_folders_run output_base discarded_base total_docs
                (sorted_items all_sets) (0, 0, 0) w)
      as (s & f & w' & Hrun & Hsum & _ & Hhead).
    simpl in Hrun, Hsum. rewrite <- n_docs_sorted in Hrun, Hsum.
    exists s, f, w'. split_and!; [done|done|].
    intros fn ds dn dp Hfn Hdn.
    apply (Hhead (fn, ds) (dn, dp)); by apply elem_of_sorted_items. }
  split_and!.
  - intros. apply process_guarded_run.
  - exact Hall.
  - intros base_path w. unfold main. rewrite get_files_bind, print_bind.
    set (all_sets := discover_document_sets (files w) base_path).
    set (w0 := {| files := files w; stdout := _ |}).
    destruct (Hall all_sets (sum_list (size <$> values all_sets)) w0)
      as (s & f & w' & Hrun & _ & _).
    rewrite (bind_inr _ _ _ _ _ Hrun). rewrite print_bind. simpl.
    eexists s, f, _. split; [done|]. simpl. by rewrite last_snoc.
Qed.

(** Stage 1 on inputs whose first document set cannot be parsed: the error
    is printed and counted, and the second set is processed. *)
Lemma batch_errors_are_caught_example :
  let run := main_script unparseable_world in
  run.1 = inr (2, 1, 1)
  ∧ EvErrorProcessing "acto"
      (PackageNotFoundError (original_texts /: "Presidente" /: "acto_castellano.docx"))
    ∈ stdout run.2
  ∧ files run.2 !! (extracted_paragraphs /: "Presidente" /: "nota" /: "castellano.txt")
    = Some (TextN (Py.lit "Uno")).
Proof.
  vm_compute. split_and!; [done| |done].
  repeat first [by left | right].
Qed.

(** ** Aligner/Writer *)

Lemma run_actions_cons a plan w :
  run_actions (a :: plan) w = (run_action a ;; run_actions plan) w.
Proof. done. Qed.

Lemma run_actions_app plan1 plan2 w :
  run_actions (plan1 ++ plan2) w = (run_actions plan1 ;; run_actions plan2) w.
Proof.
  revert w. induction plan1 as [|a plan1 IH]; intros w; [done|].
  rewrite <- app_comm_cons, run_actions_cons.
  change (run_actions (a :: plan1)) with (run_action a ;; run_actions plan1).
  rewrite bind_assoc. apply bind_cong; [done|]. intros _ w1. apply IH.
Qed.

Lemma for_run_actions {A} (xs : list A) (f : A → list action) body w :
  (∀ x w, body x w = run_actions (f x) w) →
  for_ xs body w = run_actions (xs ≫= f) w.
Proof.
  intros Hbody. revert w. induction xs as [|x xs IH]; intros w; [done|].
  rewrite bind_cons, run_actions_app. simpl.
  apply bind_cong; [apply Hbody|]. intros _ w1. apply IH.
Qed.

Lemma for_print {A} (xs : list A) (ev : A → event) w :
  for_ xs (λ x, print (ev x)) w = run_actions ((λ x, APrint (ev x)) <$> xs) w.
Proof.
  revert w. induction xs as [|x xs IH]; intros w; [done|].
  rewrite fmap_cons, run_actions_cons. simpl.
  apply bind_cong; [done|]. intros _ w1. apply IH.
Qed.

Lemma min_max_of_None xs : min_of xs = None ↔ max_of xs = None.
Proof. by destruct xs. Qed.

(** The Aligner/Writer raises on an empty document set and otherwise runs
    its plan. *)
Lemma align_and_write_plan all_paragraphs output_base discarded_base
    folder_name doc_name w :
  align_and_write all_paragraphs output_base discarded_base folder_name doc_name w
  = match least_count all_paragraphs, greatest_count all_paragraphs with
    | Some min_count, Some max_count =>
        run_actions (align_plan all_paragraphs output_base discarded_base
                       folder_name doc_name min_count max_count) w
    | _, _ => (inl (ValueError "min() arg is an empty sequence"), w)
    end.
Proof.
  unfold align_and_write, least_count, greatest_count, py_min, py_max.
  destruct (min_of _) as [m|] eqn:Hmin.
  2:{ apply min_max_of_None in Hmin. by rewrite Hmin. }
  destruct (max_of _) as [M|] eqn:Hmax.
  2:{ apply min_max_of_None in Hmax. by rewrite Hmax in Hmin. }
  rewrite !ret_bind. unfold align_plan.
  rewrite run_actions_app. apply bind_cong; [apply for_print|]. intros _ w1.
  rewrite run_actions_app. apply bind_cong.
  { case_decide; [|done]. rewrite run_actions_cons.
    apply bind_cong; [done|]. intros _ w2. unfold save_discarded.
    apply for_run_actions. intros item w3. unfold discard_actions.
    case_decide; [|done]. rewrite !run_actions_cons.
    apply bind_cong; [done|]. intros _ w4.
    apply bind_cong; [done|]. by intros _ w5. }
  intros _ w2. rewrite run_actions_app. apply bind_cong; [|done].
  rewrite run_actions_cons. unfold save_parallel.
  apply bind_cong; [done|]. intros _ w3.
  apply for_run_actions. intros item w4. unfold save_actions.
  rewrite !run_actions_cons.
  apply bind_cong; [done|]. by intros _ w5.
Qed.

(** *** What a plan leaves in the tree *)

Lemma is_dir_ext fs fs' q : fs !! q = fs' !! q → is_dir fs q = is_dir fs' q.
Proof. intros H. unfold is_dir. by rewrite H. Qed.

Lemma is_file_ext fs fs' q : fs !! q = fs' !! q → is_file fs q = is_file fs' q.
Proof. intros H. unfold is_file. by rewrite H. Qed.

Lemma is_dir_DirN (fs : gmap path fnode) q : fs !! q = Some DirN → is_dir fs q = true.
Proof. intros H. unfold is_dir. rewrite H. by destruct q. Qed.

Lemma is_file_DirN (fs : gmap path fnode) q : fs !! q = Some DirN → is_file fs q = false.
Proof. intros H. unfold is_file. rewrite H. by destruct q. Qed.

Lemma is_dir_TextN (fs : gmap path fnode) q c :
  q ≠ [] → fs !! q = Some (TextN c) → is_dir fs q = false.
Proof. intros Hq H. unfold is_dir. rewrite H. by destruct q. Qed.

Lemma mkdirs_lookup (fs : gmap path fnode) (qs : list path) k :
  foldl (λ fs q, <[q := DirN]> fs) fs qs !! k
  = if decide (k ∈ qs) then Some DirN else fs !! k.
Proof.
  revert fs. induction qs as [|q qs IH]; intros fs.
  - cbn [foldl]. destruct (decide (k ∈ [])) as [Hin|]; [by apply elem_of_nil in Hin|done].
  - cbn [foldl]. rewrite IH. destruct (decide (k ∈ qs)) as [Hin|Hnin].
    + by rewrite decide_True by (by right).
    + destruct (decide (q = k)) as [->|Hne].
      * rewrite decide_True by (by left). apply lookup_insert_eq.
      * rewrite decide_False by (intros [?|?]%elem_of_cons; done).
        by apply lookup_insert_ne.
Qed.

Lemma mkdirs_union (fs : gmap path fnode) (qs : list path) :
  foldl (λ fs q, <[q := DirN]> fs) fs qs
  = foldl (λ fs q, <[q := DirN]> fs) ∅ qs ∪ fs.
Proof.
  apply map_eq. intros k. rewrite lookup_union, !mkdirs_lookup, lookup_empty.
  case_decide; [by destruct (fs !! k)|]. by rewrite (left_id None _).
Qed.

Lemma run_action_files a w w' :
  run_action a w = (inr tt, w') → files w' = action_effect a ∪ files w.
Proof.
  destruct a as [p|p c|ev]; simpl.
  - unfold mkdir_parents. destruct (list_find _ _) as [[]|]; [done|].
    intros [= <-]. simpl. apply mkdirs_union.
  - unfold write_text. repeat case_match; try done.
    intros [= <-]. simpl. apply insert_union_singleton_l.
  - unfold print. intros [= <-]. simpl. by rewrite (left_id ∅ _).
Qed.

Lemma run_actions_files plan w w' :
  run_actions plan w = (inr tt, w') → files w' = plan_effect plan ∪ files w.
Proof.
  revert w. induction plan as [|a plan IH]; intros w.
  - intros [= <-]. simpl. by rewrite (left_id ∅ _).
  - rewrite run_actions_cons. intros ([] & w1 & Ha & Hrest)%bind_inr_inv.
    apply IH in Hrest. apply run_action_files in Ha.
    simpl. by rewrite Hrest, Ha, (assoc_L (∪)).
Qed.

Lemma plan_effect_app plan1 plan2 :
  plan_effect (plan1 ++ plan2) = plan_effect plan2 ∪ plan_effect plan1.
Proof.
  induction plan1 as [|a plan1 IH]; simpl.
  - by rewrite (right_id ∅ _).
  - by rewrite IH, (assoc_L (∪)).
Qed.

(** *** When a plan runs to its end *)

Lemma mkdir_parents_ok p w :
  Forall (λ q, is_file (files w) q = false) (prefixes p) →
  mkdir_parents p w
  = (inr tt, set_files (λ fs, foldl (λ fs q, <[q := DirN]> fs) fs (prefixes p)) w).
Proof.
  intros H. unfold mkdir_parents.
  destruct (list_find _ _) as [[i q]|] eqn:Hfind; [|done].
  apply list_find_Some in Hfind as (Hq & Ht & _).
  rewrite Forall_forall in H. apply list_elem_of_lookup_2 in Hq.
  apply H in Hq. by rewrite Hq in Ht.
Qed.

Lemma write_text_ok p c w :
  is_dir (files w) p = false → is_dir (files w) (parent p) = true →
  write_text p c w = (inr tt, set_files (insert p (TextN c)) w).
Proof. intros H1 H2. unfold write_text. by rewrite H1, H2. Qed.

Lemma run_actions_ok plan made w :
  admits (files w) plan →
  Forall (λ t, (t ∉ made) ∧ (t ∉ plan_dirs plan)) (plan_targets plan) →
  ready_from made plan →
  Forall (λ q, is_dir (files w) q = true) made →
  ∃ w', run_actions plan w = (inr tt, w').
Proof.
  revert made w. induction plan as [|a plan IH]; intros made w [Hd Ht] Hsep Hready Hmade.
  { by exists w. }
  rewrite run_actions_cons. destruct a as [p|p c|ev].
  - (* mkdir *)
    change (plan_dirs (AMkdir p :: plan)) with (prefixes p ++ plan_dirs plan) in *.
    change (plan_targets (AMkdir p :: plan)) with (plan_targets plan) in *.
    apply Forall_app in Hd as [Hp Hd].
    simpl. erewrite bind_inr by (by apply mkdir_parents_ok).
    apply (IH (prefixes p ++ made)).
    + split; simpl.
      * rewrite Forall_forall in Hd |- *. intros q Hq.
        destruct (decide (q ∈ prefixes p)).
        -- apply is_file_DirN. rewrite mkdirs_lookup. by rewrite decide_True.
        -- rewrite <- (Hd q Hq). apply is_file_ext.
           rewrite mkdirs_lookup. by rewrite decide_False.
      * rewrite Forall_forall in Ht, Hsep |- *. intros t Hin.
        rewrite <- (Ht t Hin). apply is_dir_ext. rewrite mkdirs_lookup.
        rewrite decide_False; [done|]. intros Hpre.
        destruct (Hsep t Hin) as [_ Hnd]. apply Hnd, elem_of_app. by left.
    + rewrite Forall_forall in Hsep |- *. intros t Hin.
      destruct (Hsep t Hin) as [Hnm Hnd]. split.
      * intros [?|?]%elem_of_app; [|done]. apply Hnd, elem_of_app. by left.
      * intros ?. apply Hnd, elem_of_app. by right.
    + done.
    + simpl. rewrite Forall_forall in Hmade |- *. intros q Hq.
      destruct (decide (q ∈ prefixes p)).
      * apply is_dir_DirN. rewrite mkdirs_lookup. by rewrite decide_True.
      * apply elem_of_app in Hq as [?|Hq]; [done|].
        rewrite <- (Hmade q Hq). apply is_dir_ext.
        rewrite mkdirs_lookup. by rewrite decide_False.
  - (* write *)
    change (plan_dirs (AWrite p c :: plan)) with (plan_dirs plan) in *.
    change (plan_targets (AWrite p c :: plan)) with (p :: plan_targets plan) in *.
    apply Forall_cons in Ht as [Hp Ht]. apply Forall_cons in Hsep as [[Hpm Hpd] Hsep].
    destruct Hready as [Hpar Hready].
    assert (Hpne : p ≠ []) by (by intros ->).
    simpl. erewrite bind_inr.
    2:{ apply write_text_ok; [done|]. destruct Hpar as [->|Hpar]; [done|].
        rewrite Forall_forall in Hmade. by apply Hmade. }
    apply (IH made).
    + split; simpl.
      * rewrite Forall_forall in Hd |- *. intros q Hq.
        rewrite <- (Hd q Hq). apply is_file_ext, lookup_insert_ne. by intros ->.
      * rewrite Forall_forall in Ht |- *. intros t Hin.
        destruct (decide (p = t)) as [<-|Hne].
        -- eapply is_dir_TextN; [done|]. apply lookup_insert_eq.
        -- rewrite <- (Ht t Hin). by apply is_dir_ext, lookup_insert_ne.
    + done.
    + done.
    + simpl. rewrite Forall_forall in Hmade |- *. intros q Hq.
      rewrite <- (Hmade q Hq). apply is_dir_ext, lookup_insert_ne. by intros ->.
  - (* print *)
    simpl. rewrite print_bind. by apply (IH made).
Qed.

(** *** Paths of the Aligner/Writer *)

Lemma string_length_app (a b : string) :
  String.length (a +:+ b) = String.length a + String.length b.
Proof. induction a as [|c a IH]; simpl; [done|]. by rewrite IH. Qed.

Lemma txt_inj a b : txt a = txt b → a = b.
Proof.
  unfold txt. revert b. induction a as [|c a IH]; intros [|d b] H; simpl in H.
  - done.
  - apply (f_equal String.length) in H. simpl in H.
    rewrite string_length_app in H. simpl in H. lia.
  - apply (f_equal String.length) in H. simpl in H.
    rewrite string_length_app in H. simpl in H. lia.
  - injection H as -> H. f_equal. by apply IH.
Qed.

Lemma parent_path_join (p : path) name : parent (p /: name) = p.
Proof.
  unfold parent, path_join. rewrite length_app. simpl.
  replace (length p + 1 - 1) with (length p) by lia. apply take_app_length.
Qed.

Lemma elem_of_prefixes (p q : path) :
  q ∈ prefixes p ↔ ∃ k, k < length p ∧ q = take (S k) p.
Proof.
  unfold prefixes. rewrite list_elem_of_fmap. split.
  - intros (k & -> & Hk). apply elem_of_seq in Hk. exists k. split; [lia|done].
  - intros (k & Hk & ->). exists k. split; [done|]. apply elem_of_seq. lia.
Qed.

Lemma prefixes_length (p q : path) :
  q ∈ prefixes p → 1 ≤ length q ≤ length p.
Proof.
  intros (k & Hk & ->)%elem_of_prefixes. rewrite length_take. lia.
Qed.

Lemma prefixes_full (p q : path) :
  q ∈ prefixes p → length q = length p → q = p.
Proof.
  intros (k & Hk & ->)%elem_of_prefixes. rewrite length_take. intros Hl.
  apply take_ge. lia.
Qed.

Lemma prefixes_self (p : path) name : p /: name ∈ prefixes (p /: name).
Proof.
  apply elem_of_prefixes. exists (length p). unfold path_join.
  rewrite length_app. simpl. split; [lia|].
  symmetry. apply take_ge. rewrite length_app. simpl. lia.
Qed.

Lemma length_path_join (p : path) name : length (p /: name) = S (length p).
Proof. unfold path_join. rewrite length_app. simpl. lia. Qed.

(** A file of a folder is no ancestor of a folder at the same depth. *)
Lemma file_not_in_prefixes (d d' : path) name :
  length d = length d' → d /: name ∉ prefixes d'.
Proof.
  intros Hl Hin%prefixes_length. rewrite length_path_join in Hin. lia.
Qed.

(** *** Lookups in what a plan leaves *)

Lemma action_effect_None a q :
  q ∉ plan_dirs [a] → q ∉ plan_targets [a] → action_effect a !! q = None.
Proof.
  destruct a as [p|p c|ev]; simpl; intros Hd Ht.
  - rewrite mkdirs_lookup, lookup_empty. rewrite decide_False; [done|].
    intros Hin. apply Hd. by rewrite app_nil_r.
  - apply lookup_singleton_ne. intros ->. apply Ht. by left.
  - apply lookup_empty.
Qed.

Lemma plan_dirs_cons a plan : plan_dirs (a :: plan) = plan_dirs [a] ++ plan_dirs plan.
Proof. unfold plan_dirs. simpl. by rewrite app_nil_r. Qed.

Lemma plan_targets_cons a plan :
  plan_targets (a :: plan) = plan_targets [a] ++ plan_targets plan.
Proof. unfold plan_targets. simpl. by rewrite app_nil_r. Qed.

Lemma plan_dirs_app plan1 plan2 :
  plan_dirs (plan1 ++ plan2) = plan_dirs plan1 ++ plan_dirs plan2.
Proof. unfold plan_dirs. apply bind_app. Qed.

Lemma plan_targets_app plan1 plan2 :
  plan_targets (plan1 ++ plan2) = plan_targets plan1 ++ plan_targets plan2.
Proof. unfold plan_targets. apply bind_app. Qed.

(** A path that the plan neither makes nor writes is not in its effect. *)
Lemma plan_effect_None plan q :
  q ∉ plan_dirs plan → q ∉ plan_targets plan → plan_effect plan !! q = None.
Proof.
  induction plan as [|a plan IH]; intros Hd Ht; simpl; [apply lookup_empty|].
  rewrite plan_dirs_cons in Hd. rewrite plan_targets_cons in Ht.
  rewrite elem_of_app in Hd, Ht.
  rewrite lookup_union, IH, action_effect_None by tauto. done.
Qed.

(** The last write to a path decides its content. *)
Lemma plan_effect_last_write plan1 p c plan2 :
  p ∉ plan_dirs plan2 → p ∉ plan_targets plan2 →
  plan_effect (plan1 ++ AWrite p c :: plan2) !! p = Some (TextN c).
Proof.
  intros Hd Ht. rewrite plan_effect_app. simpl.
  rewrite !lookup_union, (plan_effect_None plan2) by done.
  rewrite lookup_singleton_eq. by destruct (plan_effect plan1 !! p).
Qed.

(** A directory made by the plan and written by none of its steps. *)
Lemma plan_effect_dir plan q :
  q ∈ plan_dirs plan → q ∉ plan_targets plan → plan_effect plan !! q = Some DirN.
Proof.
  induction plan as [|a plan IH]; intros Hd Ht.
  { by apply elem_of_nil in Hd. }
  rewrite plan_dirs_cons in Hd. rewrite plan_targets_cons in Ht.
  rewrite elem_of_app in Hd, Ht. simpl. rewrite lookup_union.
  destruct (decide (q ∈ plan_dirs plan)) as [Hin|Hnin].
  - rewrite IH by tauto. by destruct (action_effect a !! q).
  - rewrite plan_effect_None by tauto.
    destruct Hd as [Hd|Hd]; [|done].
    destruct a as [p|p c|ev]; simpl in Hd; try by apply elem_of_nil in Hd.
    simpl. rewrite mkdirs_lookup. rewrite app_nil_r in Hd. by rewrite decide_True.
Qed.

(** *** The plan of the Aligner/Writer *)

Lemma NoDup_sorted_items {V} (d : gmap string V) : NoDup (sorted_items d).*1.
Proof. rewrite sorted_items_perm. apply NoDup_fst_map_to_list. Qed.

Lemma plan_dirs_prints {A} (ev : A → event) (xs : list A) :
  plan_dirs ((λ x, APrint (ev x)) <$> xs) = [].
Proof. induction xs as [|x xs IH]; [done|]. by rewrite fmap_cons, plan_dirs_cons, IH. Qed.

Lemma plan_targets_prints {A} (ev : A → event) (xs : list A) :
  plan_targets ((λ x, APrint (ev x)) <$> xs) = [].
Proof.
  induction xs as [|x xs IH]; [done|]. by rewrite fmap_cons, plan_targets_cons, IH.
Qed.

Lemma plan_dirs_save output_folder (items : list (string * list Py.str)) :
  plan_dirs (items ≫= save_actions output_folder) = [].
Proof.
  induction items as [|item items IH]; [done|].
  by rewrite bind_cons, plan_dirs_app, IH.
Qed.

Lemma plan_targets_save output_folder (items : list (string * list Py.str)) :
  plan_targets (items ≫= save_actions output_folder)
  = (λ item, output_folder /: txt item.1) <$> items.
Proof.
  induction items as [|item items IH]; [done|].
  by rewrite bind_cons, plan_targets_app, IH.
Qed.

Lemma plan_dirs_discard discarded_folder m (items : list (string * list Py.str)) q :
  q ∈ plan_dirs (items ≫= discard_actions discarded_folder m) →
  q ∈ prefixes discarded_folder.
Proof.
  induction items as [|item items IH]; [by intros ?%elem_of_nil|].
  rewrite bind_cons, plan_dirs_app, elem_of_app. intros [Hq|Hq]; [|by apply IH].
  unfold discard_actions in Hq. case_decide; [|by apply elem_of_nil in Hq].
  unfold plan_dirs in Hq. simpl in Hq. by rewrite !app_nil_r in Hq.
Qed.

Lemma plan_targets_discard discarded_folder m (items : list (string * list Py.str)) t :
  t ∈ plan_targets (items ≫= discard_actions discarded_folder m) →
  ∃ item, item ∈ items ∧ t = discarded_folder /: txt item.1.
Proof.
  induction items as [|item items IH]; [by intros ?%elem_of_nil|].
  rewrite bind_cons, plan_targets_app, elem_of_app. intros [Ht|Ht].
  - unfold discard_actions in Ht. case_decide; [|by apply elem_of_nil in Ht].
    unfold plan_targets in Ht. simpl in Ht. apply list_elem_of_singleton in Ht.
    exists item. split; [by left|done].
  - destruct (IH Ht) as (it & Hin & ->). exists it. split; [by right|done].
Qed.

Lemma path_join_txt_inj (d d' : path) k k' :
  d /: txt k = d' /: txt k' → d = d' ∧ k = k'.
Proof. intros [-> Ht]%path_join_inj. split; [done|by apply txt_inj]. Qed.

Lemma elem_of_plan_dirs plan q :
  q ∈ plan_dirs plan ↔ ∃ p, AMkdir p ∈ plan ∧ q ∈ prefixes p.
Proof.
  unfold plan_dirs. rewrite list_elem_of_bind. split.
  - intros (a & Hq & Ha). destruct a as [p| |]; try by apply elem_of_nil in Hq.
    by exists p.
  - intros (p & Ha & Hq). by exists (AMkdir p).
Qed.

Lemma elem_of_plan_targets plan t :
  t ∈ plan_targets plan ↔ ∃ c, AWrite t c ∈ plan.
Proof.
  unfold plan_targets. rewrite list_elem_of_bind. split.
  - intros (a & Ht & Ha). destruct a as [|p c|]; try by apply elem_of_nil in Ht.
    apply list_elem_of_singleton in Ht as ->. by exists c.
  - intros (c & Ha). exists (AWrite t c). split; [by left|done].
Qed.

Lemma elem_of_discard_actions discarded_folder m (items : list (string * list Py.str)) a :
  a ∈ items ≫= discard_actions discarded_folder m →
  ∃ k v, (k, v) ∈ items ∧ m < length v
         ∧ (a = AMkdir discarded_folder
            ∨ a = AWrite (discarded_folder /: txt k) (Py.join para_sep (drop m v))
            ∨ ∃ ev, a = APrint ev).
Proof.
  intros ([k v] & Ha & Hin)%list_elem_of_bind. unfold discard_actions in Ha.
  case_decide; [|by apply elem_of_nil in Ha]. exists k, v. split_and!; [done..|].
  simpl in Ha. rewrite !elem_of_cons in Ha.
  destruct Ha as [->|[->|[->|Ha]]]; [by left|by right; left|right; right; by eexists|].
  by apply elem_of_nil in Ha.
Qed.

Lemma elem_of_save_actions output_folder (items : list (string * list Py.str)) a :
  a ∈ items ≫= save_actions output_folder →
  ∃ k v, (k, v) ∈ items
         ∧ (a = AWrite (output_folder /: txt k) (Py.join para_sep v)
            ∨ ∃ ev, a = APrint ev).
Proof.
  intros ([k v] & Ha & Hin)%list_elem_of_bind. unfold save_actions in Ha.
  exists k, v. split; [done|]. simpl in Ha. rewrite !elem_of_cons in Ha.
  destruct Ha as [->|[->|Ha]]; [by left|right; by eexists|].
  by apply elem_of_nil in Ha.
Qed.

(** The writes of a list of items with distinct keys: each key gets the
    content of its item. *)
Lemma plan_effect_save before output_folder (items : list (string * list Py.str))
    after k v :
  NoDup items.*1 → (k, v) ∈ items →
  plan_dirs after = [] → plan_targets after = [] →
  plan_effect (before ++ (items ≫= save_actions output_folder) ++ after)
    !! (output_folder /: txt k)
  = Some (TextN (Py.join para_sep v)).
Proof.
  intros Hnd Hin Hda Hta.
  apply list_elem_of_split in Hin as (i1 & i2 & ->).
  rewrite bind_app, bind_cons. unfold save_actions at 2. simpl.
  rewrite <- !app_assoc. simpl. rewrite app_assoc.
  apply plan_effect_last_write.
  - rewrite plan_dirs_cons, plan_dirs_app, plan_dirs_save, Hda. simpl.
    apply not_elem_of_nil.
  - rewrite plan_targets_cons, plan_targets_app, plan_targets_save, Hta. simpl.
    rewrite app_nil_r. intros ([k' v'] & Heq & Hin')%list_elem_of_fmap.
    apply path_join_txt_inj in Heq as [_ Hkk]. simpl in Hkk. subst k'.
    rewrite fmap_app, fmap_cons in Hnd. apply NoDup_app in Hnd as (_ & _ & Hnd).
    apply NoDup_cons in Hnd as [Hk _]. apply Hk. simpl.
    apply list_elem_of_fmap. by exists (k, v').
Qed.

Lemma ready_from_mono made made' plan :
  made ⊆ made' → ready_from made plan → ready_from made' plan.
Proof.
  revert made made'. induction plan as [|a plan IH]; intros made made' Hsub; [done|].
  destruct a as [p|p c|ev]; simpl.
  - apply IH. intros q [?|?]%elem_of_app; apply elem_of_app; [by left|right; by apply Hsub].
  - intros [[?|?] ?]; (split; [|by eapply IH]); [by left|right; by apply Hsub].
  - by apply IH.
Qed.

Lemma ready_from_app made plan1 plan2 :
  ready_from made plan1 → (∀ made', made ⊆ made' → ready_from made' plan2) →
  ready_from made (plan1 ++ plan2).
Proof.
  revert made. induction plan1 as [|a plan1 IH]; intros made H1 H2.
  { by apply H2. }
  destruct a as [p|p c|ev]; simpl in *.
  - apply IH; [done|]. intros made' Hsub. apply H2.
    intros q Hq. apply Hsub, elem_of_app. by right.
  - destruct H1 as [? H1]. split; [done|]. by apply IH.
  - by apply IH.
Qed.

Lemma ready_from_prints {A} made (ev : A → event) (xs : list A) :
  ready_from made ((λ x, APrint (ev x)) <$> xs).
Proof. by induction xs. Qed.

Lemma ready_from_discard made (d : path) name m (items : list (string * list Py.str)) :
  ready_from made (items ≫= discard_actions (d /: name) m).
Proof.
  revert made. induction items as [|item items IH]; intros made; [done|].
  rewrite bind_cons. apply ready_from_app; [|intros; apply IH].
  unfold discard_actions. case_decide; [|done]. simpl. split; [|done].
  right. rewrite parent_path_join. apply elem_of_app. left. apply prefixes_self.
Qed.

Lemma ready_from_save made output_folder (items : list (string * list Py.str)) :
  output_folder ∈ made → ready_from made (items ≫= save_actions output_folder).
Proof.
  intros Hin. induction items as [|item items IH]; [done|].
  rewrite bind_cons. simpl. split; [|done]. right. by rewrite parent_path_join.
Qed.

(** *** The least and the greatest count *)

Lemma foldl_min_spec (a : nat) (l : list nat) :
  let m := foldl Nat.min a l in
  (m = a ∨ m ∈ l) ∧ m ≤ a ∧ ∀ x, x ∈ l → m ≤ x.
Proof.
  revert a. induction l as [|b l IH]; intros a; simpl.
  - split_and!; [by left|done|by intros ? ?%elem_of_nil].
  - destruct (IH (a `min` b)) as (Hin & Hle & Hall). split_and!.
    + destruct Hin as [Hin|Hin]; [|right; by right].
      rewrite Hin. destruct (Nat.min_spec a b) as [[_ ->]|[_ ->]]; [by left|right; by left].
    + lia.
    + intros x [->|Hx]%elem_of_cons; [lia|by apply Hall].
Qed.


Lemma min_of_spec xs m : min_of xs = Some m → m ∈ xs ∧ ∀ x, x ∈ xs → m ≤ x.
Proof.
  destruct xs as [|a l]; [done|]. intros [= <-].
  destruct (foldl_min_spec a l) as ([Hin|Hin] & Hle & Hall); split.
  - rewrite Hin. by left.
  - intros x [->|Hx]%elem_of_cons; [done|by apply Hall].
  - by right.
  - intros x [->|Hx]%elem_of_cons; [done|by apply Hall].
Qed.


Lemma elem_of_counts (all_paragraphs : gmap string (list Py.str)) n :
  n ∈ values (length <$> all_paragraphs)
  ↔ ∃ k v, all_paragraphs !! k = Some v ∧ n = length v.
Proof.
  unfold values. rewrite list_elem_of_fmap. split.
  - intros ([k x] & -> & Hin). apply elem_of_map_to_list in Hin.
    rewrite lookup_fmap in Hin. destruct (all_paragraphs !! k) as [v|] eqn:Hv; [|done].
    injection Hin as <-. by exists k, v.
  - intros (k & v & Hk & ->). exists (k, length v). split; [done|].
    apply elem_of_map_to_list. by rewrite lookup_fmap, Hk.
Qed.

(** The least count is the length of one of the sequences and is at most
    the length of each. *)
Lemma least_count_spec (all_paragraphs : gmap string (list Py.str)) m :
  least_count all_paragraphs = Some m →
  (∃ k v, all_paragraphs !! k = Some v ∧ length v = m)
  ∧ ∀ k v, all_paragraphs !! k = Some v → m ≤ length v.
Proof.
  intros [Hin Hall]%min_of_spec. split.
  - apply elem_of_counts in Hin as (k & v & Hk & ->). by exists k, v.
  - intros k v Hk. apply Hall, elem_of_counts. by exists k, v.
Qed.


Lemma counts_exist (all_paragraphs : gmap string (list Py.str)) :
  all_paragraphs ≠ ∅ →
  ∃ m M, least_count all_paragraphs = Some m ∧ greatest_count all_paragraphs = Some M.
Proof.
  intros Hne. unfold least_count, greatest_count.
  destruct (values (length <$> all_paragraphs)) as [|a l] eqn:Hv.
  - destruct Hne. apply map_empty. intros k.
    destruct (all_paragraphs !! k) as [v|] eqn:Hk; [|done].
    assert (length v ∈ values (length <$> all_paragraphs)) as Hin
      by (apply elem_of_counts; by exists k, v).
    rewrite Hv in Hin. by apply elem_of_nil in Hin.
  - by eexists _, _.
Qed.

(** A path that no step writes holds a directory, if the plan leaves
    anything there; a path that no step makes holds a text file. *)
Lemma plan_effect_no_file plan q :
  q ∉ plan_targets plan →
  plan_effect plan !! q = None ∨ plan_effect plan !! q = Some DirN.
Proof.
  intros Ht. destruct (decide (q ∈ plan_dirs plan)).
  - right. by apply plan_effect_dir.
  - left. by apply plan_effect_None.
Qed.

Lemma plan_effect_no_dir plan t :
  t ∉ plan_dirs plan →
  plan_effect plan !! t = None ∨ ∃ c, plan_effect plan !! t = Some (TextN c).
Proof.
  induction plan as [|a plan IH]; intros Hd; [left; apply lookup_empty|].
  rewrite plan_dirs_cons, elem_of_app in Hd. simpl.
  destruct IH as [Hn|[c Hc]]; [tauto| |].
  - rewrite (lookup_union_r _ _ _ Hn).
    destruct a as [p|p c|ev]; simpl.
    + left. rewrite mkdirs_lookup, lookup_empty. rewrite decide_False; [done|].
      intros Hin. apply Hd. left. unfold plan_dirs. simpl. by rewrite app_nil_r.
    + destruct (decide (p = t)) as [->|Hne].
      * right. exists c. apply lookup_singleton_eq.
      * left. by apply lookup_singleton_ne.
    + left. apply lookup_empty.
  - right. exists c. by apply lookup_union_Some_l.
Qed.

Section layout.
Context (output_base : path) (folder_name doc_name : string).
Context (Hfolder : folder_name ≠ "discarded_texts").

Let output_folder := output_base /: folder_name /: doc_name.
Let discarded_folder := output_base /: "discarded_texts" /: doc_name.


Local Lemma folders_length : length discarded_folder = length output_folder.
Proof. unfold discarded_folder, output_folder. by rewrite !length_path_join. Qed.


Lemma discard_file_not_on_output_way k :
  discarded_folder /: txt k ∉ prefixes output_folder.
Proof. apply file_not_in_prefixes, folders_length. Qed.

Lemma output_file_not_on_discard_way k :
  output_folder /: txt k ∉ prefixes discarded_folder.
Proof. apply file_not_in_prefixes. symmetry. apply folders_length. Qed.

Lemma file_not_on_own_way (d : path) k : d /: txt k ∉ prefixes d.
Proof. by apply file_not_in_prefixes. Qed.


(** The output file of a language holds the first [min_count] paragraphs. *)
Lemma plan_effect_output all_paragraphs discarded_base min_count max_count k v :
  all_paragraphs !! k = Some v →
  plan_effect (align_plan all_paragraphs output_base discarded_base
                 folder_name doc_name min_count max_count)
    !! (output_folder /: txt k)
  = Some (TextN (Py.join para_sep (take min_count v))).
Proof.
  intros Hk. unfold align_plan. fold output_folder.
  match goal with
  | |- plan_effect (?pr ++ ?mid ++ (?mk :: ?saves) ++ ?tl) !! _ = _ =>
      replace (pr ++ mid ++ (mk :: saves) ++ tl)
        with ((pr ++ mid ++ [mk]) ++ saves ++ tl)
        by (by rewrite <- !app_assoc)
  end.
  apply plan_effect_save; [apply NoDup_sorted_items| |done|done].
  apply elem_of_sorted_items. by rewrite lookup_fmap, Hk.
Qed.


(** What the plan makes and what it writes. *)
Lemma align_plan_dirs all_paragraphs min_count max_count q :
  q ∈ plan_dirs (align_plan all_paragraphs output_base
                   (output_base /: "discarded_texts") folder_name doc_name
                   min_count max_count) →
  q ∈ prefixes output_folder ++ prefixes discarded_folder.
Proof.
  intros (p & Ha & Hp)%elem_of_plan_dirs. unfold align_plan in Ha.
  fold output_folder discarded_folder in Ha. rewrite elem_of_app.
  apply elem_of_app in Ha as [Ha|Ha].
  { by apply list_elem_of_fmap in Ha as (? & ? & _). }
  apply elem_of_app in Ha as [Ha|Ha].
  - right. case_decide; [|by apply list_elem_of_singleton in Ha].
    apply elem_of_cons in Ha as [Ha|Ha]; [done|].
    apply elem_of_discard_actions in Ha as (k' & v' & _ & _ & [Ha|[Ha|[ev Ha]]]);
      [|done..].
    by injection Ha as ->.
  - left. apply elem_of_app in Ha as [Ha|Ha]; [|by apply list_elem_of_singleton in Ha].
    apply elem_of_cons in Ha as [Ha|Ha]; [by injection Ha as ->|].
    by apply elem_of_save_actions in Ha as (k' & v' & _ & [Ha|[ev Ha]]).
Qed.

Lemma align_plan_targets all_paragraphs min_count max_count t :
  t ∈ plan_targets (align_plan all_paragraphs output_base
                      (output_base /: "discarded_texts") folder_name doc_name
                      min_count max_count) →
  ∃ k, k ∈ (map_to_list all_paragraphs).*1
       ∧ (t = output_folder /: txt k ∨ t = discarded_folder /: txt k).
Proof.
  intros (c & Ha)%elem_of_plan_targets. unfold align_plan in Ha.
  fold output_folder discarded_folder in Ha.
  assert (Hkey : ∀ k (v : list Py.str), (k, v) ∈ sorted_items all_paragraphs →
                 k ∈ (map_to_list all_paragraphs).*1).
  { intros k v Hin. rewrite sorted_items_perm in Hin.
    apply list_elem_of_fmap. by exists (k, v). }
  apply elem_of_app in Ha as [Ha|Ha].
  { by apply list_elem_of_fmap in Ha as (? & ? & _). }
  apply elem_of_app in Ha as [Ha|Ha].
  - case_decide; [|by apply list_elem_of_singleton in Ha].
    apply elem_of_cons in Ha as [Ha|Ha]; [done|].
    apply elem_of_discard_actions in Ha as (k' & v' & Hin & _ & [Ha|[Ha|[ev Ha]]]);
      [done| |done].
    injection Ha as -> _. exists k'. split; [by eapply Hkey|by right].
  - apply elem_of_app in Ha as [Ha|Ha]; [|by apply list_elem_of_singleton in Ha].
    apply elem_of_cons in Ha as [Ha|Ha]; [done|].
    apply elem_of_save_actions in Ha as (k' & v' & Hin & [Ha|[ev Ha]]); [|done].
    injection Ha as -> _. exists k'. split; [|by left].
    apply elem_of_sorted_items in Hin. rewrite lookup_fmap in Hin.
    destruct (all_paragraphs !! k') as [v0|] eqn:Hv0; [|done].
    apply (Hkey k' v0). by apply elem_of_sorted_items.
Qed.
Lemma align_plan_ready all_paragraphs min_count max_count :
  ready_from [] (align_plan all_paragraphs output_base
                   (output_base /: "discarded_texts") folder_name doc_name
                   min_count max_count).
Proof.
  unfold align_plan. apply ready_from_app; [apply ready_from_prints|].
  intros made1 _. apply ready_from_app.
  { case_decide; [|done]. simpl. apply ready_from_discard. }
  intros made2 _. apply ready_from_app; [|done].
  simpl. apply ready_from_save. apply elem_of_app. left. apply prefixes_self.
Qed.

(** On a writable tree the plan runs to its end. *)
Lemma align_plan_runs all_paragraphs min_count max_count w :
  writable (files w) output_base folder_name doc_name (map_to_list all_paragraphs).*1 →
  ∃ w', run_actions (align_plan all_paragraphs output_base
                       (output_base /: "discarded_texts") folder_name doc_name
                       min_count max_count) w = (inr tt, w').
Proof.
  intros [Hways Hfiles].
  pose proof (proj1 (Forall_forall _ _) Hways) as Hways'.
  pose proof (proj1 (Forall_forall _ _) Hfiles) as Hfiles'.
  clear Hways Hfiles. rename Hways' into Hways, Hfiles' into Hfiles.
  apply (run_actions_ok _ []).
  - split; apply Forall_forall.
    + intros q Hq%align_plan_dirs. by apply Hways.
    + intros t (k & Hk & [->| ->])%align_plan_targets; by apply Hfiles.
  - apply Forall_forall. intros t (k & Hk & Ht)%align_plan_targets.
    split; [apply not_elem_of_nil|].
    intros [Hq|Hq]%align_plan_dirs%elem_of_app; destruct Ht as [-> | ->].
    + by apply file_not_on_own_way in Hq.
    + by apply discard_file_not_on_output_way in Hq.
    + by apply output_file_not_on_discard_way in Hq.
    + by apply file_not_on_own_way in Hq.
  - apply align_plan_ready.
  - constructor.
Qed.

(** After a run on a writable tree the tree is writable again. *)
Lemma writable_after all_paragraphs min_count max_count fs :
  writable fs output_base folder_name doc_name (map_to_list all_paragraphs).*1 →
  writable
    (plan_effect (align_plan all_paragraphs output_base
                    (output_base /: "discarded_texts") folder_name doc_name
                    min_count max_count) ∪ fs)
    output_base folder_name doc_name (map_to_list all_paragraphs).*1.
Proof.
  intros [Hways Hfiles].
  pose proof (proj1 (Forall_forall _ _) Hways) as Hways'.
  pose proof (proj1 (Forall_forall _ _) Hfiles) as Hfiles'.
  clear Hways Hfiles. rename Hways' into Hways, Hfiles' into Hfiles.
  set (plan := align_plan _ _ _ _ _ _ _).
  assert (Hnt : ∀ q, q ∈ prefixes output_folder ++ prefixes discarded_folder →
                     q ∉ plan_targets plan).
  { intros q Hq (k & _ & Ht)%align_plan_targets.
    apply elem_of_app in Hq as [Hq|Hq]; destruct Ht as [-> | ->].
    - by apply file_not_on_own_way in Hq.
    - by apply discard_file_not_on_output_way in Hq.
    - by apply output_file_not_on_discard_way in Hq.
    - by apply file_not_on_own_way in Hq. }
  assert (Hnd : ∀ k, (output_folder /: txt k ∉ plan_dirs plan)
                     ∧ (discarded_folder /: txt k ∉ plan_dirs plan)).
  { intros k. split; intros [Hq|Hq]%align_plan_dirs%elem_of_app.
    - by apply file_not_on_own_way in Hq.
    - by apply output_file_not_on_discard_way in Hq.
    - by apply discard_file_not_on_output_way in Hq.
    - by apply file_not_on_own_way in Hq. }
  assert (Hfile : ∀ t, t ≠ [] → t ∉ plan_dirs plan → is_dir fs t = false →
                       is_dir (plan_effect plan ∪ fs) t = false).
  { intros t Hne Hd Hfs.
    destruct (plan_effect_no_dir plan t Hd) as [Hn|[c Hc]].
    - rewrite <- Hfs. apply is_dir_ext. by rewrite lookup_union_r.
    - eapply is_dir_TextN; [done|]. by erewrite lookup_union_Some_l. }
  split; apply Forall_forall.
  - intros q Hq. pose proof (Hnt q Hq) as Ht.
    destruct (plan_effect_no_file plan q Ht) as [Hn|Hdir].
    + rewrite <- (Hways q Hq). apply is_file_ext. by rewrite lookup_union_r.
    + apply is_file_DirN. by erewrite lookup_union_Some_l.
  - intros k Hk. destruct (Hfiles k Hk) as [Ho Hd]. destruct (Hnd k) as [Hno Hnd'].
    split; (apply Hfile; [apply path_join_nonempty|done|done]).
Qed.
End layout.

Lemma lookup_after_plan plan w w' q :
  run_actions plan w = (inr tt, w') →
  files w' !! q = match plan_effect plan !! q with
                  | Some node => Some node
                  | None => files w !! q
                  end.
Proof.
  intros ->%run_actions_files. rewrite lookup_union.
  destruct (plan_effect plan !! q); [by destruct (files w !! q)|].
  by rewrite (left_id None _).
Qed.



(** C9: run twice on the same paragraph sequences (from a tree that lets it
    write), the Aligner/Writer runs to its end both times and the second
    run leaves every file, output and discard files included, exactly as
    the first run left it. *)
Theorem align_and_write_idempotent
    (all_paragraphs : gmap string (list Py.str)) output_base folder_name doc_name w :
  writable (files w) output_base folder_name doc_name (map_to_list all_paragraphs).*1 →
  all_paragraphs ≠ ∅ →
  ∃ w1 w2,
    align_and_write all_paragraphs output_base (output_base /: "discarded_texts")
      folder_name doc_name w = (inr tt, w1)
    ∧ align_and_write all_paragraphs output_base (output_base /: "discarded_texts")
        folder_name doc_name w1 = (inr tt, w2)
    ∧ files w2 = files w1.
Proof.
  intros Hw Hne.
  destruct (counts_exist all_paragraphs Hne) as (m & M & Hm & HM).
  destruct (align_plan_runs output_base folder_name doc_name
              all_paragraphs m M w Hw) as [w1 Hrun1].
  pose proof (run_actions_files _ _ _ Hrun1) as Hf1.
  assert (Hw1 : writable (files w1) output_base folder_name doc_name
                  (map_to_list all_paragraphs).*1).
  { rewrite Hf1. by apply writable_after. }
  destruct (align_plan_runs output_base folder_name doc_name
              all_paragraphs m M w1 Hw1) as [w2 Hrun2].
  pose proof (run_actions_files _ _ _ Hrun2) as Hf2.
  exists w1, w2. split_and!.
  - by rewrite align_and_write_plan, Hm, HM.
  - by rewrite align_and_write_plan, Hm, HM.
  - rewrite Hf2, Hf1. by rewrite (assoc_L (∪)), (idemp_L (∪)).
Qed.

Lemma fresh_world_writable output_base folder_name doc_name langs :
  writable (files fresh_world) output_base folder_name doc_name langs.
Proof.
  assert (Hdir : ∀ q : path, q ≠ [] → is_dir (∅ : gmap path fnode) q = false).
  { intros [|n q] Hq; [done|]. unfold is_dir. by rewrite lookup_empty. }
  split; apply Forall_forall; intros x _; simpl.
  - unfold is_file. rewrite lookup_empty. by destruct x.
  - split; apply Hdir, path_join_nonempty.
Qed.



(** The witness of C9: two runs on [nota] of the scenario. *)
Lemma align_and_write_twice_scenario :
  ∃ w1 w2,
    align_and_write nota_paragraphs extracted_paragraphs discarded_texts
      "Presidente" "nota" fresh_world = (inr tt, w1)
    ∧ align_and_write nota_paragraphs extracted_paragraphs discarded_texts
        "Presidente" "nota" w1 = (inr tt, w2)
    ∧ files w2 = files w1.
Proof.
  apply (align_and_write_idempotent nota_paragraphs extracted_paragraphs
           "Presidente" "nota" fresh_world).
  - apply fresh_world_writable.
  - intros H. apply (f_equal (λ m : gmap string (list Py.str), m !! "eu_ES")) in H.
    vm_compute in H. discriminate H.
Defined.

(** ** Consolidator *)

Lemma read_paragraphs_inv lang_file w ps w' :
  read_paragraphs lang_file w = (inr ps, w') →
  w' = w ∧ ∃ content, files w !! lang_file = Some (TextN content)
                      ∧ ps = text_paragraphs content.
Proof.
  unfold read_paragraphs, bind, read_text.
  destruct lang_file as [|n p]; [done|].
  destruct (files w !! (n :: p)) as [[|c|d]|] eqn:Hf; try done.
  intros [= <- <-]. split; [done|]. by exists c.
Qed.

(** What the reading loop has after a listing: every list was read from a
    file of the listing that [LANG_MAPPING] assigns to its language, and
    while [paragraph_count] is 0 every list read so far is empty. *)
Lemma read_document_inv doc_dir txt_names w st w' :
  read_document doc_dir txt_names w = (inr st, w') →
  w' = w
  ∧ (∀ lang ps, st.1 !! lang = Some ps →
       ∃ name content,
         name ∈ txt_names ∧ LANG_MAPPING_get (stem name) = Some lang
         ∧ files w !! (doc_dir /: name) = Some (TextN content)
         ∧ ps = text_paragraphs content)
  ∧ (st.2 = 0 → ∀ lang ps, st.1 !! lang = Some ps → ps = []).
Proof.
  unfold read_document.
  assert (Hgen : ∀ names (st0 st : gmap string (list Py.str) * nat) w',
    fold_io names st0
      (λ st name,
         match LANG_MAPPING_get (stem name) with
         | Some lang_code =>
             paragraphs <- read_paragraphs (doc_dir /: name) ;;
             ret (<[lang_code := paragraphs]> st.1,
                  if decide (st.2 = 0) then length paragraphs else st.2)
         | None => ret st
         end) w = (inr st, w') →
    w' = w
    ∧ (∀ lang ps, st.1 !! lang = Some ps →
         st0.1 !! lang = Some ps
         ∨ ∃ name content,
             name ∈ names ∧ LANG_MAPPING_get (stem name) = Some lang
             ∧ files w !! (doc_dir /: name) = Some (TextN content)
             ∧ ps = text_paragraphs content)
    ∧ ((st0.2 = 0 → ∀ lang ps, st0.1 !! lang = Some ps → ps = []) →
       st.2 = 0 → ∀ lang ps, st.1 !! lang = Some ps → ps = [])).
  { induction names as [|name names IH]; intros st0 st1 w1.
    - intros [= <- <-]. split_and!; [done|by left; done|done].
    - rewrite fold_io_cons.
      destruct (LANG_MAPPING_get (stem name)) as [lang_code|] eqn:Hget.
      + destruct (read_paragraphs (doc_dir /: name) w) as [[e|ps0] w0] eqn:Hread.
        { by rewrite (bind_inl _ _ _ _ _ Hread). }
        rewrite (bind_inr _ _ _ _ _ Hread). unfold ret at 1.
        apply read_paragraphs_inv in Hread as [-> (c & Hc & ->)].
        intros Hrest. apply IH in Hrest as (-> & Hfrom & Hzero).
        split_and!; [done| |].
        * intros lang ps Hl. destruct (Hfrom lang ps Hl) as [Hold|(n' & c' & Hin & ?)].
          -- simpl in Hold. rewrite lookup_insert in Hold. case_decide as Heq.
             ++ injection Hold as <-. subst lang. right. exists name, c.
                split_and!; [by left|done|done|done].
             ++ by left.
          -- right. exists n', c'. split; [by right|done].
        * intros H0 Hst. apply Hzero; [|done]. simpl. case_decide as Hz.
          -- intros Hlen lang ps. rewrite lookup_insert. case_decide.
             ++ intros [= <-]. by apply nil_length_inv.
             ++ by apply H0.
          -- done.
      + intros Hrest. apply IH in Hrest as (-> & Hfrom & Hzero).
        split_and!; [done| |done].
        intros lang ps Hl. destruct (Hfrom lang ps Hl) as [?|(n' & c' & Hin & ?)];
          [by left|]. right. exists n', c'. split; [by right|done]. }
  intros Hrun. apply Hgen in Hrun as (-> & Hfrom & Hzero). split_and!; [done| |].
  - intros lang ps Hl. destruct (Hfrom lang ps Hl) as [Hold|?]; [|done].
    simpl in Hold. by rewrite lookup_empty in Hold.
  - apply Hzero. intros _ lang ps. simpl. by rewrite lookup_empty.
Qed.

Lemma size_gt_1 (X : gset nat) : 1 < size X ↔ ∃ x y, x ∈ X ∧ y ∈ X ∧ x ≠ y.
Proof.
  split.
  - intros Hsize. destruct (size_pos_elem_of X) as [x Hx]; [lia|].
    destruct (size_pos_elem_of (X ∖ {[x]})) as [y Hy].
    { rewrite size_difference by (by apply singleton_subseteq_l).
      rewrite size_singleton. lia. }
    apply elem_of_difference in Hy as [Hy Hne]. exists x, y.
    split_and!; [done|done|]. intros ->. apply Hne. by apply elem_of_singleton.
  - intros (x & y & Hx & Hy & Hne).
    destruct (decide (1 < size X)) as [|Hle]; [done|].
    destruct (decide (size X = 0)) as [H0|H0].
    + apply size_empty_inv in H0. rewrite H0 in Hx. by apply not_elem_of_empty in Hx.
    + destruct Hne. apply (size_singleton_inv X); [lia|done|done].
Qed.

Lemma distinct_counts_differ (doc_paragraphs : gmap string (list Py.str)) :
  1 < size (distinct_counts (length <$> doc_paragraphs)) ↔ counts_differ doc_paragraphs.
Proof.
  rewrite size_gt_1. unfold counts_differ. split.
  - intros (x & y & Hx & Hy & Hne).
    apply distinct_counts_elem in Hx as [l1 H1]. apply distinct_counts_elem in Hy as [l2 H2].
    rewrite lookup_fmap in H1, H2.
    destruct (doc_paragraphs !! l1) as [ps1|] eqn:E1; [|done].
    destruct (doc_paragraphs !! l2) as [ps2|] eqn:E2; [|done].
    injection H1 as <-. injection H2 as <-. by exists l1, ps1, l2, ps2.
  - intros (l1 & ps1 & l2 & ps2 & H1 & H2 & Hne).
    exists (length ps1), (length ps2). split_and!; [| |done].
    + apply distinct_counts_elem. exists l1. by rewrite lookup_fmap, H1.
    + apply distinct_counts_elem. exists l2. by rewrite lookup_fmap, H2.
Qed.

Lemma as_lines_cons (x : Py.str) (paragraphs : list Py.str) :
  as_lines (x :: paragraphs) = (x ++ [Py.LF]) ++ as_lines paragraphs.
Proof. done. Qed.

(** The paragraphs of one language go to its stream, one per line. *)
Lemma stream_writes_run p (paragraphs : list Py.str) w w' :
  for_ paragraphs (λ paragraph, stream_write p (paragraph ++ [Py.LF])) w = (inr tt, w') →
  stdout w' = stdout w
  ∧ (∀ c, files w !! p = Some (TextN c) →
          files w' !! p = Some (TextN (c ++ as_lines paragraphs)))
  ∧ ∀ q, q ≠ p → files w' !! q = files w !! q.
Proof.
  revert w. induction paragraphs as [|x paragraphs IH]; intros w.
  - intros [= <-]. split_and!; [done| |done]. intros c Hc. by rewrite app_nil_r.
  - rewrite for_cons. unfold stream_write at 1.
    destruct (files w !! p) as [[|c0|]|] eqn:Hp; try done.
    intros (Hout & Hfile & Hother)%IH. split_and!.
    + exact Hout.
    + intros c [= <-]. rewrite as_lines_cons, app_assoc.
      apply Hfile. simpl. apply lookup_insert_eq.
    + intros q Hq. rewrite (Hother q Hq). simpl. by apply lookup_insert_ne.
Qed.

Lemma write_streams_run output_dir (doc_paragraphs : gmap string (list Py.str))
    (langs : list string) w w' :
  NoDup langs →
  for_ langs
    (λ lang_code,
       match doc_paragraphs !! lang_code with
       | Some paragraphs =>
           for_ paragraphs
             (λ paragraph,
                stream_write (output_dir /: txt lang_code) (paragraph ++ [Py.LF]))
       | None => ret tt
       end) w = (inr tt, w') →
  stdout w' = stdout w
  ∧ (∀ lang c, lang ∈ langs → files w !! (output_dir /: txt lang) = Some (TextN c) →
       files w' !! (output_dir /: txt lang)
       = Some (TextN (c ++ as_lines (default [] (doc_paragraphs !! lang)))))
  ∧ ∀ q, (∀ lang, lang ∈ langs → q ≠ output_dir /: txt lang) →
         files w' !! q = files w !! q.
Proof.
  revert w. induction langs as [|l langs IH]; intros w Hnd.
  - intros [= <-]. split_and!; [done| |done]. by intros ?? ?%elem_of_nil.
  - apply NoDup_cons in Hnd as [Hl Hnd]. rewrite for_cons.
    assert (Hstep : ∀ w1,
      match doc_paragraphs !! l with
      | Some paragraphs =>
          for_ paragraphs
            (λ paragraph, stream_write (output_dir /: txt l) (paragraph ++ [Py.LF]))
      | None => ret tt
      end w = (inr tt, w1) →
      stdout w1 = stdout w
      ∧ (∀ c, files w !! (output_dir /: txt l) = Some (TextN c) →
              files w1 !! (output_dir /: txt l)
              = Some (TextN (c ++ as_lines (default [] (doc_paragraphs !! l)))))
      ∧ ∀ q, q ≠ output_dir /: txt l → files w1 !! q = files w !! q).
    { intros w1. destruct (doc_paragraphs !! l) as [ps|]; simpl.
      - apply stream_writes_run.
      - intros [= <-]. split_and!; [done| |done]. intros c Hc. by rewrite app_nil_r. }
    cbv beta.
    match goal with
    | |- match ?x with _ => _ end = _ → _ => destruct x as [[e|[]] w1] eqn:Hb
    end; [done|].
    destruct (Hstep w1 eq_refl) as (Hout1 & Hfile1 & Hother1).
    intros (Hout & Hfile & Hother)%IH; [|done]. split_and!.
    + by rewrite Hout.
    + intros lang c [->|Hin]%elem_of_cons Hc.
      * rewrite Hother; [by apply Hfile1|].
        intros l' Hl' [_ ->]%path_join_txt_inj. done.
      * apply Hfile; [done|]. rewrite Hother1; [done|].
        intros [_ ->]%path_join_txt_inj. done.
    + intros q Hq. rewrite Hother.
      * apply Hother1. apply Hq. by left.
      * intros l' Hl'. apply Hq. by right.
Qed.

Lemma NoDup_LANG_MAPPING_values : NoDup LANG_MAPPING_values.
Proof. apply (bool_decide_unpack _). by vm_compute. Qed.

Lemma align_document_run doc_name (st : gmap string (list Py.str) * nat) w :
  (counts_differ st.1 ∧ ∃ m,
     least_count st.1 = Some m
     ∧ align_document doc_name st w
       = (inr (take m <$> st.1, m),
          {| files := files w;
             stdout := stdout w ++ [EvWarnMismatch doc_name (length <$> st.1)] |}))
  ∨ (¬ counts_differ st.1 ∧ align_document doc_name st w = (inr st, w)).
Proof.
  unfold align_document. case_decide as Hsize.
  - apply distinct_counts_differ in Hsize as Hdiff. left. split; [done|].
    destruct (counts_exist st.1) as (m & M & Hm & _).
    { destruct Hdiff as (l1 & ps1 & _ & _ & H1 & _). intros Heq.
      by rewrite Heq, lookup_empty in H1. }
    exists m. split; [done|]. rewrite print_bind. unfold py_min.
    unfold least_count in Hm. by rewrite Hm.
  - right. split; [|done]. by rewrite <- distinct_counts_differ.
Qed.

Lemma write_document_inv output_dir doc_name (st : gmap string (list Py.str) * nat)
    total w total' w' :
  write_document output_dir doc_name st total w = (inr total', w') →
  (∃ out, stdout w' = stdout w ++ out ∧ ∀ counts, EvWarnMismatch doc_name counts ∉ out)
  ∧ ∀ lang c, lang ∈ LANG_MAPPING_values →
      files w !! (output_dir /: txt lang) = Some (TextN c) →
      files w' !! (output_dir /: txt lang)
      = Some (TextN (c ++ if decide (st.1 ≠ ∅ ∧ 0 < st.2)
                          then as_lines (default [] (st.1 !! lang)) else [])).
Proof.
  unfold write_document. case_decide as Hgate.
  - intros ([] & w1 & Hloop & Hrest)%bind_inr_inv.
    apply write_streams_run in Hloop as (Hout & Hfile & _);
      [|apply NoDup_LANG_MAPPING_values].
    rewrite print_bind in Hrest. injection Hrest as _ <-. simpl. split.
    + exists [EvDocDone doc_name st.2]. split; [by rewrite Hout|].
      intros counts Hin. by apply list_elem_of_singleton in Hin.
    + intros lang c Hin Hc. by apply Hfile.
  - intros [= _ <-]. split.
    + exists []. split; [by rewrite app_nil_r|]. intros ?. apply not_elem_of_nil.
    + intros lang c _ Hc. by rewrite app_nil_r.
Qed.




(** On that document the Castilian list is cut to three lines, the warning
    is printed, and every master stream gets three lines. *)
Lemma consolidate_document_scenario_result :
  let doc_dir := extracted_paragraphs /: "Presidente" /: "nota" in
  let run := consolidate_document evaluation_data_paragraphs doc_dir "nota"
               (glob_ext (files consolidator_world) doc_dir ".txt") 0
               consolidator_world in
  run.1 = inr 3
  ∧ files run.2 !! (evaluation_data_paragraphs /: "es.txt")
    = Some (TextN (as_lines (Py.lit <$> ["Uno"; "Dos"; "Tres"])))
  ∧ files run.2 !! (evaluation_data_paragraphs /: "va.txt")
    = Some (TextN (as_lines (Py.lit <$> ["U"; "Dos"; "Tres"])))
  ∧ head (stdout run.2)
    = Some (EvWarnMismatch "nota"
              (list_to_map [("es", 4); ("ca", 3); ("va", 3); ("ga", 3); ("eu", 3)])).
Proof. vm_compute. split_and!; reflexivity. Qed.

(** C1 fails on the code: run on the tree that stage 1 leaves for the
    scenario (two documents of three aligned paragraphs each, files named
    [castellano], [ca_ES], [vl_ES], [gl_ES], [eu_ES]), the Consolidator
    writes six lines to [es.txt], [ca.txt] and [eu.txt] and none to
    [va.txt] and [ga.txt], whose keys [va_ES] and [ga_ES] in [LANG_MAPPING]
    match no file of stage 1; its own closing check reports the mismatch. *)
Lemma consolidator_misses_stage1_languages :
  let run := consolidate_script aligned_world in
  let six := as_lines (Py.lit <$> ["Uno"; "Dos"; "Tres"; "Uno"; "Dos"; "Tres"]) in
  run.1 = inr tt
  ∧ files run.2 !! (evaluation_data_paragraphs /: "es.txt") = Some (TextN six)
  ∧ files run.2 !! (evaluation_data_paragraphs /: "va.txt") = Some (TextN [])
  ∧ files run.2 !! (evaluation_data_paragraphs /: "ga.txt") = Some (TextN [])
  ∧ last (stdout run.2)
    = Some (EvLineCountMismatch
              (list_to_map [("es", 6); ("ca", 6); ("va", 0); ("ga", 0); ("eu", 6)])).
Proof. vm_compute. split_and!; reflexivity. Qed.

(** Stage 1 did write the five files of each document, with three
    paragraphs each. *)
Lemma stage1_scenario_outputs :
  (main_script scenario_world).1 = inr (2, 2, 0)
  ∧ ∀ doc lang, doc ∈ ["acto"; "nota"] → lang ∈ stage1_languages →
      ∃ content,
        files aligned_world !! (extracted_paragraphs /: "Presidente" /: doc /: txt lang)
        = Some (TextN content)
        ∧ length (text_paragraphs content) = 3.
Proof.
  split; [vm_compute; reflexivity|].
  intros doc lang Hdoc Hlang.
  repeat (apply elem_of_cons in Hdoc as [->|Hdoc]);
    try (by apply elem_of_nil in Hdoc);
    unfold stage1_languages in Hlang; simpl in Hlang;
    repeat (apply elem_of_cons in Hlang as [->|Hlang]);
    try (by apply elem_of_nil in Hlang);
    eexists; (split; [vm_compute; reflexivity|vm_compute; reflexivity]).
Qed.

(** * Text files across the stages *)

(** ** Blank lines *)

Lemma lstrip_by_exists (f g : N → bool) s :
  (∀ c, f c = true → g c = false) →
  existsb g (Py.lstrip_by f s) = existsb g s.
Proof.
  intros Hfg. induction s as [|c s IH]; simpl; [done|].
  destruct (f c) eqn:Hc; [|done]. by rewrite (Hfg c Hc).
Qed.

Lemma truthy_lstrip_by f s :
  Py.truthy (Py.lstrip_by f s) = existsb (λ c, negb (f c)) s.
Proof.
  induction s as [|c s IH]; simpl; [done|].
  by destruct (f c).
Qed.

Lemma truthy_reverse (s : Py.str) : Py.truthy (reverse s) = Py.truthy s.
Proof.
  destruct s as [|c s]; [done|]. rewrite reverse_cons.
  by destruct (reverse s).
Qed.

Lemma existsb_reverse {A} (g : A → bool) (s : list A) :
  existsb g (reverse s) = existsb g s.
Proof.
  induction s as [|c s IH]; simpl; [done|].
  rewrite reverse_cons, existsb_app, IH. simpl.
  rewrite orb_false_r. apply orb_comm.
Qed.

(** A line is not blank exactly when it has a character that is not
    whitespace. *)
Lemma nonblank_exists s :
  nonblank s = existsb (λ c, negb (Py.isspace c)) s.
Proof.
  unfold nonblank, Py.strip, Py.rstrip_by.
  rewrite truthy_reverse, truthy_lstrip_by, existsb_reverse.
  apply lstrip_by_exists. intros c ->. done.
Qed.

Lemma nonblank_app a b : nonblank (a ++ b) = nonblank a || nonblank b.
Proof. rewrite !nonblank_exists. apply existsb_app. Qed.

Lemma nonblank_snoc_lf l : nonblank (l ++ [Py.LF]) = nonblank l.
Proof. rewrite nonblank_app. by rewrite orb_false_r. Qed.

(** ** Lines and pieces *)

Lemma split_nl_nonempty s : Py.split_nl s ≠ [].
Proof.
  destruct s as [|c s]; simpl; [done|].
  destruct (Py.is_lf c); [done|]. by destruct (Py.split_nl s).
Qed.

Lemma split_nl_no_lf s :
  Forall (Forall (λ c, Py.is_lf c = false)) (Py.split_nl s).
Proof.
  induction s as [|c s IH]; simpl.
  - by repeat constructor.
  - destruct (Py.is_lf c) eqn:Hc.
    + by constructor.
    + destruct (Py.split_nl s) as [|l ls]; [by repeat constructor|].
      inversion_clear IH. constructor; [by constructor|done].
Qed.

Lemma iter_lines_pieces s : Py.iter_lines s = lines_of_pieces (Py.split_nl s).
Proof.
  induction s as [|c s IH]; simpl; [done|].
  pose proof (split_nl_nonempty s) as Hne.
  destruct (Py.is_lf c) eqn:Hc.
  - destruct (Py.split_nl s) as [|l ls]; [done|].
    rewrite IH. f_equal. unfold Py.is_lf in Hc.
    apply N.eqb_eq in Hc. by subst.
  - rewrite IH. destruct (Py.split_nl s) as [|l ls]; [done|].
    destruct ls as [|l' ls]; simpl; [by destruct l|done].
Qed.

Lemma lstrip_by_id (f : N → bool) s :
  (∀ c, head s = Some c → f c = false) → Py.lstrip_by f s = s.
Proof.
  destruct s as [|c s]; simpl; [done|]. intros H. by rewrite (H c).
Qed.

Lemma rstrip_nl_id l :
  Forall (λ c, Py.is_lf c = false) l → Py.rstrip_nl l = l.
Proof.
  intros Hl. unfold Py.rstrip_nl, Py.rstrip_by.
  rewrite lstrip_by_id; [apply reverse_involutive|].
  intros c Hc. rewrite Forall_forall in Hl. apply Hl.
  apply elem_of_reverse. destruct (reverse l); [done|].
  injection Hc as ->. by left.
Qed.

Lemma rstrip_nl_snoc l :
  Forall (λ c, Py.is_lf c = false) l → Py.rstrip_nl (l ++ [Py.LF]) = l.
Proof.
  intros Hl. rewrite <- (rstrip_nl_id l Hl) at 2.
  unfold Py.rstrip_nl, Py.rstrip_by. by rewrite reverse_app.
Qed.

(** The non-blank lines of a text, without their line feed, are its
    non-blank pieces. *)
Lemma lines_of_pieces_nonblank pieces :
  Forall (Forall (λ c, Py.is_lf c = false)) pieces →
  Py.rstrip_nl <$> filter (λ line, Is_true (nonblank line)) (lines_of_pieces pieces)
  = filter (λ line, Is_true (nonblank line)) pieces.
Proof.
  induction pieces as [|l rest IH]; [done|].
  intros [Hl Hrest]%Forall_cons. specialize (IH Hrest).
  destruct rest as [|l' rest].
  - destruct l as [|c l]; [done|].
    change (lines_of_pieces [c :: l]) with [c :: l].
    rewrite !filter_cons, !filter_nil.
    destruct (decide _); [|done]. simpl. by rewrite rstrip_nl_id.
  - change (lines_of_pieces (l :: l' :: rest))
      with ((l ++ [Py.LF]) :: lines_of_pieces (l' :: rest)).
    rewrite (filter_cons _ (l ++ [Py.LF])), (filter_cons _ l).
    rewrite nonblank_snoc_lf.
    destruct (decide _); [|done].
    rewrite fmap_cons, IH. by rewrite rstrip_nl_snoc.
Qed.

Lemma text_paragraphs_pieces content :
  text_paragraphs content
  = filter (λ line, Is_true (nonblank line))
      (Py.split_nl (Py.universal_newlines content)).
Proof.
  unfold text_paragraphs. rewrite iter_lines_pieces.
  apply lines_of_pieces_nonblank, split_nl_no_lf.
Qed.

Lemma length_text_paragraphs content :
  length (text_paragraphs content) = text_count content.
Proof. by rewrite text_paragraphs_pieces. Qed.

Lemma nonblank_lines_pieces s :
  length (filter (λ line, Is_true (nonblank line)) (Py.iter_lines s))
  = length (filter (λ line, Is_true (nonblank line)) (Py.split_nl s)).
Proof.
  rewrite <- (lines_of_pieces_nonblank (Py.split_nl s)) by apply split_nl_no_lf.
  by rewrite length_fmap, iter_lines_pieces.
Qed.

(** X1: the three ways in which the stages count the paragraphs of a text
    file agree on every file and in every state: the line count of the
    Consolidator's closing report, the number of paragraphs the
    Consolidator reads from the file, and [count_paragraphs] of the
    Verifier give the same number, and fail alike. *)
Theorem line_counts_agree (p : path) (w : world) :
  count_lines p w = count_paragraphs p w
  ∧ (paragraphs <- read_paragraphs p ;; ret (length paragraphs)) w
    = count_paragraphs p w.
Proof.
  unfold count_lines, count_paragraphs, read_paragraphs.
  split.
  - unfold bind. destruct (read_text p w) as [[e|content] w']; [done|].
    unfold ret. by rewrite length_fmap, nonblank_lines_pieces.
  - rewrite bind_assoc. unfold bind.
    destruct (read_text p w) as [[e|content] w']; [done|].
    unfold ret. by rewrite !length_fmap, nonblank_lines_pieces.
Qed.

(** ** The text that stage 1 writes *)

Lemma split_nl_app_lf a b :
  Py.split_nl (a ++ Py.LF :: b) = Py.split_nl a ++ Py.split_nl b.
Proof.
  induction a as [|c a IH]; [done|].
  simpl. rewrite IH. destruct (Py.is_lf c); [done|].
  pose proof (split_nl_nonempty a).
  by destruct (Py.split_nl a).
Qed.

Lemma split_nl_line l :
  Forall (λ c, Py.is_lf c = false) l → Py.split_nl l = [l].
Proof.
  induction l as [|c l IH]; [done|].
  intros [Hc Hl]%Forall_cons. simpl. by rewrite Hc, (IH Hl).
Qed.

Lemma join_cons2 (sep p q : Py.str) (rest : list Py.str) :
  Py.join sep (p :: q :: rest) = p ++ sep ++ Py.join sep (q :: rest).
Proof. done. Qed.

(** The non-blank pieces of the written text are those of its paragraphs,
    in order: the separator adds only an empty piece. *)
Lemma join_nonblank_pieces (ps : list Py.str) :
  filter (λ line, Is_true (nonblank line)) (Py.split_nl (Py.join para_sep ps))
  = ps ≫= λ p, filter (λ line, Is_true (nonblank line)) (Py.split_nl p).
Proof.
  induction ps as [|p ps IH]; [done|].
  destruct ps as [|q ps].
  - simpl. by rewrite app_nil_r.
  - rewrite join_cons2. unfold para_sep at 1.
    change (p ++ [Py.LF; Py.LF] ++ Py.join para_sep (q :: ps))
      with (p ++ Py.LF :: ([] ++ Py.LF :: Py.join para_sep (q :: ps))).
    rewrite !split_nl_app_lf, !filter_app, IH.
    by rewrite bind_cons.
Qed.

Lemma universal_newlines_id s :
  Forall (λ c, c ≠ Py.CR) s → Py.universal_newlines s = s.
Proof.
  induction s as [|c s IH]; [done|].
  intros [Hc Hs]%Forall_cons. simpl.
  destruct (N.eqb_spec c Py.CR) as [->|_]; [done|]. by rewrite (IH Hs).
Qed.

Lemma universal_newlines_app_lf a b :
  last a ≠ Some Py.CR →
  Py.universal_newlines (a ++ Py.LF :: b)
  = Py.universal_newlines a ++ Py.LF :: Py.universal_newlines b.
Proof.
  remember (length a) as n eqn:Hn. revert a Hn.
  induction n as [n IH] using lt_wf_ind. intros a -> Hlast.
  destruct a as [|c r]; [done|].
  assert (Hr : ∀ r', r = r' → r' ≠ [] → last r' ≠ Some Py.CR).
  { intros r' <- Hne. destruct r as [|d r]; [done|]. exact Hlast. }
  change ((c :: r) ++ Py.LF :: b) with (c :: (r ++ Py.LF :: b)).
  destruct (N.eqb_spec c Py.CR) as [->|Hc].
  - destruct r as [|d r']; [done|]. simpl.
    destruct (Py.is_lf d) eqn:Hd.
    + f_equal. apply (IH (length r')); [simpl; lia|done|].
      destruct r' as [|e r'']; [done|]. exact Hlast.
    + f_equal. apply (IH (length (d :: r')) ltac:(simpl; lia) (d :: r') eq_refl).
      exact Hlast.
  - simpl. destruct (N.eqb_spec c Py.CR) as [|_]; [done|].
    simpl. f_equal. apply (IH (length r)); [simpl; lia|done|].
    destruct r as [|d r]; [done|]. exact Hlast.
Qed.

Lemma universal_newlines_join (ps : list Py.str) :
  Forall (λ p, last p ≠ Some Py.CR) ps →
  Py.universal_newlines (Py.join para_sep ps)
  = Py.join para_sep (Py.universal_newlines <$> ps).
Proof.
  induction ps as [|p ps IH]; [done|].
  intros [Hp Hps]%Forall_cons. specialize (IH Hps).
  destruct ps as [|q ps]; [done|].
  rewrite fmap_cons. rewrite fmap_cons in IH. rewrite !join_cons2.
  unfold para_sep at 1 3.
  change (p ++ [Py.LF; Py.LF] ++ Py.join para_sep (q :: ps))
    with (p ++ Py.LF :: ([] ++ Py.LF :: Py.join para_sep (q :: ps))).
  rewrite universal_newlines_app_lf by done.
  rewrite (universal_newlines_app_lf []) by done.
  by rewrite IH.
Qed.

Lemma no_space_at_ends_last p : no_space_at_ends p → last p ≠ Some Py.CR.
Proof. intros [_ H] Hl. by apply H in Hl. Qed.

(** What the Verifier counts in a text that stage 1 wrote. *)
Lemma text_count_join (ps : list Py.str) :
  Forall no_space_at_ends ps →
  text_count (Py.join para_sep ps) = sum_list (text_count <$> ps).
Proof.
  intros Hps. unfold text_count at 1.
  rewrite universal_newlines_join
    by (eapply Forall_impl; [exact Hps|apply no_space_at_ends_last]).
  rewrite join_nonblank_pieces. clear Hps.
  induction ps as [|p ps IH]; [done|].
  rewrite fmap_cons, bind_cons, length_app, IH. done.
Qed.

Lemma one_line_no_lf p : one_line p → Forall (λ c, Py.is_lf c = false) p.
Proof.
  intros [_ H]. eapply Forall_impl; [exact H|]. intros c [Hc _].
  by apply N.eqb_neq.
Qed.

Lemma one_line_no_cr p : one_line p → Forall (λ c, c ≠ Py.CR) p.
Proof. intros [_ H]. eapply Forall_impl; [exact H|]. by intros c [_ Hc]. Qed.

Lemma join_no_cr (ps : list Py.str) :
  Forall one_line ps → Forall (λ c, c ≠ Py.CR) (Py.join para_sep ps).
Proof.
  induction ps as [|p ps IH]; [constructor|].
  intros [Hp Hps]%Forall_cons. specialize (IH Hps).
  destruct ps as [|q ps]; [by apply one_line_no_cr|].
  rewrite join_cons2. apply Forall_app. split; [by apply one_line_no_cr|].
  apply Forall_app. split; [|done]. by repeat constructor.
Qed.

(** A text written from one-line paragraphs is read back as those
    paragraphs. *)
Lemma text_paragraphs_join (ps : list Py.str) :
  Forall one_line ps → text_paragraphs (Py.join para_sep ps) = ps.
Proof.
  intros Hps. rewrite text_paragraphs_pieces.
  rewrite universal_newlines_id by (by apply join_no_cr).
  rewrite join_nonblank_pieces.
  induction Hps as [|p ps Hp Hps IH]; [done|].
  rewrite bind_cons, IH. rewrite split_nl_line by (by apply one_line_no_lf).
  rewrite filter_cons, filter_nil. destruct Hp as [Hp _].
  rewrite decide_True; [done|]. by rewrite Hp.
Qed.

Lemma text_count_join_lines (ps : list Py.str) :
  Forall one_line ps → text_count (Py.join para_sep ps) = length ps.
Proof.
  intros Hps. by rewrite <- length_text_paragraphs, text_paragraphs_join.
Qed.

Lemma one_line_b_sound p : one_line_b p = true → one_line p.
Proof.
  unfold one_line_b, one_line. intros [Hn Hall]%andb_true_iff. split; [done|].
  apply Forall_forall. intros c Hc.
  rewrite forallb_forall in Hall. specialize (Hall c).
  rewrite <- list_elem_of_In in Hall. specialize (Hall Hc).
  apply andb_true_iff in Hall as [H1 H2].
  apply negb_true_iff in H1, H2. by apply N.eqb_neq in H1, H2.
Qed.

Lemma Forall_one_line_b (ps : list Py.str) :
  forallb one_line_b ps = true → Forall one_line ps.
Proof.
  intros H. apply Forall_forall. intros p Hp. apply one_line_b_sound.
  rewrite forallb_forall in H. apply H. by apply list_elem_of_In.
Qed.

Lemma Forall_no_space_at_ends_b (ps : list Py.str) :
  forallb no_space_at_ends_b ps = true → Forall no_space_at_ends ps.
Proof.
  intros H. apply Forall_forall. intros p Hp.
  rewrite forallb_forall in H. specialize (H p).
  rewrite <- list_elem_of_In in H. specialize (H Hp).
  apply andb_true_iff in H as [H1 H2].
  split; intros c Hc; rewrite Hc in *; simpl in *; by apply negb_true_iff.
Qed.

Lemma write_text_inv p content w w1 :
  write_text p content w = (inr tt, w1) →
  p ≠ [] ∧ files w1 = <[p := TextN content]> (files w) ∧ stdout w1 = stdout w.
Proof.
  unfold write_text. destruct p as [|n p]; [done|].
  repeat case_match; try done. by intros [= <-].
Qed.

Lemma read_text_TextN p content w :
  p ≠ [] → files w !! p = Some (TextN content) →
  read_text p w = (inr (Py.universal_newlines content), w).
Proof. intros Hp Hf. unfold read_text. destruct p; [done|]. by rewrite Hf. Qed.

Lemma read_paragraphs_text p content w :
  p ≠ [] → files w !! p = Some (TextN content) →
  read_paragraphs p w = (inr (text_paragraphs content), w).
Proof.
  intros Hp Hf. unfold read_paragraphs.
  by rewrite (bind_inr _ _ _ _ _ (read_text_TextN _ _ _ Hp Hf)).
Qed.

(** In general every non-blank line of every paragraph is read back as a
    paragraph of its own. *)
Lemma text_paragraphs_join_lines (ps : list Py.str) :
  Forall no_space_at_ends ps →
  text_paragraphs (Py.join para_sep ps) = ps ≫= text_paragraphs.
Proof.
  intros Hps. rewrite text_paragraphs_pieces.
  rewrite universal_newlines_join
    by (eapply Forall_impl; [exact Hps|apply no_space_at_ends_last]).
  rewrite join_nonblank_pieces. clear Hps.
  induction ps as [|p ps IH]; [done|].
  by rewrite fmap_cons, !bind_cons, IH, text_paragraphs_pieces.
Qed.

(** X2: a file that stage 1 writes from paragraphs that take one line each
    (not blank, no line feed or carriage return inside) is read back by the
    later stages as written: the Consolidator reads exactly these
    paragraphs from it, in order, and the Verifier counts as many
    paragraphs as were written. *)
Theorem written_paragraphs_read_back (p : path) (ps : list Py.str) (w w1 : world) :
  Forall one_line ps →
  write_text p (Py.join para_sep ps) w = (inr tt, w1) →
  read_paragraphs p w1 = (inr ps, w1)
  ∧ count_paragraphs p w1 = (inr (length ps), w1).
Proof.
  intros Hps (Hp & Hfiles & _)%write_text_inv.
  assert (Hf : files w1 !! p = Some (TextN (Py.join para_sep ps)))
    by (rewrite Hfiles; apply lookup_insert_eq).
  split.
  - rewrite (read_paragraphs_text _ _ _ Hp Hf). by rewrite text_paragraphs_join.
  - rewrite (count_paragraphs_text _ _ _ Hp Hf). by rewrite text_count_join_lines.
Qed.

(** Two paragraphs written to a file of the directory [notes] and read
    back. *)
Lemma written_paragraphs_read_back_example :
  let ps := Py.lit <$> ["Uno"; "Dos y tres"] in
  let p := ["notes"] /: "castellano.txt" in
  let w1 := (write_text p (Py.join para_sep ps) notes_world).2 in
  Forall one_line ps
  ∧ read_paragraphs p w1 = (inr ps, w1)
  ∧ count_paragraphs p w1 = (inr 2, w1).
Proof.
  intros ps p w1.
  assert (Hps : Forall one_line ps)
    by (apply Forall_one_line_b; vm_compute; reflexivity).
  split; [exact Hps|].
  apply (written_paragraphs_read_back p ps notes_world w1 Hps).
  vm_compute. reflexivity.
Defined.

(** X3: the later stages count lines, not paragraphs.  From a file that
    stage 1 writes from paragraphs without surrounding whitespace (as the
    Extractor returns them), the Consolidator reads every non-blank line
    of every paragraph as a paragraph of its own, and the Verifier counts
    the sum of the non-blank lines of the paragraphs: a paragraph with a
    line break inside counts more than once. *)
Theorem later_stages_count_lines (p : path) (ps : list Py.str) (w w1 : world) :
  Forall no_space_at_ends ps →
  write_text p (Py.join para_sep ps) w = (inr tt, w1) →
  read_paragraphs p w1 = (inr (ps ≫= text_paragraphs), w1)
  ∧ count_paragraphs p w1 = (inr (sum_list (text_count <$> ps)), w1).
Proof.
  intros Hps (Hp & Hfiles & _)%write_text_inv.
  assert (Hf : files w1 !! p = Some (TextN (Py.join para_sep ps)))
    by (rewrite Hfiles; apply lookup_insert_eq).
  split.
  - rewrite (read_paragraphs_text _ _ _ Hp Hf).
    by rewrite text_paragraphs_join_lines.
  - rewrite (count_paragraphs_text _ _ _ Hp Hf).
    rewrite <- length_text_paragraphs, text_paragraphs_join_lines by done.
    do 2 f_equal. clear. induction ps as [|q ps IH]; [done|].
    by rewrite bind_cons, length_app, IH, fmap_cons, length_text_paragraphs.
Qed.

(** Two paragraphs, the first with a line break inside, are read back as
    three. *)
Lemma later_stages_count_lines_example :
  let ps := [Py.lit "Uno" ++ Py.LF :: Py.lit "y medio"; Py.lit "Dos"] in
  let p := ["notes"] /: "castellano.txt" in
  let w1 := (write_text p (Py.join para_sep ps) notes_world).2 in
  Forall no_space_at_ends ps
  ∧ read_paragraphs p w1 = (inr (Py.lit <$> ["Uno"; "y medio"; "Dos"]), w1)
  ∧ count_paragraphs p w1 = (inr 3, w1).
Proof.
  intros ps p w1.
  assert (Hps : Forall no_space_at_ends ps)
    by (apply Forall_no_space_at_ends_b; vm_compute; reflexivity).
  split; [exact Hps|].
  apply (later_stages_count_lines p ps notes_world w1 Hps).
  vm_compute. reflexivity.
Defined.

(** * File names of Discovery *)

Lemma list_ascii_of_string_app (a b : string) :
  list_ascii_of_string (a +:+ b) = list_ascii_of_string a ++ list_ascii_of_string b.
Proof. induction a as [|c a IH]; simpl; [done|]. by rewrite IH. Qed.

Lemma list_ascii_of_string_inj (a b : string) :
  list_ascii_of_string a = list_ascii_of_string b → a = b.
Proof.
  intros H. rewrite <- (string_of_list_ascii_of_string a).
  rewrite <- (string_of_list_ascii_of_string b). by rewrite H.
Qed.

Lemma version_name_ascii base_name sep spelling :
  list_ascii_of_string (version_name base_name sep spelling)
  = list_ascii_of_string base_name
    ++ sep :: list_ascii_of_string (spelling +:+ ".docx").
Proof. unfold version_name. by rewrite list_ascii_of_string_app. Qed.

Lemma elem_of_version_endings lang_code alts sep spelling :
  (lang_code, alts) ∈ language_patterns → spelling ∈ alts →
  sep = "_"%char ∨ sep = "-"%char →
  (lang_code, sep :: list_ascii_of_string (spelling +:+ ".docx")) ∈ version_endings.
Proof.
  intros Hp Ha Hsep. unfold version_endings.
  apply list_elem_of_bind. exists sep. split.
  - apply list_elem_of_bind. exists (lang_code, alts). split; [|done].
    apply list_elem_of_fmap. by exists spelling.
  - destruct Hsep as [-> | ->]; [left|right; left].
Qed.

(** No ending of a version name is the end of another one: a name is the
    name of a language version in one way at most. *)
Lemma version_endings_apart :
  Forall (λ e1, Forall (λ e2, e1.2 `suffix_of` e2.2 → e1 = e2) version_endings)
    version_endings.
Proof. apply (bool_decide_unpack _). by vm_compute. Qed.

Lemma version_name_unique lang1 alts1 sep1 spelling1 base1
    lang2 alts2 sep2 spelling2 base2 :
  (lang1, alts1) ∈ language_patterns → spelling1 ∈ alts1 →
  sep1 = "_"%char ∨ sep1 = "-"%char →
  (lang2, alts2) ∈ language_patterns → spelling2 ∈ alts2 →
  sep2 = "_"%char ∨ sep2 = "-"%char →
  version_name base1 sep1 spelling1 = version_name base2 sep2 spelling2 →
  lang1 = lang2 ∧ base1 = base2.
Proof.
  intros Hp1 Ha1 Hs1 Hp2 Ha2 Hs2 Hname.
  apply (f_equal list_ascii_of_string) in Hname.
  rewrite !version_name_ascii in Hname.
  pose proof (elem_of_version_endings _ _ _ _ Hp1 Ha1 Hs1) as He1.
  pose proof (elem_of_version_endings _ _ _ _ Hp2 Ha2 Hs2) as He2.
  remember (sep1 :: list_ascii_of_string (spelling1 +:+ ".docx")) as k1 eqn:Hk1.
  remember (sep2 :: list_ascii_of_string (spelling2 +:+ ".docx")) as k2 eqn:Hk2.
  pose proof version_endings_apart as Hapart.
  rewrite Forall_forall in Hapart.
  assert (Hk : k1 `suffix_of` k2 ∨ k2 `suffix_of` k1).
  { apply (suffix_weak_total _ _ (list_ascii_of_string base1 ++ k1)).
    - by apply suffix_app_r.
    - rewrite Hname. by apply suffix_app_r. }
  assert (Heq : (lang1, k1) = (lang2, k2)).
  { destruct Hk as [Hk|Hk].
    - specialize (Hapart _ He1). rewrite Forall_forall in Hapart.
      by apply (Hapart _ He2).
    - specialize (Hapart _ He2). rewrite Forall_forall in Hapart.
      symmetry. by apply (Hapart _ He1). }
  injection Heq as -> Hk12. split; [done|].
  rewrite Hk12 in Hname. apply app_inv_tail in Hname.
  by apply list_ascii_of_string_inj.
Qed.

Lemma match_here_spec alts s :
  match_here alts s = true
  ↔ ∃ sep spelling, (sep = "_"%char ∨ sep = "-"%char) ∧ spelling ∈ alts
                    ∧ s = version_name "" sep spelling.
Proof.
  unfold match_here, version_name. destruct s as [|c rest].
  { split; [done|]. by intros (? & ? & _ & _ & ?). }
  rewrite andb_true_iff, orb_true_iff, existsb_exists. split.
  - intros [Hc (a & Ha%list_elem_of_In & Heq%String.eqb_eq)].
    exists c, a. split_and!; [|done|by rewrite Heq].
    destruct Hc as [Hc|Hc]; apply Ascii.eqb_eq in Hc; auto.
  - intros (sep & a & Hsep & Ha & Heq). simpl in Heq. injection Heq as -> ->.
    split.
    + destruct Hsep as [-> | ->]; auto.
    + exists a. split; [by apply list_elem_of_In|apply String.eqb_refl].
Qed.

Lemma re_search_eq alts s :
  re_search alts s
  = if match_here alts s then Some ""
    else match s with
         | String c rest => String c <$> re_search alts rest
         | EmptyString => None
         end.
Proof. by destruct s. Qed.

Lemma re_search_Some alts s base_name :
  re_search alts s = Some base_name →
  ∃ sep spelling, (sep = "_"%char ∨ sep = "-"%char) ∧ spelling ∈ alts
                  ∧ s = version_name base_name sep spelling.
Proof.
  revert base_name. induction s as [|c rest IH]; intros base_name;
    rewrite re_search_eq.
  { done. }
  destruct (match_here alts (String c rest)) eqn:Hm.
  - intros [= <-]. by apply match_here_spec.
  - destruct (re_search alts rest) as [b|]; [|done].
    intros [= <-]. destruct (IH b eq_refl) as (sep & a & Hsep & Ha & ->).
    by exists sep, a.
Qed.

Lemma re_search_is_Some alts base_name sep spelling :
  sep = "_"%char ∨ sep = "-"%char → spelling ∈ alts →
  is_Some (re_search alts (version_name base_name sep spelling)).
Proof.
  intros Hsep Ha. induction base_name as [|c b IH].
  - assert (Hm : match_here alts (version_name "" sep spelling) = true)
      by (apply match_here_spec; by exists sep, spelling).
    rewrite re_search_eq, Hm. by eexists.
  - change (version_name (String c b) sep spelling)
      with (String c (version_name b sep spelling)).
    rewrite re_search_eq. destruct (match_here alts _); [by eexists|].
    destruct IH as [b' ->]. by eexists.
Qed.

Lemma classify_with_Some patterns name lang_code base_name :
  classify_with patterns name = Some (lang_code, base_name) →
  ∃ alts, (lang_code, alts) ∈ patterns ∧ re_search alts name = Some base_name.
Proof.
  induction patterns as [|[l alts] patterns IH]; simpl; [done|].
  destruct (re_search alts name) as [b|] eqn:Hs.
  - intros [= <- <-]. exists alts. split; [left|done].
  - intros (alts' & Hin & Hre)%IH. exists alts'. split; [by right|done].
Qed.

Lemma classify_with_is_Some patterns name lang_code alts :
  (lang_code, alts) ∈ patterns → is_Some (re_search alts name) →
  is_Some (classify_with patterns name).
Proof.
  intros Hin Hs. induction patterns as [|[l alts'] patterns IH]; simpl.
  { by apply elem_of_nil in Hin. }
  destruct (re_search alts' name) as [b|] eqn:Hre; [by eexists|].
  apply elem_of_cons in Hin as [[= -> ->]|Hin]; [|by apply IH].
  rewrite Hre in Hs. by destruct Hs.
Qed.

Lemma dict_get_Some {V} (d : list (string * V)) key v :
  dict_get d key = Some v → (key, v) ∈ d.
Proof.
  induction d as [|[k v'] d IH]; simpl; [done|].
  destruct (decide (k = key)) as [->|_].
  - intros [= ->]. left.
  - intros H. right. by apply IH.
Qed.

Lemma dict_get_elem {V} (d : list (string * V)) key v :
  NoDup d.*1 → (key, v) ∈ d → dict_get d key = Some v.
Proof.
  induction d as [|[k v'] d IH]; simpl.
  { intros _ H. by apply elem_of_nil in H. }
  intros [Hk Hd]%NoDup_cons [[= -> ->]|Hin]%elem_of_cons.
  - by rewrite decide_True.
  - destruct (decide (k = key)) as [->|_]; [|by apply IH].
    destruct Hk. apply list_elem_of_fmap. by exists (key, v).
Qed.

Lemma NoDup_language_patterns : NoDup language_patterns.*1.
Proof. apply (bool_decide_unpack _). by vm_compute. Qed.

Lemma elem_of_spellings lang_code spelling :
  spelling ∈ spellings lang_code
  ↔ ∃ alts, (lang_code, alts) ∈ language_patterns ∧ spelling ∈ alts.
Proof.
  unfold spellings. split.
  - destruct (dict_get language_patterns lang_code) as [alts|] eqn:Hd; simpl.
    + intros Ha. exists alts. split; [by apply dict_get_Some|done].
    + intros H. by apply elem_of_nil in H.
  - intros (alts & Hin & Ha).
    by rewrite (dict_get_elem _ _ _ NoDup_language_patterns Hin).
Qed.

(** X4: Discovery takes a file name (of the listing of the [.docx] files
    of a folder) for a version in language [lang_code] of the document
    [base_name] exactly when the name is the base name, one of the
    separators [_] and [-], one of the spellings of that language and the
    extension [.docx]; the base name is all that precedes the separator,
    whatever it contains. *)
Theorem classify_spec (name lang_code base_name : string) :
  classify name = Some (lang_code, base_name)
  ↔ ∃ sep spelling,
      (sep = "_"%char ∨ sep = "-"%char)
      ∧ spelling ∈ spellings lang_code
      ∧ name = version_name base_name sep spelling.
Proof.
  unfold classify. split.
  - intros (alts & Hin & Hre)%classify_with_Some.
    apply re_search_Some in Hre as (sep & a & Hsep & Ha & Hname).
    exists sep, a. split_and!; [done| |done].
    apply elem_of_spellings. by exists alts.
  - intros (sep & a & Hsep & (alts & Hin & Ha)%elem_of_spellings & Hname).
    destruct (classify_with_is_Some language_patterns name lang_code alts Hin)
      as [[l b] Hc].
    { rewrite Hname. by apply re_search_is_Some. }
    rewrite Hc. f_equal.
    apply classify_with_Some in Hc as (alts' & Hin' & Hre).
    apply re_search_Some in Hre as (sep' & a' & Hsep' & Ha' & Hname').
    rewrite Hname in Hname'.
    destruct (version_name_unique _ _ _ _ _ _ _ _ _ _
                Hin Ha Hsep Hin' Ha' Hsep' Hname') as [-> ->].
    done.
Qed.

(** ** Complete sets *)

Lemma group_step_cover folder_path names name file_groups :
  groups_cover names file_groups →
  groups_cover (names ++ [name]) (group_step folder_path file_groups name).
Proof.
  intros [Hempty Hcover]. unfold group_step. split.
  - destruct (String.prefix "~" name); [done|].
    destruct (classify name) as [[lang_found b]|]; [|done].
    destruct (decide (b = "")); [done|]. by rewrite lookup_insert_ne.
  - intros n lang b [Hn|Hn%list_elem_of_singleton]%elem_of_app Htmp Hc Hb.
    + destruct (Hcover n lang b Hn Htmp Hc Hb) as (lf & Hlf & Hlang).
      destruct (String.prefix "~" name); [by exists lf|].
      destruct (classify name) as [[lang_found b']|]; [|by exists lf].
      destruct (decide (b' = "")); [by exists lf|].
      destruct (decide (b' = b)) as [->|Hne].
      * rewrite lookup_insert_eq, Hlf. eexists. split; [done|]. simpl.
        rewrite lookup_insert. case_decide; [by eexists|done].
      * rewrite lookup_insert_ne by done. by exists lf.
    + subst n. rewrite Htmp, Hc. rewrite decide_False by done.
      rewrite lookup_insert_eq. eexists. split; [done|].
      rewrite lookup_insert_eq. by eexists.
Qed.

Lemma group_files_cover folder_path names :
  groups_cover names (group_files folder_path names).
Proof.
  unfold group_files. induction names as [|name names IH] using rev_ind; simpl.
  - split; [done|]. intros n ?? Hn. by apply elem_of_nil in Hn.
  - rewrite foldl_snoc. by apply group_step_cover.
Qed.

(** The folders of a discovery result: those of the four that hold a
    complete set. *)
Lemma discover_document_sets_spec fs base_path folder_name doc_sets :
  discover_document_sets fs base_path !! folder_name = Some doc_sets
  ↔ folder_name ∈ folders
    ∧ path_exists fs (base_path /: folder_name) = true
    ∧ doc_sets = discover_folder fs (base_path /: folder_name)
    ∧ doc_sets ≠ ∅.
Proof.
  unfold discover_document_sets.
  induction folders as [|f fl IH] using rev_ind; simpl.
  - rewrite lookup_empty. split; [done|]. intros [H _]. by apply elem_of_nil in H.
  - rewrite foldl_snoc, elem_of_app, list_elem_of_singleton.
    destruct (path_exists fs (base_path /: f)) eqn:Hex.
    + destruct (decide (discover_folder fs (base_path /: f) = ∅)) as [He|He].
      * rewrite IH. split; [intros (? & ? & ? & ?); by auto|].
        intros ([?| ->] & ? & ? & ?); [done|]. by subst.
      * destruct (decide (f = folder_name)) as [->|Hne].
        -- rewrite lookup_insert_eq. split.
           ++ intros [= <-]. by auto.
           ++ by intros (_ & _ & -> & _).
        -- rewrite lookup_insert_ne by done. rewrite IH.
           split; [intros (? & ? & ? & ?); by auto|].
           intros ([?| ->] & ? & ? & ?); done.
    + rewrite IH. split; [intros (? & ? & ? & ?); by auto|].
      intros ([?| ->] & Hp & ? & ?); [done|]. by rewrite Hex in Hp.
Qed.

Lemma glob_ext_exists fs p ext name :
  name ∈ glob_ext fs p ext → path_exists fs p = true.
Proof.
  unfold glob_ext, path_exists. destruct (is_dir fs p); [done|].
  intros H. by apply elem_of_nil in H.
Qed.

(** X5: Discovery finds a document set [base_name] in a folder exactly
    when the folder is one of the four folders of the script, the base
    name is not empty and, for each of the five languages, the listing of
    the [.docx] files of the folder has a file that is not temporary (no
    leading [~]) and is classified as the version of [base_name] in that
    language. *)
Theorem discovery_finds_complete_sets fs base_path folder_name base_name :
  let names := glob_ext fs (base_path /: folder_name) ".docx" in
  is_Some (discovered fs base_path folder_name base_name)
  ↔ folder_name ∈ folders ∧ base_name ≠ ""
    ∧ ∀ lang_code, lang_code ∈ stage1_languages →
        ∃ name, name ∈ names ∧ String.prefix "~" name = false
                ∧ classify name = Some (lang_code, base_name).
Proof.
  intros names. unfold discovered.
  pose proof (group_files_from (base_path /: folder_name) names) as Hfrom.
  pose proof (group_files_cover (base_path /: folder_name) names) as [Hempty Hcover].
  split.
  - intros [lf Hlf].
    destruct (discover_document_sets fs base_path !! folder_name)
      as [doc_sets|] eqn:Hds; simpl in Hlf; [|done].
    apply discover_document_sets_spec in Hds as (Hfolder & _ & -> & _).
    unfold discover_folder, complete_sets in Hlf.
    apply map_lookup_filter_Some in Hlf as [Hg Hsize]. simpl in Hsize.
    fold names in Hg. destruct (Hfrom _ _ Hg) as [_ Hfiles].
    split_and!; [done| |].
    { intros ->. by rewrite Hempty in Hg. }
    assert (Hdom : dom lf = list_to_set stage1_languages).
    { apply set_subseteq_size_eq.
      - intros l [p Hp]%elem_of_dom.
        destruct (Hfiles l p Hp) as (n & _ & _ & Hc & _).
        apply elem_of_list_to_set. by eapply classify_with_lang.
      - rewrite five_languages, size_dom. lia. }
    intros lang Hlang.
    assert (Hin : lang ∈ dom lf) by (rewrite Hdom; by apply elem_of_list_to_set).
    apply elem_of_dom in Hin as [p Hp].
    destruct (Hfiles lang p Hp) as (n & Hn & Htmp & Hc & _). by exists n.
  - intros (Hfolder & Hbase & Hall).
    destruct (Hall "castellano") as (n0 & Hn0 & Htmp0 & Hc0); [by left|].
    destruct (Hcover n0 _ _ Hn0 Htmp0 Hc0 Hbase) as (lf & Hlf & _).
    assert (Hdom : dom lf = list_to_set stage1_languages).
    { apply set_eq. intros l. rewrite elem_of_list_to_set, elem_of_dom. split.
      - intros [p Hp]. destruct (Hfrom _ _ Hlf) as [_ Hfiles].
        destruct (Hfiles l p Hp) as (n & _ & _ & Hc & _).
        by eapply classify_with_lang.
      - intros Hl. destruct (Hall l Hl) as (n & Hn & Htmp & Hc).
        destruct (Hcover n _ _ Hn Htmp Hc Hbase) as (lf' & Hlf' & Hlang).
        rewrite Hlf in Hlf'. by injection Hlf' as <-. }
    assert (Hfound : discover_folder fs (base_path /: folder_name) !! base_name
                     = Some lf).
    { unfold discover_folder, complete_sets. apply map_lookup_filter_Some.
      split; [done|]. simpl. by rewrite <- size_dom, Hdom, five_languages. }
    assert (Hds : discover_document_sets fs base_path !! folder_name
                  = Some (discover_folder fs (base_path /: folder_name))).
    { apply discover_document_sets_spec. split_and!; [done| |done|].
      - by eapply glob_ext_exists.
      - intros He. by rewrite He, lookup_empty in Hfound. }
    rewrite Hds. simpl. by exists lf.
Qed.

(** A set of [doc] with six files for the five languages, two spellings of
    Galician among them, is complete; its Castilian version is the file
    without the leading [~]. *)
Lemma discovery_spelled_inputs :
  let found := discovered spelled_inputs original_texts "Actualidad" "doc" in
  size <$> found = Some 5
  ∧ found ≫= (.!! "castellano")
    = Some (original_texts /: "Actualidad" /: "doc_castellano.docx").
Proof. split; vm_compute; reflexivity. Qed.

(** * What the stages leave alone *)

Lemma changes_only_weaken {A} (P Q : path → Prop) (m : io A) :
  (∀ q, P q → Q q) → changes_only P m → changes_only Q m.
Proof. intros HPQ Hm w q Hq. apply Hm. intros HP. by apply Hq, HPQ. Qed.

Lemma changes_only_read_only {A} (P : path → Prop) (m : io A) :
  read_only m → changes_only P m.
Proof. intros Hm w q _. by rewrite Hm. Qed.

Lemma changes_only_ret {A} P (x : A) : changes_only P (ret x).
Proof. apply changes_only_read_only, read_only_ret. Qed.

Lemma changes_only_print P ev : changes_only P (print ev).
Proof. apply changes_only_read_only, read_only_print. Qed.

Lemma changes_only_bind {A B} P (m : io A) (k : A → io B) :
  changes_only P m → (∀ x, changes_only P (k x)) → changes_only P (bind m k).
Proof.
  intros Hm Hk w q Hq. unfold bind. specialize (Hm w q Hq).
  destruct (m w) as [[e|x] w1]; [done|].
  simpl in Hm. rewrite <- Hm. by apply Hk.
Qed.

Lemma changes_only_try_except {A} P (m : io A) handler :
  changes_only P m → (∀ e, changes_only P (handler e)) →
  changes_only P (try_except m handler).
Proof.
  intros Hm Hh w q Hq. unfold try_except. specialize (Hm w q Hq).
  destruct (m w) as [[e|x] w1]; [|done].
  simpl in Hm. rewrite <- Hm. by apply Hh.
Qed.

Lemma changes_only_fold_io {A S} P (xs : list A) (s : S) body :
  (∀ s x, changes_only P (body s x)) → changes_only P (fold_io xs s body).
Proof.
  intros Hbody. revert s. induction xs as [|x xs IH]; intros s.
  - apply changes_only_ret.
  - simpl. apply changes_only_bind; [apply Hbody|]. intros s'. apply IH.
Qed.

Lemma changes_only_for {A} P (xs : list A) body :
  (∀ x, changes_only P (body x)) → changes_only P (for_ xs body).
Proof.
  intros Hbody. induction xs as [|x xs IH].
  - apply changes_only_ret.
  - simpl. apply changes_only_bind; [apply Hbody|]. by intros _.
Qed.

Lemma changes_only_mkdir_parents p :
  changes_only (λ q, q ∈ prefixes p) (mkdir_parents p).
Proof.
  intros w q Hq. unfold mkdir_parents.
  destruct (list_find _ _) as [[]|]; [done|].
  simpl. rewrite mkdirs_lookup. by rewrite decide_False.
Qed.

Lemma changes_only_write_text p content :
  changes_only (λ q, q = p) (write_text p content).
Proof.
  intros w q Hq. unfold write_text. repeat case_match; try done.
  simpl. apply lookup_insert_ne. by intros ->.
Qed.

Lemma changes_only_stream_write p s :
  changes_only (λ q, q = p) (stream_write p s).
Proof.
  intros w q Hq. unfold stream_write. repeat case_match; try done.
  simpl. apply lookup_insert_ne. by intros ->.
Qed.

(** ** Stage 1 *)

Lemma prefixes_app (base rest q : path) :
  q ∈ prefixes (base ++ rest) → towards_or_under base q.
Proof.
  intros (k & Hk & ->)%elem_of_prefixes.
  destruct (decide (S k ≤ length base)) as [Hle|Hgt].
  - left. apply elem_of_prefixes. exists k. split; [lia|].
    by rewrite take_app_le.
  - right. rewrite take_app_ge by lia. by apply prefix_app_r.
Qed.

Lemma towards_or_under_join (base p q : path) name :
  (∀ q, q ∈ prefixes p → towards_or_under base q) → base `prefix_of` p →
  q ∈ prefixes (p /: name) → towards_or_under base q.
Proof.
  intros Hp Hbase (k & Hk & ->)%elem_of_prefixes. unfold path_join.
  rewrite length_path_join in Hk.
  destruct (decide (k < length p)) as [Hlt|Hge].
  - apply Hp. apply elem_of_prefixes. exists k. split; [done|].
    by rewrite take_app_le by lia.
  - right. rewrite take_app_ge by lia. by apply prefix_app_r.
Qed.

Lemma read_only_Document p : read_only (Document p).
Proof. intros w. unfold Document. by repeat case_match. Qed.

Lemma read_only_extract_all doc_paths : read_only (extract_all doc_paths).
Proof.
  apply read_only_fold_io. intros all_paragraphs item.
  apply read_only_bind; [apply read_only_print|]. intros _.
  apply read_only_bind; [apply read_only_Document|]. intros doc.
  apply read_only_bind; [apply read_only_print|]. intros _.
  apply read_only_ret.
Qed.

Lemma read_only_py_min xs : read_only (py_min xs).
Proof. unfold py_min. destruct (min_of xs); [apply read_only_ret|apply read_only_raise]. Qed.

Lemma read_only_py_max xs : read_only (py_max xs).
Proof. unfold py_max. destruct (max_of xs); [apply read_only_ret|apply read_only_raise]. Qed.

(** The Aligner/Writer changes nothing but its two folders, the files in
    them and the directories on the way. *)
Lemma changes_only_align_and_write all_paragraphs output_base discarded_base
    folder_name doc_name :
  changes_only
    (λ q, q ∈ prefixes (output_base /: folder_name /: doc_name)
          ∨ q ∈ prefixes (discarded_base /: doc_name)
          ∨ ∃ lang_code, q = output_base /: folder_name /: doc_name /: txt lang_code
                         ∨ q = discarded_base /: doc_name /: txt lang_code)
    (align_and_write all_paragraphs output_base discarded_base folder_name doc_name).
Proof.
  unfold align_and_write.
  apply changes_only_bind; [apply changes_only_read_only, read_only_py_min|].
  intros min_count.
  apply changes_only_bind; [apply changes_only_read_only, read_only_py_max|].
  intros max_count.
  apply changes_only_bind.
  { apply changes_only_for. intros item. apply changes_only_print. }
  intros _. apply changes_only_bind.
  { case_decide; [|apply changes_only_print].
    apply changes_only_bind; [apply changes_only_print|]. intros _.
    unfold save_discarded. apply changes_only_for. intros item.
    case_decide; [|apply changes_only_ret].
    apply changes_only_bind.
    { eapply changes_only_weaken; [|apply changes_only_mkdir_parents].
      intros q Hq. simpl in Hq. by auto. }
    intros _. apply changes_only_bind; [|intros _; apply changes_only_print].
    eapply changes_only_weaken; [|apply changes_only_write_text].
    intros q ->. right. right. exists item.1. by right. }
  intros _. apply changes_only_bind; [|intros _; apply changes_only_print].
  unfold save_parallel. apply changes_only_bind.
  { eapply changes_only_weaken; [|apply changes_only_mkdir_parents].
    intros q Hq. simpl in Hq. by auto. }
  intros _. apply changes_only_for. intros item.
  apply changes_only_bind; [|intros _; apply changes_only_print].
  eapply changes_only_weaken; [|apply changes_only_write_text].
  intros q ->. right. right. exists item.1. by left.
Qed.

Lemma path_join2_app (base : path) a b : base /: a /: b = base ++ [a; b].
Proof. unfold path_join. by rewrite <- app_assoc. Qed.

Lemma changes_only_process_document_set doc_paths output_base folder_name doc_name :
  changes_only (towards_or_under output_base)
    (process_document_set doc_paths output_base (output_base /: "discarded_texts")
       folder_name doc_name).
Proof.
  unfold process_document_set. apply changes_only_bind.
  { apply changes_only_read_only, read_only_extract_all. }
  intros all_paragraphs.
  eapply changes_only_weaken; [|apply changes_only_align_and_write].
  intros q [Hq|[Hq|[lang_code [-> | ->]]]].
  - rewrite path_join2_app in Hq. by eapply prefixes_app.
  - rewrite path_join2_app in Hq. by eapply prefixes_app.
  - right. unfold path_join. rewrite <- !app_assoc. by apply prefix_app_r.
  - right. unfold path_join. rewrite <- !app_assoc. by apply prefix_app_r.
Qed.

Lemma changes_only_main base_path output_base :
  changes_only (towards_or_under output_base)
    (main base_path output_base (output_base /: "discarded_texts")).
Proof.
  unfold main.
  apply changes_only_bind; [apply changes_only_read_only, read_only_get_files|].
  intros fs. apply changes_only_bind; [apply changes_only_print|]. intros _.
  apply changes_only_bind.
  2:{ intros st. apply changes_only_bind; [apply changes_only_print|].
      intros _. apply changes_only_ret. }
  unfold process_all. apply changes_only_fold_io. intros st folder.
  apply changes_only_fold_io. intros st' doc.
  apply changes_only_bind; [apply changes_only_print|]. intros _.
  unfold process_guarded. destruct st' as [[doc_counter successful] failed].
  apply changes_only_try_except.
  - apply changes_only_bind; [apply changes_only_process_document_set|].
    intros _. apply changes_only_ret.
  - intros e. apply changes_only_bind; [apply changes_only_print|].
    intros _. apply changes_only_ret.
Qed.

(** X6: whatever the inputs and whatever fails, stage 1 creates, changes
    or removes nothing outside its output tree: an entry that is neither
    under [output_base] nor a directory on the way to it is after the run
    what it was before.  In particular the input documents are left as
    they were. *)
Theorem stage1_changes_output_only (base_path output_base : path) (w : world)
    (q : path) :
  q ∉ prefixes output_base → ¬ output_base `prefix_of` q →
  files (main base_path output_base (output_base /: "discarded_texts") w).2 !! q
  = files w !! q.
Proof.
  intros Hway Hunder. apply changes_only_main. by intros [?|?].
Qed.

(** In the scenario an input document is after the run of the script what
    it was before. *)
Lemma stage1_changes_output_only_scenario :
  let q := original_texts /: "Presidente" /: "nota_castellano.docx" in
  (q ∉ prefixes extracted_paragraphs)
  ∧ ¬ extracted_paragraphs `prefix_of` q
  ∧ files (main_script scenario_world).2 !! q = files scenario_world !! q.
Proof.
  intros q.
  assert (H1 : q ∉ prefixes extracted_paragraphs).
  { intros H%prefixes_length. simpl in H. lia. }
  assert (H2 : ¬ extracted_paragraphs `prefix_of` q).
  { intros [k Hk]. discriminate Hk. }
  split; [exact H1|]. split; [exact H2|].
  exact (stage1_changes_output_only original_texts extracted_paragraphs
           scenario_world q H1 H2).
Defined.

(** ** Stage 2 *)

Lemma changes_only_for_elem {A} P (xs : list A) body :
  (∀ x, x ∈ xs → changes_only P (body x)) → changes_only P (for_ xs body).
Proof.
  induction xs as [|x xs IH]; intros Hbody.
  - apply changes_only_ret.
  - simpl. apply changes_only_bind; [apply Hbody; by left|].
    intros _. apply IH. intros y Hy. apply Hbody. by right.
Qed.

Lemma read_only_read_paragraphs p : read_only (read_paragraphs p).
Proof.
  apply read_only_bind; [apply read_only_read_text|]. intros c. apply read_only_ret.
Qed.

Lemma read_only_count_lines p : read_only (count_lines p).
Proof.
  apply read_only_bind; [apply read_only_read_text|]. intros c. apply read_only_ret.
Qed.

Lemma read_only_read_document doc_dir txt_names :
  read_only (read_document doc_dir txt_names).
Proof.
  apply read_only_fold_io. intros st name.
  destruct (LANG_MAPPING_get (stem name)); [|apply read_only_ret].
  apply read_only_bind; [apply read_only_read_paragraphs|].
  intros ps. apply read_only_ret.
Qed.

Lemma read_only_align_document doc_name st : read_only (align_document doc_name st).
Proof.
  unfold align_document. case_decide; [|apply read_only_ret].
  apply read_only_bind; [apply read_only_print|]. intros _.
  apply read_only_bind; [apply read_only_py_min|]. intros m. apply read_only_ret.
Qed.

Lemma read_only_report_line_counts output_dir :
  read_only (report_line_counts output_dir).
Proof.
  unfold report_line_counts. apply read_only_bind.
  { apply read_only_for. intros lang_code.
    apply read_only_bind; [apply read_only_get_files|]. intros fs.
    apply read_only_if; [|apply read_only_ret].
    apply read_only_bind; [apply read_only_count_lines|].
    intros n. apply read_only_print. }
  intros _. apply read_only_bind.
  { apply read_only_fold_io. intros line_counts lang_code.
    apply read_only_bind; [apply read_only_get_files|]. intros fs.
    apply read_only_if; [|apply read_only_ret].
    apply read_only_bind; [apply read_only_count_lines|].
    intros n. apply read_only_ret. }
  intros line_counts. apply read_only_decide; apply read_only_print.
Qed.

Lemma changes_only_write_document output_dir doc_name st total :
  changes_only (master_area output_dir)
    (write_document output_dir doc_name st total).
Proof.
  unfold write_document. case_decide; [|apply changes_only_ret].
  apply changes_only_bind.
  2:{ intros _. apply changes_only_bind; [apply changes_only_print|].
      intros _. apply changes_only_ret. }
  apply changes_only_for_elem. intros lang_code Hlang.
  destruct (st.1 !! lang_code) as [ps|]; [|apply changes_only_ret].
  apply changes_only_for. intros paragraph.
  eapply changes_only_weaken; [|apply changes_only_stream_write].
  intros q ->. right. by exists lang_code.
Qed.

Lemma changes_only_consolidate_document output_dir doc_dir doc_name txt_names total :
  changes_only (master_area output_dir)
    (consolidate_document output_dir doc_dir doc_name txt_names total).
Proof.
  unfold consolidate_document. apply changes_only_bind.
  { apply changes_only_read_only, read_only_read_document. }
  intros st. apply changes_only_bind.
  { apply changes_only_read_only, read_only_align_document. }
  intros st'. apply changes_only_write_document.
Qed.

Lemma changes_only_consolidate_folder output_dir folder st :
  changes_only (master_area output_dir) (consolidate_folder output_dir folder st).
Proof.
  unfold consolidate_folder. apply changes_only_bind.
  { apply changes_only_read_only, read_only_iterdir. }
  intros entries. apply changes_only_fold_io. intros st' doc_name.
  apply changes_only_bind; [apply changes_only_read_only, read_only_get_files|].
  intros fs. destruct (is_dir fs (folder /: doc_name)); [|apply changes_only_ret].
  apply changes_only_bind; [apply changes_only_consolidate_document|].
  intros total. apply changes_only_ret.
Qed.

Lemma changes_only_consolidate extracted_dir output_dir :
  changes_only (master_area output_dir)
    (consolidate_parallel_texts extracted_dir output_dir).
Proof.
  unfold consolidate_parallel_texts. apply changes_only_bind.
  { eapply changes_only_weaken; [|apply changes_only_mkdir_parents].
    intros q Hq. by left. }
  intros _. apply changes_only_bind.
  { apply changes_only_for_elem. intros lang_code Hlang.
    eapply changes_only_weaken; [|apply changes_only_write_text].
    intros q ->. right. by exists lang_code. }
  intros _. apply changes_only_bind.
  { apply changes_only_read_only, read_only_iterdir. }
  intros entries. apply changes_only_bind.
  { apply changes_only_fold_io. intros st folder_name.
    apply changes_only_bind; [apply changes_only_read_only, read_only_get_files|].
    intros fs. destruct (_ || _); [apply changes_only_ret|].
    apply changes_only_bind; [apply changes_only_print|]. intros _.
    apply changes_only_consolidate_folder. }
  intros st. apply changes_only_bind; [apply changes_only_print|]. intros _.
  apply changes_only_read_only, read_only_report_line_counts.
Qed.

(** X7: whatever it meets and whatever fails, the Consolidator creates,
    changes or removes nothing but its five master files and the
    directories on the way to its output directory: every other entry, the
    aligned tree it reads included, is after the run what it was before. *)
Theorem consolidator_changes_masters_only (extracted_dir output_dir : path)
    (w : world) (q : path) :
  q ∉ prefixes output_dir →
  (∀ lang_code, lang_code ∈ LANG_MAPPING_values → q ≠ output_dir /: txt lang_code) →
  files (consolidate_parallel_texts extracted_dir output_dir w).2 !! q
  = files w !! q.
Proof.
  intros Hway Hmaster. apply changes_only_consolidate.
  intros [?|(lang_code & Hlang & ->)]; [done|]. by eapply Hmaster.
Qed.

(** After the Consolidator has run on the aligned tree of the scenario, an
    aligned file is what it was. *)
Lemma consolidator_changes_masters_only_scenario :
  let q := extracted_paragraphs /: "Presidente" /: "nota" /: "castellano.txt" in
  (q ∉ prefixes evaluation_data_paragraphs)
  ∧ (∀ lang_code, lang_code ∈ LANG_MAPPING_values →
       q ≠ evaluation_data_paragraphs /: txt lang_code)
  ∧ files (consolidate_script aligned_world).2 !! q = files aligned_world !! q.
Proof.
  intros q.
  assert (H1 : q ∉ prefixes evaluation_data_paragraphs).
  { intros H%prefixes_length. simpl in H. lia. }
  assert (H2 : ∀ lang_code, lang_code ∈ LANG_MAPPING_values →
                 q ≠ evaluation_data_paragraphs /: txt lang_code).
  { intros lang_code _ Heq. apply (f_equal length) in Heq.
    rewrite length_path_join in Heq. simpl in Heq. lia. }
  split; [exact H1|]. split; [exact H2|].
  exact (consolidator_changes_masters_only extracted_paragraphs
           evaluation_data_paragraphs aligned_world q H1 H2).
Defined.

(** * Running the Consolidator again *)

(** ** Computations that depend on the tree alone *)

Lemma files_fun_ret {A} (x : A) : files_fun (ret x).
Proof. by intros w1 w2 H. Qed.

Lemma files_fun_raise {A} e : files_fun (raise (A := A) e).
Proof. by intros w1 w2 H. Qed.

Lemma files_fun_print ev : files_fun (print ev).
Proof. by intros w1 w2 H. Qed.

Lemma files_fun_get_files : files_fun get_files.
Proof. intros w1 w2 H. unfold get_files. simpl. by rewrite H. Qed.

Lemma files_fun_bind {A B} (m : io A) (k : A → io B) :
  files_fun m → (∀ x, files_fun (k x)) → files_fun (bind m k).
Proof.
  intros Hm Hk w1 w2 H. unfold bind. destruct (Hm w1 w2 H) as [Hr Hf].
  destruct (m w1) as [[e1|x1] w1'], (m w2) as [[e2|x2] w2']; simpl in *;
    try discriminate Hr; injection Hr as ->; [done|by apply Hk].
Qed.

Lemma files_fun_fold_io {A S} (xs : list A) (s : S) body :
  (∀ s x, files_fun (body s x)) → files_fun (fold_io xs s body).
Proof.
  intros Hbody. revert s. induction xs as [|x xs IH]; intros s.
  - apply files_fun_ret.
  - simpl. apply files_fun_bind; [apply Hbody|]. intros s'. apply IH.
Qed.

Lemma files_fun_for {A} (xs : list A) body :
  (∀ x, files_fun (body x)) → files_fun (for_ xs body).
Proof.
  intros Hbody. induction xs as [|x xs IH].
  - apply files_fun_ret.
  - simpl. apply files_fun_bind; [apply Hbody|]. by intros _.
Qed.

(** A computation that reads the tree and is then one that depends on the
    tree alone. *)
Lemma files_fun_get_files_bind {A} (k : gmap path fnode → io A) :
  (∀ fs, files_fun (k fs)) → files_fun (fs <- get_files ;; k fs).
Proof. intros Hk. apply files_fun_bind; [apply files_fun_get_files|done]. Qed.

Lemma files_fun_iterdir p : files_fun (iterdir p).
Proof.
  intros w1 w2 H. unfold iterdir. rewrite H.
  by repeat case_match.
Qed.

Lemma files_fun_read_text p : files_fun (read_text p).
Proof.
  intros w1 w2 H. unfold read_text. rewrite H.
  by repeat case_match.
Qed.

Lemma files_fun_write_text p content : files_fun (write_text p content).
Proof.
  intros w1 w2 H. unfold write_text. rewrite H.
  repeat case_match; try done. simpl. by rewrite H.
Qed.

Lemma files_fun_stream_write p s : files_fun (stream_write p s).
Proof.
  intros w1 w2 H. unfold stream_write. rewrite H.
  repeat case_match; try done. simpl. by rewrite H.
Qed.

Lemma files_fun_mkdir_parents p : files_fun (mkdir_parents p).
Proof.
  intros w1 w2 H. unfold mkdir_parents. rewrite H.
  repeat case_match; try done. simpl. by rewrite H.
Qed.

Lemma files_fun_py_min xs : files_fun (py_min xs).
Proof. unfold py_min. destruct (min_of xs); [apply files_fun_ret|apply files_fun_raise]. Qed.

Lemma files_fun_read_paragraphs p : files_fun (read_paragraphs p).
Proof.
  apply files_fun_bind; [apply files_fun_read_text|]. intros c. apply files_fun_ret.
Qed.

Lemma files_fun_count_lines p : files_fun (count_lines p).
Proof.
  apply files_fun_bind; [apply files_fun_read_text|]. intros c. apply files_fun_ret.
Qed.

Lemma files_fun_consolidate_document output_dir doc_dir doc_name txt_names total :
  files_fun (consolidate_document output_dir doc_dir doc_name txt_names total).
Proof.
  unfold consolidate_document. apply files_fun_bind.
  { apply files_fun_fold_io. intros st name.
    destruct (LANG_MAPPING_get (stem name)); [|apply files_fun_ret].
    apply files_fun_bind; [apply files_fun_read_paragraphs|].
    intros ps. apply files_fun_ret. }
  intros st. apply files_fun_bind.
  { unfold align_document. case_decide; [|apply files_fun_ret].
    apply files_fun_bind; [apply files_fun_print|]. intros _.
    apply files_fun_bind; [apply files_fun_py_min|]. intros m.
    apply files_fun_ret. }
  intros st'. unfold write_document. case_decide; [|apply files_fun_ret].
  apply files_fun_bind.
  2:{ intros _. apply files_fun_bind; [apply files_fun_print|].
      intros _. apply files_fun_ret. }
  apply files_fun_for. intros lang_code.
  destruct (st'.1 !! lang_code); [|apply files_fun_ret].
  apply files_fun_for. intros paragraph. apply files_fun_stream_write.
Qed.

Lemma files_fun_consolidate_folder output_dir folder st :
  files_fun (consolidate_folder output_dir folder st).
Proof.
  unfold consolidate_folder.
  apply files_fun_bind; [apply files_fun_iterdir|]. intros entries.
  apply files_fun_fold_io. intros st' doc_name.
  apply files_fun_get_files_bind. intros fs.
  destruct (is_dir fs (folder /: doc_name)); [|apply files_fun_ret].
  apply files_fun_bind; [apply files_fun_consolidate_document|].
  intros total. apply files_fun_ret.
Qed.

Lemma files_fun_report_line_counts output_dir :
  files_fun (report_line_counts output_dir).
Proof.
  unfold report_line_counts. apply files_fun_bind.
  { apply files_fun_for. intros lang_code.
    apply files_fun_get_files_bind. intros fs.
    destruct (path_exists fs _); [|apply files_fun_ret].
    apply files_fun_bind; [apply files_fun_count_lines|].
    intros n. apply files_fun_print. }
  intros _. apply files_fun_bind.
  { apply files_fun_fold_io. intros line_counts lang_code.
    apply files_fun_get_files_bind. intros fs.
    destruct (path_exists fs _); [|apply files_fun_ret].
    apply files_fun_bind; [apply files_fun_count_lines|].
    intros n. apply files_fun_ret. }
  intros line_counts. case_decide; apply files_fun_print.
Qed.

(** ** Computations that only rewrite text files *)

Lemma retouches_read_only {A} M (m : io A) : read_only m → retouches M m.
Proof. intros Hm w q. left. by rewrite Hm. Qed.

Lemma retouches_bind {A B} M (m : io A) (k : A → io B) :
  retouches M m → (∀ x, retouches M (k x)) → retouches M (bind m k).
Proof.
  intros Hm Hk w q. unfold bind. specialize (Hm w q).
  destruct (m w) as [[e|x] w1]; [done|]. simpl in Hm.
  destruct (Hk x w1 q) as [Hk1|(HM & c1 & c2 & Hc1 & Hc2)].
  - rewrite Hk1. exact Hm.
  - destruct Hm as [Hm|(_ & c & c' & Hc & Hc')].
    + right. split; [done|]. exists c1, c2. by rewrite <- Hm.
    + right. split; [done|]. by exists c, c2.
Qed.

Lemma retouches_fold_io {A S} M (xs : list A) (s : S) body :
  (∀ s x, retouches M (body s x)) → retouches M (fold_io xs s body).
Proof.
  intros Hbody. revert s. induction xs as [|x xs IH]; intros s.
  - apply retouches_read_only, read_only_ret.
  - simpl. apply retouches_bind; [apply Hbody|]. intros s'. apply IH.
Qed.

Lemma retouches_for {A} M (xs : list A) body :
  (∀ x, x ∈ xs → retouches M (body x)) → retouches M (for_ xs body).
Proof.
  induction xs as [|x xs IH]; intros Hbody.
  - apply retouches_read_only, read_only_ret.
  - simpl. apply retouches_bind; [apply Hbody; by left|].
    intros _. apply IH. intros y Hy. apply Hbody. by right.
Qed.

Lemma retouches_stream_write M p s : p ∈ M → retouches M (stream_write p s).
Proof.
  intros Hp w q. unfold stream_write.
  destruct (files w !! p) as [[|c|]|] eqn:Hf; try by left.
  simpl. destruct (decide (q = p)) as [->|Hne].
  - right. split; [done|]. exists c, (c ++ s).
    split; [done|]. apply lookup_insert_eq.
  - left. by apply lookup_insert_ne.
Qed.

Lemma retouches_consolidate_folder output_dir folder st :
  retouches (master_paths output_dir) (consolidate_folder output_dir folder st).
Proof.
  unfold consolidate_folder. apply retouches_bind.
  { apply retouches_read_only, read_only_iterdir. }
  intros entries. apply retouches_fold_io. intros st' doc_name.
  apply retouches_bind; [apply retouches_read_only, read_only_get_files|].
  intros fs. destruct (is_dir fs (folder /: doc_name)).
  2:{ apply retouches_read_only, read_only_ret. }
  apply retouches_bind.
  2:{ intros total. apply retouches_read_only, read_only_ret. }
  unfold consolidate_document. apply retouches_bind.
  { apply retouches_read_only, read_only_read_document. }
  intros st1. apply retouches_bind.
  { apply retouches_read_only, read_only_align_document. }
  intros st2. unfold write_document. case_decide.
  2:{ apply retouches_read_only, read_only_ret. }
  apply retouches_bind.
  2:{ intros _. apply retouches_read_only.
      apply read_only_bind; [apply read_only_print|]. intros _. apply read_only_ret. }
  apply retouches_for. intros lang_code Hlang.
  destruct (st2.1 !! lang_code).
  2:{ apply retouches_read_only, read_only_ret. }
  apply retouches_for. intros paragraph _. apply retouches_stream_write.
  unfold master_paths. apply list_elem_of_fmap. by exists lang_code.
Qed.

(** ** Opening the master files *)

Lemma path_join_ne_self (d : path) name : d /: name ≠ d.
Proof.
  intros H. apply (f_equal length) in H. rewrite length_path_join in H. lia.
Qed.

Lemma open_masters_cons d l ls w :
  open_masters d (l :: ls) w
  = match write_text (d /: txt l) [] w with
    | (inr _, w') => open_masters d ls w'
    | (inl e, w') => (inl e, w')
    end.
Proof. unfold open_masters. by rewrite for_cons. Qed.

Lemma write_text_cases p content w :
  (is_dir (files w) p = false ∧ is_dir (files w) (parent p) = true
   ∧ write_text p content w = (inr tt, set_files (insert p (TextN content)) w))
  ∨ ∃ e, write_text p content w = (inl e, w)
         ∧ (is_dir (files w) p = true ∨ is_dir (files w) (parent p) = false).
Proof.
  unfold write_text. destruct (is_dir (files w) p) eqn:Hp.
  { right. eexists. split; [done|by left]. }
  destruct (is_dir (files w) (parent p)) eqn:Hparent.
  { left. by split_and!. }
  right. destruct (is_file (files w) (parent p)); eexists; (split; [done|by right]).
Qed.

(** Whatever happens, opening leaves an entry as it was or as an empty
    text file at the path of a master file. *)
Lemma open_masters_inv d ls w q :
  files (open_masters d ls w).2 !! q = files w !! q
  ∨ (files (open_masters d ls w).2 !! q = Some (TextN [])
     ∧ ∃ l, l ∈ ls ∧ q = d /: txt l).
Proof.
  revert w. induction ls as [|l ls IH]; intros w; [by left|].
  rewrite open_masters_cons.
  destruct (write_text_cases (d /: txt l) [] w) as [(_ & _ & ->)|(e & -> & _)];
    [|by left].
  destruct (IH (set_files (insert (d /: txt l) (TextN [])) w))
    as [Hsame|(Hempty & l' & Hl' & ->)].
  - rewrite Hsame. simpl. destruct (decide (q = d /: txt l)) as [->|Hne].
    + right. split; [apply lookup_insert_eq|]. exists l. split; [left|done].
    + left. by apply lookup_insert_ne.
  - right. split; [done|]. exists l'. split; [by right|done].
Qed.

Lemma open_masters_keeps_dir d ls w :
  is_dir (files w) d = true → is_dir (files (open_masters d ls w).2) d = true.
Proof.
  intros Hd. destruct (open_masters_inv d ls w d) as [Hsame|(_ & l & _ & Heq)].
  - by rewrite (is_dir_ext _ _ _ Hsame).
  - symmetry in Heq. by apply path_join_ne_self in Heq.
Qed.

Lemma open_masters_keeps_empty d ls w q :
  files w !! q = Some (TextN []) →
  files (open_masters d ls w).2 !! q = Some (TextN []).
Proof.
  intros Hq. destruct (open_masters_inv d ls w q) as [Hsame|[Hempty _]]; [|done].
  by rewrite Hsame.
Qed.

(** After the opening has gone through, every master file is empty. *)
Lemma open_masters_empty d ls w w' l :
  open_masters d ls w = (inr tt, w') → l ∈ ls →
  files w' !! (d /: txt l) = Some (TextN []).
Proof.
  revert w. induction ls as [|l0 ls IH]; intros w Hrun Hl.
  { by apply elem_of_nil in Hl. }
  rewrite open_masters_cons in Hrun.
  destruct (write_text_cases (d /: txt l0) [] w) as [(_ & _ & Hw)|(e & Hw & _)];
    rewrite Hw in Hrun; [|done].
  apply elem_of_cons in Hl as [->|Hl]; [|by eapply IH].
  replace w' with (open_masters d ls
                     (set_files (insert (d /: txt l0) (TextN [])) w)).2
    by (by rewrite Hrun).
  apply open_masters_keeps_empty. simpl. apply lookup_insert_eq.
Qed.

Lemma set_files_id (f : gmap path fnode → gmap path fnode) w :
  f (files w) = files w → set_files f w = w.
Proof. intros H. unfold set_files. rewrite H. by destruct w. Qed.

(** When the opening fails, running it again from the state it left fails
    in the same way and changes nothing. *)
Lemma open_masters_again d ls w e w' :
  is_dir (files w) d = true →
  open_masters d ls w = (inl e, w') →
  open_masters d ls w' = (inl e, w').
Proof.
  revert w. induction ls as [|l ls IH]; intros w Hd Hrun; [done|].
  rewrite open_masters_cons in Hrun.
  destruct (write_text_cases (d /: txt l) [] w) as [(Hp & _ & Hw)|(e' & Hw & _)];
    rewrite Hw in Hrun.
  - set (w1 := set_files (insert (d /: txt l) (TextN [])) w) in *.
    assert (Hd1 : is_dir (files w1) d = true).
    { rewrite <- Hd. apply is_dir_ext. simpl. apply lookup_insert_ne.
      apply path_join_ne_self. }
    assert (Hw' : w' = (open_masters d ls w1).2) by (by rewrite Hrun).
    assert (Hempty : files w' !! (d /: txt l) = Some (TextN [])).
    { rewrite Hw'. apply open_masters_keeps_empty. simpl. apply lookup_insert_eq. }
    assert (Hd' : is_dir (files w') d = true).
    { rewrite Hw'. by apply open_masters_keeps_dir. }
    rewrite open_masters_cons.
    rewrite write_text_ok.
    + rewrite set_files_id by (by apply insert_id). by apply (IH w1).
    + apply (is_dir_TextN _ _ []); [apply path_join_nonempty|done].
    + by rewrite parent_path_join.
  - injection Hrun as <- <-. by rewrite open_masters_cons, Hw.
Qed.

(** On a tree where the directory is there and no master path is a
    directory, the opening goes through and sets every master file to the
    empty text. *)
Lemma open_masters_ok d ls w :
  is_dir (files w) d = true →
  (∀ l, l ∈ ls → is_dir (files w) (d /: txt l) = false) →
  ∃ w', open_masters d ls w = (inr tt, w')
        ∧ ∀ q, files w' !! q
               = if decide (q ∈ (λ l, d /: txt l) <$> ls) then Some (TextN [])
                 else files w !! q.
Proof.
  revert w. induction ls as [|l ls IH]; intros w Hd Hls.
  { exists w. split; [done|]. intros q. rewrite decide_False; [done|].
    apply not_elem_of_nil. }
  rewrite open_masters_cons. rewrite write_text_ok.
  2:{ apply Hls. by left. }
  2:{ by rewrite parent_path_join. }
  destruct (IH (set_files (insert (d /: txt l) (TextN [])) w)) as (w' & Hrun & Hw').
  - rewrite <- Hd. apply is_dir_ext. simpl. apply lookup_insert_ne.
    apply path_join_ne_self.
  - intros l' Hl'. simpl. destruct (decide (d /: txt l = d /: txt l')) as [Heq|Hne].
    + rewrite Heq. apply (is_dir_TextN _ _ []); [apply path_join_nonempty|].
      apply lookup_insert_eq.
    + rewrite <- (Hls l') by (by right). apply is_dir_ext.
      by apply lookup_insert_ne.
  - exists w'. split; [done|]. intros q. rewrite Hw'.
    rewrite fmap_cons. cbn [set_files files]. destruct (decide (q ∈ _ <$> ls)) as [Hin|Hnin].
    + rewrite decide_True; [done|by right].
    + destruct (decide (q = d /: txt l)) as [->|Hne].
      * rewrite decide_True by (by left). apply lookup_insert_eq.
      * rewrite decide_False by (intros [?|?]%elem_of_cons; done).
        by apply lookup_insert_ne.
Qed.

(** ** Making the output directory *)

Lemma mkdir_parents_cases p w :
  mkdir_parents p w
  = (inr tt, set_files (λ fs, foldl (λ fs q, <[q := DirN]> fs) fs (prefixes p)) w)
  ∨ ∃ e, mkdir_parents p w = (inl e, w).
Proof.
  unfold mkdir_parents. destruct (list_find _ _) as [[i q]|]; [|by left].
  right. by eexists.
Qed.

Lemma prefixes_whole (p : path) : p ≠ [] → p ∈ prefixes p.
Proof.
  intros Hp. apply elem_of_prefixes. exists (length p - 1).
  destruct p as [|n p]; [done|]. simpl. split; [lia|].
  rewrite Nat.sub_0_r. f_equal. symmetry. by apply take_ge.
Qed.

Lemma is_dir_made (fs : gmap path fnode) (p : path) :
  (∀ q, q ∈ prefixes p → fs !! q = Some DirN) → is_dir fs p = true.
Proof.
  intros H. destruct (decide (p = [])) as [->|Hp]; [done|].
  by apply is_dir_DirN, H, prefixes_whole.
Qed.

(** Where the directories are there, making them changes nothing. *)
Lemma mkdir_parents_made p w :
  (∀ q, q ∈ prefixes p → files w !! q = Some DirN) →
  mkdir_parents p w = (inr tt, w).
Proof.
  intros H. rewrite mkdir_parents_ok.
  - f_equal. apply set_files_id. apply map_eq. intros q.
    rewrite mkdirs_lookup. case_decide; [|done]. symmetry. by apply H.
  - apply Forall_forall. intros q Hq. by apply is_file_DirN, H.
Qed.

(** ** The second run *)

Lemma reopen_idempotent d (k : io unit) w :
  files_fun k → retouches (master_paths d) k →
  let run := (mkdir_parents d ;; open_masters d LANG_MAPPING_values ;; k) in
  (run (run w).2).1 = (run w).1 ∧ files (run (run w).2).2 = files (run w).2.
Proof.
  intros Hfun Hret run. unfold run.
  destruct (mkdir_parents_cases d w) as [Hmk|[e Hmk]].
  2:{ rewrite (bind_inl _ _ _ _ _ Hmk). cbn [snd].
      by rewrite (bind_inl _ _ _ _ _ Hmk). }
  rewrite (bind_inr _ _ _ _ _ Hmk).
  set (w0 := set_files _ w) in *.
  assert (Hdirs0 : ∀ q, q ∈ prefixes d → files w0 !! q = Some DirN).
  { intros q Hq. unfold w0. simpl. rewrite mkdirs_lookup. by rewrite decide_True. }
  pose proof (is_dir_made _ _ Hdirs0) as Hd0.
  assert (Hnot_master : ∀ q l, q ∈ prefixes d → q ≠ d /: txt l).
  { intros q l Hq%prefixes_length ->. rewrite length_path_join in Hq. lia. }
  destruct (open_masters d LANG_MAPPING_values w0) as [[e|[]] w1] eqn:Hopen.
  - (* the opening fails *)
    rewrite (bind_inl _ _ _ _ _ Hopen). cbn [fst snd].
    assert (Hdirs1 : ∀ q, q ∈ prefixes d → files w1 !! q = Some DirN).
    { intros q Hq. replace w1 with (open_masters d LANG_MAPPING_values w0).2
        by (by rewrite Hopen).
      destruct (open_masters_inv d LANG_MAPPING_values w0 q)
        as [->|(_ & l & _ & Heq)]; [by apply Hdirs0|].
      by apply Hnot_master in Heq. }
    rewrite (bind_inr _ _ _ _ _ (mkdir_parents_made _ _ Hdirs1)).
    by rewrite (bind_inl _ _ _ _ _ (open_masters_again _ _ _ _ _ Hd0 Hopen)).
  - (* the opening goes through *)
    rewrite (bind_inr _ _ _ _ _ Hopen).
    set (w2 := (k w1).2).
    assert (Hdirs1 : ∀ q, q ∈ prefixes d → files w1 !! q = Some DirN).
    { intros q Hq. replace w1 with (open_masters d LANG_MAPPING_values w0).2
        by (by rewrite Hopen).
      destruct (open_masters_inv d LANG_MAPPING_values w0 q)
        as [->|(_ & l & _ & Heq)]; [by apply Hdirs0|].
      by apply Hnot_master in Heq. }
    assert (Hdirs2 : ∀ q, q ∈ prefixes d → files w2 !! q = Some DirN).
    { intros q Hq. unfold w2.
      destruct (Hret w1 q) as [->|(_ & c & c' & Hc & _)]; [by apply Hdirs1|].
      rewrite (Hdirs1 q Hq) in Hc. done. }
    rewrite (bind_inr _ _ _ _ _ (mkdir_parents_made _ _ Hdirs2)).
    destruct (open_masters_ok d LANG_MAPPING_values w2) as (w3 & Hopen3 & Hw3).
    { by apply is_dir_made. }
    { intros l Hl.
      assert (Hin : d /: txt l ∈ master_paths d)
        by (apply list_elem_of_fmap; by exists l).
      pose proof (open_masters_empty _ _ _ _ _ Hopen Hl) as Hempty.
      destruct (Hret w1 (d /: txt l)) as [Hsame|(_ & c & c' & _ & Hc')].
      - fold w2 in Hsame. rewrite Hempty in Hsame.
        by apply (is_dir_TextN _ _ []); [apply path_join_nonempty|].
      - by apply (is_dir_TextN _ _ c'); [apply path_join_nonempty|]. }
    rewrite (bind_inr _ _ _ _ _ Hopen3).
    apply Hfun. apply map_eq. intros q. rewrite Hw3.
    fold (master_paths d). case_decide as Hq.
    + apply list_elem_of_fmap in Hq as (l & -> & Hl). symmetry.
      by apply (open_masters_empty _ _ _ _ _ Hopen).
    + destruct (Hret w1 q) as [Hsame|(Hin & _)]; [done|]. by destruct Hq.
Qed.

(** X8: the Consolidator can be run again.  Whatever the first run met,
    a second run from the state it left ends in the same way (it returns,
    or raises the same error) and leaves every file, the five master files
    included, as the first run left it: the master files are opened anew,
    so no line is written twice. *)
Theorem consolidator_idempotent (extracted_dir output_dir : path) (w : world) :
  let run1 := consolidate_parallel_texts extracted_dir output_dir w in
  let run2 := consolidate_parallel_texts extracted_dir output_dir run1.2 in
  run2.1 = run1.1 ∧ files run2.2 = files run1.2.
Proof.
  intros run1 run2. unfold run2, run1, consolidate_parallel_texts.
  fold (open_masters output_dir LANG_MAPPING_values).
  apply (reopen_idempotent output_dir).
  - apply files_fun_bind; [apply files_fun_iterdir|]. intros entries.
    apply files_fun_bind.
    { apply files_fun_fold_io. intros st folder_name.
      apply files_fun_get_files_bind. intros fs.
      destruct (_ || _); [apply files_fun_ret|].
      apply files_fun_bind; [apply files_fun_print|]. intros _.
      apply files_fun_consolidate_folder. }
    intros st. apply files_fun_bind; [apply files_fun_print|]. intros _.
    apply files_fun_report_line_counts.
  - apply retouches_bind; [apply retouches_read_only, read_only_iterdir|].
    intros entries. apply retouches_bind.
    { apply retouches_fold_io. intros st folder_name.
      apply retouches_bind; [apply retouches_read_only, read_only_get_files|].
      intros fs. destruct (_ || _); [apply retouches_read_only, read_only_ret|].
      apply retouches_bind; [apply retouches_read_only, read_only_print|].
      intros _. apply retouches_consolidate_folder. }
    intros st. apply retouches_read_only.
    apply read_only_bind; [apply read_only_print|]. intros _.
    apply read_only_report_line_counts.
Qed.

(** * Between the stages *)

(** ** A document set that cannot be read *)

Lemma Document_inv p w doc w' :
  Document p w = (inr doc, w') → w' = w ∧ files w !! p = Some (DocxN doc).
Proof.
  unfold Document. destruct p as [|n p]; [done|].
  destruct (files w !! (n :: p)) as [[| |d]|]; try done. by intros [= <- <-].
Qed.

Lemma extract_loop_fails (items : list (string * path))
    (acc : gmap string (list Py.str)) w :
  (∃ item, item ∈ items ∧ ∀ doc, files w !! item.2 ≠ Some (DocxN doc)) →
  ∃ e w',
    fold_io items acc
      (λ all_paragraphs item,
         print (EvProcessing item.1 item.2) ;;
         doc <- Document item.2 ;;
         let extracted := DocxParagraphExtractor.extract_paragraphs doc in
         print (EvExtracted item.1 (length extracted.1) extracted.2) ;;
         ret (<[item.1 := extracted.1]> all_paragraphs)) w
    = (inl e, w')
    ∧ files w' = files w.
Proof.
  revert acc w. induction items as [|item0 items IH]; intros acc w (item & Hin & Hbad).
  { by apply elem_of_nil in Hin. }
  rewrite fold_io_cons, print_bind.
  set (w0 := {| files := files w; stdout := _ |}).
  destruct (Document item0.2 w0) as [[e|doc] w1] eqn:Hdoc.
  - rewrite (bind_inl _ _ _ _ _ Hdoc). exists e, w1. split; [done|].
    pose proof (read_only_Document item0.2 w0) as Hro. by rewrite Hdoc in Hro.
  - rewrite (bind_inr _ _ _ _ _ Hdoc), print_bind.
    unfold ret at 1. cbv beta iota.
    apply Document_inv in Hdoc as [-> Hfile].
    apply elem_of_cons in Hin as [->|Hin]; [by destruct (Hbad doc)|].
    match goal with |- context [fold_io items ?acc1 _ ?w1] =>
      destruct (IH acc1 w1) as (e & w2 & Hrun & Hf) end.
    { by exists item. }
    exists e, w2. split; [exact Hrun|exact Hf].
Qed.

Lemma sorted_items_empty {V} : sorted_items (∅ : gmap string V) = [].
Proof.
  apply length_zero_iff_nil. by rewrite length_sorted_items, map_size_empty.
Qed.

(** X9: stage 1 writes nothing for a document set it cannot read.  When
    the set is empty, or one of its language versions is not a package
    that can be opened, processing the set raises an error and leaves
    every file as it was: no output file and no discard file is written
    for the versions that could be read. *)
Theorem unreadable_set_writes_nothing (doc_paths : gmap string path)
    (output_base discarded_base : path) (folder_name doc_name : string) (w : world) :
  (doc_paths = ∅
   ∨ ∃ lang_code p, doc_paths !! lang_code = Some p
                    ∧ ∀ doc, files w !! p ≠ Some (DocxN doc)) →
  ∃ e w',
    process_document_set doc_paths output_base discarded_base folder_name doc_name w
    = (inl e, w')
    ∧ files w' = files w.
Proof.
  unfold process_document_set, extract_all. intros [->|(lang_code & p & Hp & Hbad)].
  - rewrite sorted_items_empty. simpl. rewrite ret_bind, align_and_write_plan.
    unfold least_count. rewrite fmap_empty. unfold values.
    rewrite map_to_list_empty. simpl. by eexists _, _.
  - destruct (extract_loop_fails (sorted_items doc_paths) ∅ w) as (e & w' & Hrun & Hf).
    { exists (lang_code, p). split; [by apply elem_of_sorted_items|done]. }
    exists e, w'. by rewrite (bind_inl _ _ _ _ _ Hrun).
Qed.

(** The set [acto] of the inputs with a Castilian version that is not a
    package: nothing is written for it. *)
Lemma unreadable_set_writes_nothing_example :
  (unparseable_set = ∅
   ∨ ∃ lang_code p, unparseable_set !! lang_code = Some p
                    ∧ ∀ doc, files unparseable_world !! p ≠ Some (DocxN doc))
  ∧ ∃ e w',
      process_document_set unparseable_set extracted_paragraphs discarded_texts
        "Presidente" "acto" unparseable_world
      = (inl e, w')
      ∧ files w' = files unparseable_world.
Proof.
  assert (H : unparseable_set = ∅
              ∨ ∃ lang_code p, unparseable_set !! lang_code = Some p
                  ∧ ∀ doc, files unparseable_world !! p ≠ Some (DocxN doc)).
  { right. exists "castellano", (original_texts /: "Presidente" /: "acto_castellano.docx").
    split; [vm_compute; reflexivity|].
    intros doc Hdoc. vm_compute in Hdoc. discriminate Hdoc. }
  split; [exact H|].
  exact (unreadable_set_writes_nothing unparseable_set extracted_paragraphs
           discarded_texts "Presidente" "acto" unparseable_world H).
Defined.

(** ** Nothing to verify *)

Lemma verify_folder_absent base_path st folder_name w :
  path_exists (files w) (base_path /: folder_name) = false →
  verify_folder base_path st folder_name w = (inr st, w).
Proof. intros H. unfold verify_folder. by rewrite get_files_bind, H. Qed.

(** X10: where none of the four folders exists under the base path (the
    aligned tree is missing or empty), the Verifier reads nothing, counts
    no document and reports success. *)
Theorem verifier_passes_without_documents (base_path : path) (w : world) :
  (∀ folder_name, folder_name ∈ verify_folders →
     path_exists (files w) (base_path /: folder_name) = false) →
  verify_all_documents base_path w
  = (inr true, {| files := files w; stdout := stdout w ++ [EvSummary 0 true] |}).
Proof.
  intros Habsent. unfold verify_all_documents.
  assert (Hfold : ∀ folder_names st,
    (∀ f, f ∈ folder_names → f ∈ verify_folders) →
    fold_io folder_names st (verify_folder base_path) w = (inr st, w)).
  { induction folder_names as [|f fs IH]; intros st Hin; [done|].
    rewrite fold_io_cons, verify_folder_absent.
    - apply IH. intros f' Hf'. apply Hin. by right.
    - apply Habsent, Hin. by left. }
  by rewrite (bind_inr _ _ _ _ _ (Hfold verify_folders (true, 0) (λ f H, H))).
Qed.

(** The Verifier on an empty tree. *)
Lemma verifier_passes_without_documents_example :
  (∀ folder_name, folder_name ∈ verify_folders →
     path_exists (files fresh_world) (extracted_paragraphs /: folder_name) = false)
  ∧ verify_script fresh_world
    = (inr true, {| files := ∅; stdout := [EvSummary 0 true] |}).
Proof.
  assert (H : ∀ folder_name, folder_name ∈ verify_folders →
     path_exists (files fresh_world) (extracted_paragraphs /: folder_name) = false).
  { intros folder_name _. unfold path_exists, is_dir, is_file. simpl.
    rewrite lookup_empty. reflexivity. }
  split; [exact H|].
  exact (verifier_passes_without_documents extracted_paragraphs fresh_world H).
Defined.

(** ** From the Aligner/Writer to the Verifier *)

Lemma one_line_set_b_sound (all_paragraphs : gmap string (list Py.str)) :
  one_line_set_b all_paragraphs = true →
  ∀ lang ps, all_paragraphs !! lang = Some ps → Forall one_line ps.
Proof.
  unfold one_line_set_b. rewrite forallb_forall. intros H lang ps Hl.
  apply Forall_one_line_b. apply (H (lang, ps)).
  by apply list_elem_of_In, elem_of_map_to_list.
Qed.

(** X11: a document that the Aligner/Writer has written passes the
    Verifier.  For a document set with the five language versions whose
    paragraphs take one line each, the Aligner/Writer (on a tree that lets
    it write) runs to its end, and the Verifier then finds the same count
    in the five files of the document and reports it as passing. *)
Theorem aligned_document_verifies (all_paragraphs : gmap string (list Py.str))
    (output_base : path) (folder_name doc_name : string) (w : world) :
  writable (files w) output_base folder_name doc_name (map_to_list all_paragraphs).*1 →
  dom all_paragraphs = list_to_set languages →
  (∀ lang ps, all_paragraphs !! lang = Some ps → Forall one_line ps) →
  ∃ min_count w1 w2,
    align_and_write all_paragraphs output_base (output_base /: "discarded_texts")
      folder_name doc_name w = (inr tt, w1)
    ∧ least_count all_paragraphs = Some min_count
    ∧ (∀ lang, lang ∈ languages →
         lang_count (files w1) (output_base /: folder_name /: doc_name) lang
         = Some min_count)
    ∧ verify_document (output_base /: folder_name /: doc_name) doc_name w1
      = (inr true, w2).
Proof.
  intros Hw Hdom Hlines.
  assert (Hhas : ∀ lang, lang ∈ languages → is_Some (all_paragraphs !! lang)).
  { intros lang Hl. apply elem_of_dom. rewrite Hdom. by apply elem_of_list_to_set. }
  assert (Hne : all_paragraphs ≠ ∅).
  { intros He. destruct (Hhas "castellano") as [ps Hps]; [by left|].
    by rewrite He, lookup_empty in Hps. }
  destruct (counts_exist all_paragraphs Hne) as (m & M & Hm & HM).
  destruct (least_count_spec _ _ Hm) as [_ Hmin].
  destruct (align_plan_runs output_base folder_name doc_name
              all_paragraphs m M w Hw) as [w1 Hrun].
  assert (Hcount : ∀ lang, lang ∈ languages →
            lang_count (files w1) (output_base /: folder_name /: doc_name) lang
            = Some m).
  { intros lang Hl. destruct (Hhas lang Hl) as [ps Hps]. unfold lang_count.
    rewrite (lookup_after_plan _ _ _ _ Hrun).
    rewrite (plan_effect_output output_base folder_name doc_name _ _ _ _ _ _ Hps).
    rewrite text_count_join_lines by (apply Forall_take; by eapply Hlines).
    rewrite length_take. f_equal. specialize (Hmin _ _ Hps). lia. }
  destruct (verify_document_run (output_base /: folder_name /: doc_name) doc_name w1)
    as (w2 & Hverify & _).
  { intros lang Hl. right. specialize (Hcount lang Hl). unfold lang_count in Hcount.
    destruct (files w1 !! _) as [[|c|]|]; try done. by exists c. }
  exists m, w1, w2. split_and!; [|done|done|].
  { by rewrite align_and_write_plan, Hm, HM. }
  rewrite Hverify. do 2 f_equal. apply doc_passes_agree.
  exists m. split.
  - exists "castellano". split; [by left|]. apply Hcount. by left.
  - intros lang k Hl Hk. rewrite (Hcount lang Hl) in Hk. by injection Hk.
Qed.

(** The set [nota] of the scenario, written to an empty output area, passes
    the Verifier with three paragraphs in every language. *)
Lemma aligned_document_verifies_scenario :
  writable (files fresh_world) extracted_paragraphs "Presidente" "nota"
    (map_to_list nota_paragraphs).*1
  ∧ dom nota_paragraphs = list_to_set languages
  ∧ (∀ lang ps, nota_paragraphs !! lang = Some ps → Forall one_line ps)
  ∧ ∃ min_count w1 w2,
      align_and_write nota_paragraphs extracted_paragraphs
        (extracted_paragraphs /: "discarded_texts") "Presidente" "nota" fresh_world
      = (inr tt, w1)
      ∧ least_count nota_paragraphs = Some min_count
      ∧ (∀ lang, lang ∈ languages →
           lang_count (files w1) (extracted_paragraphs /: "Presidente" /: "nota") lang
           = Some min_count)
      ∧ verify_document (extracted_paragraphs /: "Presidente" /: "nota") "nota" w1
        = (inr true, w2).
Proof.
  assert (H1 : writable (files fresh_world) extracted_paragraphs "Presidente" "nota"
                 (map_to_list nota_paragraphs).*1)
    by apply fresh_world_writable.
  assert (H2 : dom nota_paragraphs = list_to_set languages).
  { apply set_eq. intros lang. rewrite elem_of_dom, elem_of_list_to_set.
    split.
    - intros [ps Hps]. apply elem_of_list_to_map_2 in Hps.
      apply (list_elem_of_fmap_2 fst) in Hps. exact Hps.
    - intros Hl. apply (bool_decide_unpack _).
      repeat (apply elem_of_cons in Hl as [->|Hl]; [vm_compute; exact I|]).
      by apply elem_of_nil in Hl. }
  assert (H3 : ∀ lang ps, nota_paragraphs !! lang = Some ps → Forall one_line ps).
  { apply one_line_set_b_sound. vm_compute. reflexivity. }
  split; [exact H1|]. split; [exact H2|]. split; [exact H3|].
  exact (aligned_document_verifies nota_paragraphs extracted_paragraphs
           "Presidente" "nota" fresh_world H1 H2 H3).
Defined.

(** * Edge cases of the writers *)

(** ** Discard files of documents with one name *)





(** ** The Consolidator without an aligned tree *)

(** X13: the Consolidator empties its master files before it looks at its
    input.  On a tree where the output directory can be made and no master
    path is a directory, but the aligned tree is missing, the run raises
    [FileNotFoundError] for the aligned tree, and by then every one of the
    five master files is there and empty: what an earlier consolidation
    had written is gone. *)
Theorem consolidator_without_input (extracted_dir output_dir : path) (w : world) :
  Forall (λ q, is_file (files w) q = false) (prefixes output_dir) →
  (∀ lang_code, lang_code ∈ LANG_MAPPING_values →
     is_dir (files w) (output_dir /: txt lang_code) = false) →
  path_exists (files w) extracted_dir = false →
  extracted_dir ∉ prefixes output_dir → extracted_dir ∉ master_paths output_dir →
  ∃ w',
    consolidate_parallel_texts extracted_dir output_dir w
    = (inl (FileNotFoundError extracted_dir), w')
    ∧ ∀ lang_code, lang_code ∈ LANG_MAPPING_values →
        files w' !! (output_dir /: txt lang_code) = Some (TextN []).
Proof.
  intros Hway Hmasters Hmissing Hnot_way Hnot_master.
  unfold consolidate_parallel_texts.
  fold (open_masters output_dir LANG_MAPPING_values).
  rewrite (bind_inr _ _ _ _ _ (mkdir_parents_ok _ _ Hway)).
  set (w0 := set_files _ w).
  assert (Hlookup0 : ∀ q, files w0 !! q
            = if decide (q ∈ prefixes output_dir) then Some DirN else files w !! q).
  { intros q. unfold w0. simpl. apply mkdirs_lookup. }
  destruct (open_masters_ok output_dir LANG_MAPPING_values w0) as (w1 & Hopen & Hw1).
  { apply is_dir_made. intros q Hq. by rewrite Hlookup0, decide_True. }
  { intros l Hl. rewrite <- (Hmasters l Hl). apply is_dir_ext.
    rewrite Hlookup0, decide_False; [done|].
    intros Hin%prefixes_length. rewrite length_path_join in Hin. lia. }
  rewrite (bind_inr _ _ _ _ _ Hopen).
  assert (Hgone : files w1 !! extracted_dir = files w !! extracted_dir).
  { rewrite Hw1. fold (master_paths output_dir). rewrite decide_False by done.
    by rewrite Hlookup0, decide_False. }
  apply orb_false_iff in Hmissing as [Hdir Hfile].
  assert (Hiter : iterdir extracted_dir w1 = (inl (FileNotFoundError extracted_dir), w1)).
  { unfold iterdir.
    rewrite (is_dir_ext _ _ _ Hgone), Hdir, (is_file_ext _ _ _ Hgone), Hfile. done. }
  rewrite (bind_inl _ _ _ _ _ Hiter).
  exists w1. split; [done|]. intros l Hl.
  by apply (open_masters_empty _ _ _ _ _ Hopen).
Qed.

(** With master files of an earlier run and no aligned tree, the script
    fails and leaves the master file of Castilian empty. *)
Lemma consolidator_without_input_example :
  files stale_masters_world !! (evaluation_data_paragraphs /: "es.txt")
  = Some (TextN (as_lines (Py.lit <$> ["Uno"; "Dos"])))
  ∧ ∃ w',
      consolidate_script stale_masters_world
      = (inl (FileNotFoundError extracted_paragraphs), w')
      ∧ ∀ lang_code, lang_code ∈ LANG_MAPPING_values →
          files w' !! (evaluation_data_paragraphs /: txt lang_code) = Some (TextN []).
Proof.
  split; [vm_compute; reflexivity|].
  apply (consolidator_without_input extracted_paragraphs evaluation_data_paragraphs
           stale_masters_world).
  - apply (bool_decide_unpack _). vm_compute. exact I.
  - intros l Hl. revert l Hl. apply Forall_forall.
    apply (bool_decide_unpack _). vm_compute. exact I.
  - vm_compute. reflexivity.
  - apply (bool_decide_unpack _). vm_compute. exact I.
  - apply (bool_decide_unpack _). vm_compute. exact I.
Defined.

(** * The sources of a master file *)

Lemma no_entry_named_b_sound fs name :
  no_entry_named_b fs name = true → no_entry_named fs name.
Proof.
  unfold no_entry_named_b. rewrite forallb_forall. intros H p.
  destruct (fs !! (p /: name)) as [node|] eqn:Hp; [|done].
  apply elem_of_map_to_list, list_elem_of_In, H in Hp. simpl in Hp.
  unfold path_join in Hp. rewrite last_snoc in Hp.
  by rewrite bool_decide_eq_true_2 in Hp.
Qed.

(** ** Names and languages *)

Lemma strip_suffix_eq suffix s :
  strip_suffix suffix s
  = if String.eqb s suffix then Some ""
    else match s with
         | String c rest => String c <$> strip_suffix suffix rest
         | EmptyString => None
         end.
Proof. by destruct s. Qed.

Lemma strip_suffix_Some suffix s r :
  strip_suffix suffix s = Some r → s = r +:+ suffix.
Proof.
  revert r. induction s as [|c s IH]; intros r; rewrite strip_suffix_eq.
  - destruct (String.eqb_spec "" suffix) as [<-|]; [|done]. by intros [= <-].
  - destruct (String.eqb_spec (String c s) suffix) as [<-|_].
    + by intros [= <-].
    + destruct (strip_suffix suffix s) as [r'|]; [|done].
      intros [= <-]. simpl. by rewrite (IH r' eq_refl).
Qed.

Lemma elem_of_glob_ext fs p ext name :
  name ∈ glob_ext fs p ext →
  is_Some (fs !! (p /: name)) ∧ is_Some (strip_suffix ext name).
Proof.
  unfold glob_ext. destruct (is_dir fs p); [|by intros ?%elem_of_nil].
  intros [Hend Hin]%list_elem_of_filter. split; [by apply elem_of_listdir|].
  unfold endswith in Hend. by apply Is_true_true, bool_decide_eq_true in Hend.
Qed.

(** The keys of [LANG_MAPPING] are told apart by their values, no key is a
    value, and none is the bare extension. *)
Lemma LANG_MAPPING_keys :
  Forall (λ e1, e1.1 ≠ ".txt" ∧ (e1.1 ∉ LANG_MAPPING_values)
                ∧ Forall (λ e2, e1.2 = e2.2 → e1.1 = e2.1) LANG_MAPPING)
    LANG_MAPPING.
Proof. apply (bool_decide_unpack _). by vm_compute. Qed.

(** A file of a listing [*.txt] that the Consolidator takes for the
    language of [key] is named [key.txt]. *)
Lemma source_name fs doc_dir name key lang_code :
  (key, lang_code) ∈ LANG_MAPPING →
  name ∈ glob_ext fs doc_dir ".txt" →
  LANG_MAPPING_get (stem name) = Some lang_code →
  name = txt key.
Proof.
  intros Hkey [_ [r Hr]]%elem_of_glob_ext Hget.
  pose proof LANG_MAPPING_keys as Hkeys. rewrite Forall_forall in Hkeys.
  apply dict_get_Some in Hget. unfold stem in Hget. rewrite Hr in Hget.
  apply strip_suffix_Some in Hr. subst name.
  destruct (Hkeys _ Hget) as (Hext & _ & Hinj). rewrite Forall_forall in Hinj.
  specialize (Hinj _ Hkey eq_refl). simpl in Hext, Hinj.
  destruct r as [|c r]; [done|]. by rewrite Hinj.
Qed.

(** ** The master file through the run *)

Section source.
Context (output_dir : path) (key lang_code : string).
Context (Hkey : (key, lang_code) ∈ LANG_MAPPING).
Context (Hout : txt key ∉ output_dir).

(** The master file of the language is empty and the tree has no entry
    named by the key. *)
Let unfed (w : world) : Prop :=
  files w !! (output_dir /: txt lang_code) = Some (TextN [])
  ∧ no_entry_named (files w) (txt key).

Lemma lang_code_value : lang_code ∈ LANG_MAPPING_values.
Proof. apply list_elem_of_fmap. by exists (key, lang_code). Qed.

Lemma source_outside_master_area p : ¬ master_area output_dir (p /: txt key).
Proof.
  intros [Hway|(l & Hl & Heq)].
  - apply elem_of_prefixes in Hway as (k & Hk & Heq). apply Hout.
    apply (subseteq_take (S k)). rewrite <- Heq. unfold path_join.
    apply elem_of_app. right. by left.
  - apply path_join_txt_inj in Heq as [_ ->].
    pose proof LANG_MAPPING_keys as Hkeys. rewrite Forall_forall in Hkeys.
    by destruct (Hkeys _ Hkey) as (_ & Hval & _).
Qed.

Lemma no_source_kept {A} (m : io A) w :
  changes_only (master_area output_dir) m →
  no_entry_named (files w) (txt key) → no_entry_named (files (m w).2) (txt key).
Proof.
  intros Hm Hnone p. rewrite Hm; [apply Hnone|apply source_outside_master_area].
Qed.

Lemma consolidate_document_unfed doc_dir doc_name total w total' w' :
  unfed w →
  consolidate_document output_dir doc_dir doc_name
    (glob_ext (files w) doc_dir ".txt") total w = (inr total', w') →
  unfed w'.
Proof.
  intros [Hempty Hnone] Hrun. split.
  2:{ replace w' with (consolidate_document output_dir doc_dir doc_name
                         (glob_ext (files w) doc_dir ".txt") total w).2
        by (by rewrite Hrun).
      apply no_source_kept; [apply changes_only_consolidate_document|done]. }
  unfold consolidate_document in Hrun.
  apply bind_inr_inv in Hrun as ([dp pc] & w0 & Hread & Hrest).
  apply bind_inr_inv in Hrest as (st & w1 & Halign & Hwrite).
  apply read_document_inv in Hread as (-> & Hfrom & _). simpl in Hfrom.
  assert (Hdp : dp !! lang_code = None).
  { destruct (dp !! lang_code) as [ps|] eqn:Hps; [|done].
    destruct (Hfrom _ _ Hps) as (name & content & Hname & Hget & Hfile & _).
    rewrite (source_name _ _ _ _ _ Hkey Hname Hget) in Hfile.
    by rewrite Hnone in Hfile. }
  assert (Hst : st.1 !! lang_code = None ∧ files w1 = files w).
  { destruct (align_document_run doc_name (dp, pc) w)
      as [(_ & m & _ & Hal)|(_ & Hal)];
      rewrite Hal in Halign; injection Halign as <- <-; simpl.
    - by rewrite lookup_fmap, Hdp.
    - done. }
  destruct Hst as [Hst Hf1].
  apply write_document_inv in Hwrite as [_ Hfiles].
  rewrite (Hfiles lang_code []); [|apply lang_code_value|by rewrite Hf1].
  rewrite Hst. simpl. by case_decide.
Qed.

Lemma consolidate_folder_unfed folder st w st' w' :
  unfed w → consolidate_folder output_dir folder st w = (inr st', w') → unfed w'.
Proof.
  intros Hw Hrun. unfold consolidate_folder in Hrun.
  apply bind_inr_inv in Hrun as (entries & w0 & Hiter & Hrun).
  assert (w0 = w) as ->.
  { unfold iterdir in Hiter. by repeat case_match; simplify_eq. }
  clear Hiter. revert st w Hw Hrun.
  induction (sorted entries) as [|doc_name docs IH]; intros st w Hw Hrun.
  { by injection Hrun as _ <-. }
  rewrite fold_io_cons, get_files_bind in Hrun.
  destruct (is_dir (files w) (folder /: doc_name)).
  - destruct (consolidate_document output_dir (folder /: doc_name) doc_name
                (glob_ext (files w) (folder /: doc_name) ".txt") st.1 w)
      as [[e|total] w1] eqn:Hdoc.
    + by rewrite (bind_inl _ _ _ _ _ Hdoc) in Hrun.
    + rewrite (bind_inr _ _ _ _ _ Hdoc) in Hrun.
      apply (IH (total, S st.2) w1); [|exact Hrun].
      by eapply consolidate_document_unfed.
  - by apply (IH st w).
Qed.

Lemma consolidate_folders_unfed extracted_dir (names : list string) st w st' w' :
  unfed w →
  fold_io names st
    (λ st folder_name,
       fs <- get_files ;;
       let folder := extracted_dir /: folder_name in
       if negb (is_dir fs folder) || String.prefix "." folder_name
          || bool_decide (folder_name = "discarded_texts")
       then ret st
       else print (EvFolder folder_name) ;;
            consolidate_folder output_dir folder st) w = (inr st', w') →
  unfed w'.
Proof.
  revert st w. induction names as [|folder_name names IH]; intros st w Hw Hrun.
  { by injection Hrun as _ <-. }
  rewrite fold_io_cons, get_files_bind in Hrun. cbv zeta in Hrun.
  destruct (_ || _).
  - by apply (IH st w).
  - rewrite print_bind in Hrun.
    match type of Hrun with context [consolidate_folder ?d ?f ?s ?w0] =>
      destruct (consolidate_folder d f s w0) as [[e|st1] w1] eqn:Hfolder end;
      [done|].
    apply (IH st1 w1); [|exact Hrun].
    eapply consolidate_folder_unfed; [|exact Hfolder]. exact Hw.
Qed.

Lemma consolidate_unfed extracted_dir w w' :
  no_entry_named (files w) (txt key) →
  consolidate_parallel_texts extracted_dir output_dir w = (inr tt, w') →
  files w' !! (output_dir /: txt lang_code) = Some (TextN []).
Proof.
  intros Hnone Hrun. unfold consolidate_parallel_texts in Hrun.
  fold (open_masters output_dir LANG_MAPPING_values) in Hrun.
  apply bind_inr_inv in Hrun as ([] & w0 & Hmk & Hrun).
  apply bind_inr_inv in Hrun as ([] & w1 & Hopen & Hrun).
  apply bind_inr_inv in Hrun as (entries & w2 & Hiter & Hrun).
  assert (w2 = w1) as ->.
  { unfold iterdir in Hiter. by repeat case_match; simplify_eq. }
  apply bind_inr_inv in Hrun as (st & w3 & Hfolders & Hrun).
  rewrite print_bind in Hrun.
  assert (Hw1 : unfed w1).
  { split; [by apply (open_masters_empty _ _ _ _ _ Hopen), lang_code_value|].
    replace w1 with (open_masters output_dir LANG_MAPPING_values w0).2
      by (by rewrite Hopen).
    apply no_source_kept.
    { apply changes_only_for_elem. intros l Hl.
      eapply changes_only_weaken; [|apply changes_only_write_text].
      intros q ->. right. by exists l. }
    replace w0 with (mkdir_parents output_dir w).2 by (by rewrite Hmk).
    apply no_source_kept; [|done].
    eapply changes_only_weaken; [|apply changes_only_mkdir_parents].
    intros q Hq. by left. }
  apply consolidate_folders_unfed in Hfolders as [Hempty _]; [|done].
  pose proof (read_only_report_line_counts output_dir
                {| files := files w3; stdout := stdout w3 ++ [EvStatistics st.2 st.1] |})
    as Hro.
  rewrite Hrun in Hro. simpl in Hro. by rewrite Hro.
Qed.

End source.

(** X14: a master file is fed only by the files that bear its key of
    [LANG_MAPPING].  When the tree has no entry named [key.txt], then
    after a run of the Consolidator that returns the master file of the
    language of that key is empty, whatever else the aligned tree holds.
    The files that stage 1 writes are named [castellano.txt], [ca_ES.txt],
    [vl_ES.txt], [gl_ES.txt] and [eu_ES.txt]: on its trees this is the
    case for the keys [va_ES] and [ga_ES]. *)
Theorem master_file_needs_its_source (extracted_dir output_dir : path)
    (key lang_code : string) (w w' : world) :
  (key, lang_code) ∈ LANG_MAPPING →
  txt key ∉ output_dir →
  no_entry_named (files w) (txt key) →
  consolidate_parallel_texts extracted_dir output_dir w = (inr tt, w') →
  files w' !! (output_dir /: txt lang_code) = Some (TextN []).
Proof.
  intros Hkey Hout Hnone Hrun.
  by apply (consolidate_unfed output_dir key lang_code Hkey Hout extracted_dir w w').
Qed.

(** On the aligned tree of the scenario, which has no file [va_ES.txt], the
    master file [va.txt] is left empty. *)
Lemma master_file_needs_its_source_scenario :
  ("va_ES", "va") ∈ LANG_MAPPING
  ∧ (txt "va_ES" ∉ evaluation_data_paragraphs)
  ∧ no_entry_named (files aligned_world) (txt "va_ES")
  ∧ (consolidate_script aligned_world).1 = inr tt
  ∧ files (consolidate_script aligned_world).2 !! (evaluation_data_paragraphs /: "va.txt")
    = Some (TextN []).
Proof.
  assert (H1 : ("va_ES", "va") ∈ LANG_MAPPING)
    by (apply (bool_decide_unpack _); vm_compute; exact I).
  assert (H2 : txt "va_ES" ∉ evaluation_data_paragraphs)
    by (apply (bool_decide_unpack _); vm_compute; exact I).
  assert (H3 : no_entry_named (files aligned_world) (txt "va_ES"))
    by (apply no_entry_named_b_sound; vm_compute; reflexivity).
  assert (H4 : (consolidate_script aligned_world).1 = inr tt)
    by (vm_compute; reflexivity).
  split; [exact H1|]. split; [exact H2|]. split; [exact H3|]. split; [exact H4|].
  apply (master_file_needs_its_source extracted_paragraphs evaluation_data_paragraphs
           "va_ES" "va" aligned_world _ H1 H2 H3).
  rewrite <- H4. apply surjective_pairing.
Defined.

(** * One document at a time *)



(** * A document set through stage 1 *)

Lemma Document_package p w :
  Document p w = match package_at (files w) p with
                 | Some doc => (inr doc, w)
                 | None => (inl (PackageNotFoundError p), w)
                 end.
Proof.
  unfold Document, package_at. destruct p as [|n p]; [done|].
  by destruct (files w !! (n :: p)) as [[| |doc]|].
Qed.

(** The extraction loop over language versions that are all packages. *)
Lemma extract_loop_run (items : list (string * path))
    (acc : gmap string (list Py.str)) w :
  NoDup items.*1 →
  (∀ item, item ∈ items → is_Some (package_at (files w) item.2)) →
  ∃ all_paragraphs w',
    fold_io items acc
      (λ all_paragraphs item,
         print (EvProcessing item.1 item.2) ;;
         doc <- Document item.2 ;;
         let extracted := DocxParagraphExtractor.extract_paragraphs doc in
         print (EvExtracted item.1 (length extracted.1) extracted.2) ;;
         ret (<[item.1 := extracted.1]> all_paragraphs)) w
    = (inr all_paragraphs, w')
    ∧ files w' = files w
    ∧ ∀ lang, all_paragraphs !! lang
        = match (list_to_map items : gmap string path) !! lang with
          | Some p => (λ doc, (DocxParagraphExtractor.extract_paragraphs doc).1)
                        <$> package_at (files w) p
          | None => acc !! lang
          end.
Proof.
  revert acc w. induction items as [|[lang0 p0] items IH]; intros acc w Hnd Hall.
  { exists acc, w. split_and!; [done|done|]. intros lang.
    change (list_to_map []) with (∅ : gmap string path). by rewrite lookup_empty. }
  apply NoDup_cons in Hnd as [Hfresh Hnd].
  destruct (Hall (lang0, p0)) as [doc Hdoc]; [by left|]. simpl in Hdoc.
  rewrite fold_io_cons, print_bind. cbn [fst snd].
  set (w0 := {| files := files w; stdout := _ |}).
  assert (HD : Document p0 w0 = (inr doc, w0)).
  { rewrite Document_package. unfold w0. simpl. by rewrite Hdoc. }
  rewrite (bind_inr _ _ _ _ _ HD), print_bind. unfold ret at 1. cbv beta iota zeta.
  match goal with |- context [fold_io items ?acc1 _ ?w1] =>
    destruct (IH acc1 w1 Hnd) as (res & w2 & Hrun & Hf & Hres) end.
  { intros item Hin. simpl. apply Hall. by right. }
  exists res, w2. split; [exact Hrun|]. split; [exact Hf|].
  intros lang. rewrite Hres. unfold w0. cbn [files].
  destruct (decide (lang = lang0)) as [->|Hne].
  - rewrite not_elem_of_list_to_map_1 by done.
    rewrite list_to_map_cons, !lookup_insert_eq. by rewrite Hdoc.
  - rewrite list_to_map_cons, !lookup_insert_ne by done. done.
Qed.

Lemma list_to_map_sorted_items {V} (d : gmap string V) :
  list_to_map (sorted_items d) = d.
Proof.
  rewrite <- (list_to_map_to_list d) at 2.
  apply list_to_map_proper; [apply NoDup_sorted_items|apply sorted_items_perm].
Qed.

Lemma extract_all_run doc_paths w :
  (∀ lang p, doc_paths !! lang = Some p → is_Some (package_at (files w) p)) →
  ∃ w', extract_all doc_paths w = (inr (extracted_set (files w) doc_paths), w')
        ∧ files w' = files w.
Proof.
  intros Hall. unfold extract_all.
  destruct (extract_loop_run (sorted_items doc_paths) ∅ w) as (res & w' & Hrun & Hf & Hres).
  { apply NoDup_sorted_items. }
  { intros [lang p] Hin%elem_of_sorted_items. by eapply Hall. }
  exists w'. split; [|done].
  assert (res = extracted_set (files w) doc_paths) as <-; [|exact Hrun].
  apply map_eq. intros lang. rewrite Hres, list_to_map_sorted_items.
  unfold extracted_set. rewrite lookup_omap.
  destruct (doc_paths !! lang); [done|]. by rewrite lookup_empty.
Qed.

Lemma writable_langs fs output_base folder_name doc_name (langs langs' : list string) :
  (∀ lang, lang ∈ langs' → lang ∈ langs) →
  writable fs output_base folder_name doc_name langs →
  writable fs output_base folder_name doc_name langs'.
Proof.
  intros Hsub [Hway Hfiles]. split; [done|].
  rewrite Forall_forall in Hfiles. apply Forall_forall. intros lang Hl.
  by apply Hfiles, Hsub.
Qed.

(** X16: a document set through stage 1.  For a set whose language
    versions are all packages that can be opened, on a tree that lets the
    files be written, [process_document_set] runs to its end, and the
    output file of every language holds, joined by blank lines, the first
    [min_count] of the body paragraphs of its document that are not blank,
    each without its surrounding whitespace; [min_count] is the least
    number of such paragraphs among the versions. *)
Theorem process_document_set_writes (doc_paths : gmap string path)
    (output_base : path) (folder_name doc_name : string) (w : world) :
  doc_paths ≠ ∅ →
  (∀ lang p, doc_paths !! lang = Some p → is_Some (package_at (files w) p)) →
  writable (files w) output_base folder_name doc_name (map_to_list doc_paths).*1 →
  ∃ min_count w',
    process_document_set doc_paths output_base (output_base /: "discarded_texts")
      folder_name doc_name w = (inr tt, w')
    ∧ least_count (extracted_set (files w) doc_paths) = Some min_count
    ∧ ∀ lang p doc,
        doc_paths !! lang = Some p → package_at (files w) p = Some doc →
        min_count ≤ length (stripped_body doc)
        ∧ files w' !! (output_base /: folder_name /: doc_name /: txt lang)
          = Some (TextN (Py.join para_sep (take min_count (stripped_body doc)))).
Proof.
  intros Hne Hall Hw.
  destruct (extract_all_run doc_paths w Hall) as (w0 & Hextract & Hf0).
  set (all_paragraphs := extracted_set (files w) doc_paths) in *.
  assert (Hlookup : ∀ lang p doc,
            doc_paths !! lang = Some p → package_at (files w) p = Some doc →
            all_paragraphs !! lang = Some (stripped_body doc)).
  { intros lang p doc Hp Hdoc. unfold all_paragraphs, extracted_set.
    rewrite lookup_omap, Hp. simpl. rewrite Hdoc. simpl. f_equal.
    unfold DocxParagraphExtractor.extract_paragraphs, stripped_body. simpl.
    by rewrite extract_loop. }
  assert (Hne' : all_paragraphs ≠ ∅).
  { intros He. apply Hne. apply map_empty. intros lang.
    destruct (doc_paths !! lang) as [p|] eqn:Hp; [|done].
    destruct (Hall _ _ Hp) as [doc Hdoc].
    pose proof (Hlookup _ _ _ Hp Hdoc) as Hl.
    by rewrite He, lookup_empty in Hl. }
  destruct (counts_exist all_paragraphs Hne') as (m & M & Hm & HM).
  destruct (least_count_spec _ _ Hm) as [_ Hmin].
  destruct (align_plan_runs output_base folder_name doc_name all_paragraphs m M w0)
    as [w' Hrun].
  { rewrite Hf0. eapply writable_langs; [|exact Hw].
    intros lang ([lang' ps] & -> & Hps)%list_elem_of_fmap. simpl.
    apply elem_of_map_to_list in Hps. unfold all_paragraphs, extracted_set in Hps.
    rewrite lookup_omap in Hps. destruct (doc_paths !! lang') as [p|] eqn:Hp; [|done].
    apply list_elem_of_fmap. exists (lang', p). split; [done|].
    by apply elem_of_map_to_list. }
  exists m, w'. split_and!; [|done|].
  { unfold process_document_set. rewrite (bind_inr _ _ _ _ _ Hextract).
    by rewrite align_and_write_plan, Hm, HM. }
  intros lang p doc Hp Hdoc. pose proof (Hlookup _ _ _ Hp Hdoc) as Hps.
  split; [by apply (Hmin lang)|].
  rewrite (lookup_after_plan _ _ _ _ Hrun).
  by rewrite (plan_effect_output output_base folder_name doc_name _ _ _ _ _ _ Hps).
Qed.

(** The set [nota] of the scenario in the tree of the inputs: the run
    writes three paragraphs for every language. *)
Lemma process_document_set_writes_scenario :
  nota_set ≠ ∅
  ∧ (∀ lang p, nota_set !! lang = Some p →
       is_Some (package_at (files scenario_world) p))
  ∧ writable (files scenario_world) extracted_paragraphs "Presidente" "nota"
      (map_to_list nota_set).*1
  ∧ ∃ min_count w',
      process_document_set nota_set extracted_paragraphs
        (extracted_paragraphs /: "discarded_texts") "Presidente" "nota" scenario_world
      = (inr tt, w')
      ∧ least_count (extracted_set (files scenario_world) nota_set) = Some min_count
      ∧ ∀ lang p doc,
          nota_set !! lang = Some p →
          package_at (files scenario_world) p = Some doc →
          min_count ≤ length (stripped_body doc)
          ∧ files w' !! (extracted_paragraphs /: "Presidente" /: "nota" /: txt lang)
            = Some (TextN (Py.join para_sep (take min_count (stripped_body doc)))).
Proof.
  assert (H1 : nota_set ≠ ∅).
  { intros H. apply (f_equal size) in H. vm_compute in H. discriminate H. }
  assert (H2 : ∀ lang p, nota_set !! lang = Some p →
                 is_Some (package_at (files scenario_world) p)).
  { apply (bool_decide_unpack
             (map_Forall (λ _ p, is_Some (package_at (files scenario_world) p))
                nota_set)).
    vm_compute. exact I. }
  assert (H3 : writable (files scenario_world) extracted_paragraphs "Presidente" "nota"
                 (map_to_list nota_set).*1).
  { split; apply (bool_decide_unpack _); vm_compute; exact I. }
  split; [exact H1|]. split; [exact H2|]. split; [exact H3|].
  exact (process_document_set_writes nota_set extracted_paragraphs
           "Presidente" "nota" scenario_world H1 H2 H3).
Defined.

(** * From stage 1 to stage 3 *)

Lemma nothing_under_b_sound fs base :
  nothing_under_b fs base = true → nothing_under fs base.
Proof.
  unfold nothing_under_b. rewrite forallb_forall. intros H q Hq.
  destruct (fs !! q) as [node|] eqn:Hn; [|done].
  apply elem_of_map_to_list, list_elem_of_In, H in Hn. simpl in Hn.
  by rewrite bool_decide_eq_true_2 in Hn.
Qed.

Lemma one_line_packages_b_sound fs :
  one_line_packages_b fs = true → one_line_packages fs.
Proof.
  unfold one_line_packages_b. rewrite forallb_forall. intros H p doc Hp.
  unfold package_at in Hp. destruct p as [|n p]; [done|].
  destruct (fs !! (n :: p)) as [[| |d]|] eqn:Hn; try done. injection Hp as ->.
  apply elem_of_map_to_list, list_elem_of_In, H in Hn. simpl in Hn.
  by apply Forall_one_line_b.
Qed.

(** ** What a plan leaves, by kind *)

Lemma action_effect_kind a q node :
  action_effect a !! q = Some node →
  (node = DirN ∧ q ∈ plan_dirs [a]) ∨ (∃ c, node = TextN c ∧ q ∈ plan_targets [a]).
Proof.
  destruct a as [p|p c|ev]; simpl.
  - rewrite mkdirs_lookup, lookup_empty. case_decide; [|done].
    intros [= <-]. left. split; [done|]. unfold plan_dirs. simpl.
    by rewrite app_nil_r.
  - intros [-> <-]%lookup_singleton_Some. right. exists c. split; [done|]. by left.
  - by rewrite lookup_empty.
Qed.

Lemma plan_effect_kind plan q node :
  plan_effect plan !! q = Some node →
  (node = DirN ∧ q ∈ plan_dirs plan) ∨ (∃ c, node = TextN c ∧ q ∈ plan_targets plan).
Proof.
  induction plan as [|a plan IH]; cbn [plan_effect]; [by rewrite lookup_empty|].
  rewrite plan_dirs_cons, plan_targets_cons. setoid_rewrite elem_of_app.
  intros [H|[_ H]]%lookup_union_Some_raw.
  - destruct (IH H) as [[-> ?]|(c & -> & ?)]; [left|right; exists c]; by auto.
  - destruct (action_effect_kind _ _ _ H) as [[-> ?]|(c & -> & ?)];
      [left|right; exists c]; by auto.
Qed.

Lemma after_plan_kind plan fs q :
  (plan_effect plan ∪ fs) !! q = fs !! q
  ∨ ((plan_effect plan ∪ fs) !! q = Some DirN ∧ q ∈ plan_dirs plan)
  ∨ ∃ c, (plan_effect plan ∪ fs) !! q = Some (TextN c) ∧ q ∈ plan_targets plan.
Proof.
  destruct (plan_effect plan !! q) as [node|] eqn:Hq.
  - rewrite (lookup_union_Some_l _ _ _ _ Hq).
    destruct (plan_effect_kind _ _ _ Hq) as [[-> ?]|(c & -> & ?)].
    + right. by left.
    + right. right. by exists c.
  - left. by apply lookup_union_r.
Qed.

(** ** Paths of the output tree *)

Lemma elem_of_prefixes_join (p q : path) name :
  q ∈ prefixes (p /: name) ↔ q ∈ prefixes p ∨ q = p /: name.
Proof.
  rewrite !elem_of_prefixes. unfold path_join. split.
  - intros (k & Hk & ->). rewrite length_app in Hk. simpl in Hk.
    destruct (decide (k < length p)) as [Hlt|Hge].
    + left. exists k. split; [done|]. by rewrite take_app_le by lia.
    + right. apply take_ge. rewrite length_app. simpl. lia.
  - intros [(k & Hk & ->)| ->].
    + exists k. rewrite length_app. split; [lia|]. by rewrite take_app_le by lia.
    + exists (length p). rewrite length_app. simpl. split; [lia|].
      symmetry. apply take_ge. rewrite length_app. simpl. lia.
Qed.

Lemma is_file_absent (fs : gmap path fnode) q : fs !! q = None → is_file fs q = false.
Proof. intros H. unfold is_file. rewrite H. by destruct q. Qed.

Lemma is_dir_absent (fs : gmap path fnode) q :
  q ≠ [] → fs !! q = None → is_dir fs q = false.
Proof. intros Hq H. unfold is_dir. rewrite H. by destruct q. Qed.

Lemma is_file_TextN (fs : gmap path fnode) q c :
  q ≠ [] → fs !! q = Some (TextN c) → is_file fs q = true.
Proof. intros Hq H. unfold is_file. rewrite H. by destruct q. Qed.

Lemma not_discarded_folder folder_name :
  folder_name ∈ verify_folders → folder_name ≠ "discarded_texts".
Proof.
  intros Hin ->. revert Hin. apply (bool_decide_unpack _). by vm_compute.
Qed.

(** ** The shape of the tree lets stage 1 write *)

Lemma aligned_tree_writable fs0 fs output_base folder_name doc_name langs :
  aligned_tree fs0 fs output_base →
  writable fs output_base folder_name doc_name langs.
Proof.
  intros [Hway Hfolders Hdocs Hfiles _ _]. split.
  - apply Forall_forall. intros q [Hq|Hq]%elem_of_app;
      apply elem_of_prefixes_join in Hq as [Hq| ->]; try apply Hdocs;
      apply elem_of_prefixes_join in Hq as [Hq| ->]; try apply Hfolders;
      by apply Hway.
  - apply Forall_forall. intros lang _. split; apply Hfiles.
Qed.

Lemma aligned_tree_start fs output_base :
  Forall (λ q, is_file fs q = false) (prefixes output_base) →
  nothing_under fs output_base →
  aligned_tree fs fs output_base.
Proof.
  intros Hway Hnone.
  assert (Hunder : ∀ rest, fs !! (output_base ++ rest) = None).
  { intros rest. apply Hnone. by apply prefix_app_r. }
  split.
  - by apply Forall_forall.
  - intros x. apply is_file_absent, Hunder.
  - intros x y. apply is_file_absent. unfold path_join.
    rewrite <- app_assoc. apply Hunder.
  - intros x y z. apply is_dir_absent; [apply path_join_nonempty|].
    unfold path_join. rewrite <- !app_assoc. apply Hunder.
  - intros f d _ Hdir. rewrite is_dir_absent in Hdir; [done|apply path_join_nonempty|].
    unfold path_join. rewrite <- app_assoc. apply Hunder.
  - done.
Qed.

(** ** One document set *)

Lemma extract_all_fails doc_paths lang p w :
  doc_paths !! lang = Some p → package_at (files w) p = None →
  ∃ e w', extract_all doc_paths w = (inl e, w') ∧ files w' = files w.
Proof.
  intros Hp Hbad. unfold extract_all.
  assert (Hin : (lang, p) ∈ sorted_items doc_paths) by (by apply elem_of_sorted_items).
  revert Hin. generalize (∅ : gmap string (list Py.str)) as acc. revert w Hbad.
  induction (sorted_items doc_paths) as [|item0 items IH]; intros w Hbad acc Hin.
  { by apply elem_of_nil in Hin. }
  rewrite fold_io_cons, print_bind.
  set (w0 := {| files := files w; stdout := _ |}).
  pose proof (Document_package item0.2 w0) as HD. cbn [files w0] in HD.
  destruct (package_at (files w) item0.2) as [doc|] eqn:Hdoc.
  - rewrite (bind_inr _ _ _ _ _ HD), print_bind. unfold ret at 1.
    cbv beta iota zeta.
    apply elem_of_cons in Hin as [<-|Hin];
      [simpl in Hdoc; by rewrite Hbad in Hdoc|].
    match goal with |- context [fold_io items ?acc1 _ ?w1] =>
      destruct (IH w1 Hbad acc1 Hin) as (e & w2 & Hrun & Hf) end.
    exists e, w2. split; [exact Hrun|exact Hf].
  - rewrite (bind_inl _ _ _ _ _ HD). by eexists _, _.
Qed.

Section step.
Context (fs0 : gmap path fnode) (output_base : path).
Context (folder_name doc_name : string) (doc_paths : gmap string path).
Context (Hlines : one_line_packages fs0).
Context (Hfive : ∀ lang, lang ∈ languages → is_Some (doc_paths !! lang)).

Let output_folder := output_base /: folder_name /: doc_name.
Let discarded_folder := output_base /: "discarded_texts" /: doc_name.

(** What the plan of the document set leaves at a path. *)
Lemma after_align_plan all_paragraphs min_count max_count fs q :
  let plan := align_plan all_paragraphs output_base
                (output_base /: "discarded_texts") folder_name doc_name
                min_count max_count in
  (plan_effect plan ∪ fs) !! q = fs !! q
  ∨ ((plan_effect plan ∪ fs) !! q = Some DirN
     ∧ length q ≤ length output_base + 2
     ∧ (length q = length output_base + 2 →
        q = output_folder ∨ q = discarded_folder))
  ∨ ∃ c lang, (plan_effect plan ∪ fs) !! q = Some (TextN c)
              ∧ (q = output_folder /: txt lang ∨ q = discarded_folder /: txt lang).
Proof.
  intros plan.
  destruct (after_plan_kind plan fs q) as [H|[[H Hin]|(c & H & Hin)]].
  - by left.
  - right. left. split; [done|]. apply align_plan_dirs in Hin.
    fold output_folder discarded_folder in Hin.
    assert (Hlen : length output_folder = length output_base + 2
                   ∧ length discarded_folder = length output_base + 2).
    { unfold output_folder, discarded_folder. rewrite !length_path_join. lia. }
    destruct Hlen as [Hlo Hld].
    apply elem_of_app in Hin as [Hin|Hin]; pose proof (prefixes_length _ _ Hin) as Hl.
    + split; [lia|]. intros Heq. left. apply prefixes_full; [done|lia].
    + split; [lia|]. intros Heq. right. apply prefixes_full; [done|lia].
  - right. right. apply align_plan_targets in Hin as (lang & _ & Hq).
    by exists c, lang.
Qed.

Lemma process_document_set_aligned w :
  aligned_tree fs0 (files w) output_base →
  aligned_tree fs0
    (files (process_document_set doc_paths output_base
              (output_base /: "discarded_texts") folder_name doc_name w).2)
    output_base.
Proof.
  intros Htree.
  destruct (decide (map_Forall (λ _ p, is_Some (package_at (files w) p)) doc_paths))
    as [Hall|Hnot].
  2:{ (* a version cannot be opened: nothing is written *)
      apply map_not_Forall in Hnot as (lang & p & Hp & Hbad); [|apply _].
      destruct (extract_all_fails doc_paths lang p w Hp) as (e & w1 & Hrun & Hf).
      { destruct (package_at (files w) p) as [doc|]; [|done].
        destruct Hbad. by exists doc. }
      unfold process_document_set.
      rewrite (bind_inl _ _ _ _ _ Hrun). simpl. by rewrite Hf. }
  destruct (extract_all_run doc_paths w Hall) as (w0 & Hextract & Hf0).
  set (all_paragraphs := extracted_set (files w) doc_paths) in *.
  assert (Hset : ∀ lang, lang ∈ languages →
            ∃ p doc, doc_paths !! lang = Some p
                     ∧ package_at (files w) p = Some doc
                     ∧ all_paragraphs !! lang = Some (stripped_body doc)).
  { intros lang Hl. destruct (Hfive lang Hl) as [p Hp].
    destruct (Hall _ _ Hp) as [doc Hdoc]. exists p, doc. split_and!; [done|done|].
    unfold all_paragraphs, extracted_set. rewrite lookup_omap, Hp. simpl.
    rewrite Hdoc. simpl. f_equal.
    unfold DocxParagraphExtractor.extract_paragraphs, stripped_body. simpl.
    by rewrite extract_loop. }
  assert (Hne : all_paragraphs ≠ ∅).
  { intros He. destruct (Hset "castellano") as (p & doc & _ & _ & Hl); [by left|].
    by rewrite He, lookup_empty in Hl. }
  destruct (counts_exist all_paragraphs Hne) as (m & M & Hm & HM).
  destruct (least_count_spec _ _ Hm) as [_ Hmin].
  destruct (align_plan_runs output_base folder_name doc_name all_paragraphs m M w0)
    as [w' Hrun].
  { rewrite Hf0. by eapply aligned_tree_writable. }
  assert (Hres : process_document_set doc_paths output_base
                   (output_base /: "discarded_texts") folder_name doc_name w
                 = (inr tt, w')).
  { unfold process_document_set. rewrite (bind_inr _ _ _ _ _ Hextract).
    by rewrite align_and_write_plan, Hm, HM. }
  rewrite Hres. cbn [snd].
  rewrite (run_actions_files _ _ _ Hrun), Hf0.
  set (plan := align_plan _ _ _ _ _ _ _).
  pose proof (λ q, after_align_plan all_paragraphs m M (files w) q) as Hafter.
  cbv zeta in Hafter. fold plan in Hafter.
  destruct Htree as [Hway Hfolders Hdocs Hfiles Haligned Hkept].
  assert (Hno_file : ∀ q, length q ≤ length output_base + 2 →
            is_file (files w) q = false → is_file (plan_effect plan ∪ files w) q = false).
  { intros q Hlen Hold. destruct (Hafter q) as [H|[(H & _)|(c & lang & H & Hq)]].
    - rewrite <- Hold. by apply is_file_ext.
    - by apply is_file_DirN.
    - exfalso. destruct Hq as [-> | ->];
        unfold output_folder, discarded_folder in Hlen;
        rewrite !length_path_join in Hlen; lia. }
  split.
  - intros q Hq. apply Hno_file; [|by apply Hway].
    apply prefixes_length in Hq. lia.
  - intros x. apply Hno_file; [|apply Hfolders]. rewrite length_path_join. lia.
  - intros x y. apply Hno_file; [|apply Hdocs]. rewrite !length_path_join. lia.
  - intros x y z. destruct (Hafter (output_base /: x /: y /: z))
      as [H|[(H & Hlen & _)|(c & lang & H & _)]].
    + rewrite <- (Hfiles x y z). by apply is_dir_ext.
    + rewrite !length_path_join in Hlen. lia.
    + apply (is_dir_TextN _ _ c); [apply path_join_nonempty|done].
  - intros f d Hf Hdir.
    destruct (decide (output_base /: f /: d = output_folder)) as [Heq|Hother].
    + (* the document that was written *)
      rewrite Heq. exists m. intros lang Hl.
      destruct (Hset lang Hl) as (p & doc & Hp & Hdoc & Hps).
      unfold lang_count.
      rewrite lookup_union_Some_l with
        (x := TextN (Py.join para_sep (take m (stripped_body doc)))).
      2:{ by apply (plan_effect_output output_base folder_name doc_name). }
      rewrite text_count_join_lines.
      * rewrite length_take. f_equal. specialize (Hmin _ _ Hps). lia.
      * apply Forall_take. eapply Hlines. by apply Hkept.
    + (* another document: nothing of it was touched *)
      assert (Hdisc : output_base /: f /: d ≠ discarded_folder).
      { unfold discarded_folder. intros [[_ ->]%path_join_inj _]%path_join_inj.
        by apply not_discarded_folder in Hf. }
      assert (Hdir0 : is_dir (files w) (output_base /: f /: d) = true).
      { destruct (Hafter (output_base /: f /: d))
          as [H|[(_ & _ & Hq)|(c & lang & H & _)]].
        - rewrite <- Hdir. symmetry. by apply is_dir_ext.
        - destruct Hq as [Hq|Hq]; [rewrite !length_path_join; lia|done|done].
        - rewrite (is_dir_TextN _ _ c) in Hdir; [done|apply path_join_nonempty|done]. }
      destruct (Haligned f d Hf Hdir0) as [n Hn]. exists n. intros lang Hl.
      rewrite <- (Hn lang Hl). unfold lang_count.
      destruct (Hafter (output_base /: f /: d /: txt lang))
        as [H|[(_ & Hlen & _)|(c & lang' & _ & Hq)]].
      * by rewrite H.
      * rewrite !length_path_join in Hlen. lia.
      * destruct Hq as [Hq|Hq]; apply path_join_inj in Hq as [Hq _]; done.
  - intros p doc Hp. apply Hkept. unfold package_at in *.
    destruct p as [|n p]; [done|].
    destruct (Hafter (n :: p)) as [H|[(H & _)|(c & lang & H & _)]];
      rewrite H in Hp; done.
Qed.

End step.

(** ** The batch *)

(** A set that Discovery returns has a version for each of the five
    languages. *)
Lemma discovered_set_five fs base_path folder_name doc_sets doc_name lang_files :
  discover_document_sets fs base_path !! folder_name = Some doc_sets →
  doc_sets !! doc_name = Some lang_files →
  ∀ lang, lang ∈ languages → is_Some (lang_files !! lang).
Proof.
  intros Hds Hlf lang Hlang.
  apply discover_document_sets_lookup in Hds. subst doc_sets.
  unfold discover_folder, complete_sets in Hlf.
  apply map_lookup_filter_Some in Hlf as [Hg Hsize]. simpl in Hsize.
  destruct (group_files_from _ _ _ _ Hg) as [_ Hfrom].
  assert (Hdom : dom lang_files = list_to_set stage1_languages).
  { apply set_subseteq_size_eq.
    - intros l [p Hp]%elem_of_dom.
      destruct (Hfrom l p Hp) as (n & _ & _ & Hc & _).
      apply elem_of_list_to_set. by eapply classify_with_lang.
    - rewrite five_languages, size_dom. lia. }
  apply elem_of_dom. rewrite Hdom. by apply elem_of_list_to_set.
Qed.

Lemma process_folder_aligned fs0 output_base total_docs folder_name
    (docs : list (string * gmap string path)) (st : nat * nat * nat) w :
  one_line_packages fs0 →
  (∀ doc lang, doc ∈ docs → lang ∈ languages → is_Some (doc.2 !! lang)) →
  aligned_tree fs0 (files w) output_base →
  ∃ st' w',
    fold_io docs st
      (λ st doc,
         print (EvHeader (S st.1.1) total_docs folder_name doc.1) ;;
         process_guarded output_base (output_base /: "discarded_texts")
           folder_name st doc) w
    = (inr st', w')
    ∧ aligned_tree fs0 (files w') output_base.
Proof.
  intros Hlines. revert st w.
  induction docs as [|doc docs IH]; intros st w Hfive Htree.
  - by exists st, w.
  - rewrite fold_io_cons, print_bind.
    set (w0 := {| files := files w; stdout := _ |}).
    rewrite process_guarded_run.
    pose proof (process_document_set_aligned fs0 output_base folder_name doc.1
                  doc.2 Hlines (λ lang Hl, Hfive doc lang (list_elem_of_here _ _) Hl)
                  w0 Htree) as Hstep.
    destruct (process_document_set _ _ _ _ _ w0) as [[e|[]] w1]; cbn [snd] in Hstep.
    + apply IH; [|done]. intros d lang Hd. apply Hfive. by right.
    + apply IH; [|done]. intros d lang Hd. apply Hfive. by right.
Qed.

Lemma process_all_aligned fs0 fs base_path output_base total_docs w :
  one_line_packages fs0 →
  aligned_tree fs0 (files w) output_base →
  ∃ st w',
    process_all (discover_document_sets fs base_path) output_base
      (output_base /: "discarded_texts") total_docs w
    = (inr st, w')
    ∧ aligned_tree fs0 (files w') output_base.
Proof.
  intros Hlines. unfold process_all.
  assert (Hitems : ∀ folder, folder ∈ sorted_items (discover_document_sets fs base_path) →
            discover_document_sets fs base_path !! folder.1 = Some folder.2).
  { intros [f ds] Hin. by apply elem_of_sorted_items in Hin. }
  revert Hitems. generalize (0, 0, 0). revert w.
  induction (sorted_items (discover_document_sets fs base_path)) as [|folder items IH];
    intros w st Hitems Htree.
  - by exists st, w.
  - rewrite fold_io_cons.
    pose proof (Hitems folder (list_elem_of_here _ _)) as Hds.
    destruct (process_folder_aligned fs0 output_base total_docs folder.1
                (sorted_items folder.2) st w Hlines)
      as (st1 & w1 & Hrun & Htree1); [|done|].
    + intros [d lf] lang Hd. apply elem_of_sorted_items in Hd.
      by apply (discovered_set_five fs base_path folder.1 folder.2 d lf).
    + rewrite Hrun. apply IH; [|done]. intros f Hf. apply Hitems. by right.
Qed.

Lemma main_aligned base_path output_base w :
  Forall (λ q, is_file (files w) q = false) (prefixes output_base) →
  nothing_under (files w) output_base →
  one_line_packages (files w) →
  ∃ st w',
    main base_path output_base (output_base /: "discarded_texts") w = (inr st, w')
    ∧ aligned_tree (files w) (files w') output_base.
Proof.
  intros Hway Hnone Hlines. unfold main. rewrite get_files_bind, print_bind.
  set (w0 := {| files := files w; stdout := _ |}).
  destruct (process_all_aligned (files w) (files w) base_path output_base
              (sum_list (size <$> values (discover_document_sets (files w) base_path)))
              w0 Hlines)
    as (st & w1 & Hrun & Htree); [by apply aligned_tree_start|].
  rewrite (bind_inr _ _ _ _ _ Hrun), print_bind. by eexists st, _.
Qed.

(** ** What the Verifier finds in such a tree *)

Lemma aligned_tree_verifiable fs0 fs output_base :
  aligned_tree fs0 fs output_base → verifiable fs output_base.
Proof.
  intros [_ Hfolders _ _ Haligned _]. split.
  - intros f _. unfold path_exists. rewrite (Hfolders f). by rewrite orb_false_r.
  - intros doc_dir lang (f & d & Hf & _ & Hdir & ->) Hl.
    destruct (Haligned f d Hf Hdir) as [n Hn]. specialize (Hn lang Hl).
    unfold lang_count in Hn. right.
    destruct (fs !! (output_base /: f /: d /: txt lang)) as [[]|]; try done.
    by eexists.
Qed.

Lemma aligned_tree_passes fs0 fs output_base doc_dir :
  aligned_tree fs0 fs output_base →
  is_document fs output_base doc_dir → present_counts_agree fs doc_dir.
Proof.
  intros [_ _ _ _ Haligned _] (f & d & Hf & _ & Hdir & ->).
  pose proof (Haligned f d Hf Hdir) as [n Hn].
  apply present_agree_five; [|by exists n].
  intros lang Hl. rewrite (Hn lang Hl). by eexists.
Qed.

(** X17: stage 1 followed by the Verifier.  When nothing is at or under the
    output directory, no directory on the way to it is a file, and every
    paragraph that the Extractor returns for a package of the tree takes one
    line (it is not blank and holds neither a line feed nor a carriage
    return), the batch of stage 1 runs to its end and the Verifier, run on
    what it wrote, returns true. *)
Theorem stage1_output_verifies base_path output_base w :
  Forall (λ q, is_file (files w) q = false) (prefixes output_base) →
  nothing_under (files w) output_base →
  one_line_packages (files w) →
  ∃ st w1 w2,
    main base_path output_base (output_base /: "discarded_texts") w = (inr st, w1)
    ∧ verify_all_documents output_base w1 = (inr true, w2).
Proof.
  intros Hway Hnone Hlines.
  destruct (main_aligned base_path output_base w Hway Hnone Hlines)
    as (st & w1 & Hmain & Htree).
  destruct (verify_all_documents_run output_base w1) as (ok & w2 & Hrun & _ & Hiff).
  { by eapply aligned_tree_verifiable. }
  exists st, w1, w2. split; [done|].
  assert (ok = true) as <-; [|done].
  apply Hiff. intros doc_dir Hdoc. by eapply aligned_tree_passes.
Qed.

Lemma stage1_output_verifies_scenario :
  Forall (λ q, is_file (files scenario_world) q = false) (prefixes extracted_paragraphs)
  ∧ nothing_under (files scenario_world) extracted_paragraphs
  ∧ one_line_packages (files scenario_world)
  ∧ ∃ st w1 w2,
      main original_texts extracted_paragraphs
        (extracted_paragraphs /: "discarded_texts") scenario_world = (inr st, w1)
      ∧ verify_all_documents extracted_paragraphs w1 = (inr true, w2).
Proof.
  assert (H1 : Forall (λ q, is_file (files scenario_world) q = false)
                 (prefixes extracted_paragraphs)).
  { apply (bool_decide_unpack _). vm_compute. exact I. }
  assert (H2 : nothing_under (files scenario_world) extracted_paragraphs).
  { apply nothing_under_b_sound. vm_compute. reflexivity. }
  assert (H3 : one_line_packages (files scenario_world)).
  { apply one_line_packages_b_sound. vm_compute. reflexivity. }
  split; [exact H1|]. split; [exact H2|]. split; [exact H3|].
  exact (stage1_output_verifies original_texts extracted_paragraphs scenario_world
           H1 H2 H3).
Defined.
